(** * ResourceAwareFedAvg: a shallow embedding of the resource-aware scheduler

    The development follows [src/py/flwr/server/strategy/resource_aware_fedavg.py].
    Python objects that are mutated in place (the strategy instance, the
    [resources] dictionary of every client proxy, the list handed to
    [associate_resources]) live in an explicit [World]; every method is a
    computation in a state-and-exception monad over that world.

    Floating point values (expected training times, polynomial coefficients)
    are kept abstract: the development is parametric in a type [T] with the
    operations the source uses on it.  Step counts are integers.  Memory
    readings are whole numbers of megabytes in the monadic model; the binary64
    arithmetic of the capacity estimate is embedded on its own as
    [estimate_capacity], and [estimate_capacity_whole] shows that the integer
    quotient of the monadic model is what that arithmetic returns on whole
    readings below 2^53. *)

From Stdlib Require Import ZArith QArith Qround Lia Permutation Sorted.
From Stdlib Require Import Floats.SpecFloat.
From stdpp Require Import gmap strings list fin_maps.


(** ** Python built-ins used by the source *)

Inductive exn : Type :=
| ValueError          (* min()/max() of an empty sequence, choice() oversampling *)
| IndexError          (* list index out of range, pop from empty list *)
| KeyError            (* missing dictionary key *)
| ZeroDivisionError   (* x / 0 *)
| OverflowError       (* int() of an infinity *)
| FitError.           (* Polynomial.fit rejected its samples *)

Inductive result (A : Type) : Type :=
| Ok (a : A)
| Raise (e : exn)
| Diverge.            (* the fuel of a while loop ran out *)
Arguments Ok {A} a.
Arguments Raise {A} e.
Arguments Diverge {A}.

#[global] Instance exn_eq_dec : EqDecision exn.
Proof. solve_decision. Defined.

(** Insertion-ordered dictionaries ([dict] iterated by the source). *)
Section ordered_dict.
Context {K V : Type} `{EqDecision K}.

Fixpoint dict_get (k : K) (d : list (K * V)) : option V :=
  match d with
  | [] => None
  | (k', v) :: d' => if decide (k = k') then Some v else dict_get k d'
  end.

(* d[k] = v : an existing key keeps its position, a new key goes last *)
Fixpoint dict_set (k : K) (v : V) (d : list (K * V)) : list (K * V) :=
  match d with
  | [] => [(k, v)]
  | (k', v') :: d' =>
      if decide (k = k') then (k, v) :: d' else (k', v') :: dict_set k v d'
  end.

Definition dict_keys (d : list (K * V)) : list K := d.*1.
End ordered_dict.

(** [l[:n]] and [del l[:n]], negative [n] counting from the end. *)
Definition slice_stop {A} (n : Z) (l : list A) : nat :=
  if (0 <=? n)%Z then Z.to_nat n else Z.to_nat (Z.of_nat (length l) + n).

Definition py_take {A} (n : Z) (l : list A) : list A := take (slice_stop n l) l.
Definition py_del {A} (n : Z) (l : list A) : list A := drop (slice_stop n l) l.

(** [int(num / den)] on whole numbers: true division followed by truncation
    toward zero.  Below 2^53 the binary64 quotient truncates to the same
    integer as the exact quotient ([div_canon], [estimate_capacity_whole]);
    readings with a fractional part are the business of [estimate_capacity]. *)
Definition py_int_truediv (num den : Z) : result Z :=
  if (den =? 0)%Z then Raise ZeroDivisionError else Ok (Z.quot num den).

(** [1 / n] on integers, kept as the exact ratio. *)
Definition py_truediv_1 (n : Z) : result Q :=
  if (n =? 0)%Z then Raise ZeroDivisionError else Ok (1 / inject_Z n)%Q.

(** [list.sort(key=..., reverse=True)]: stable, descending by key. *)
Section sort.
Context {A : Type} (key : A → Z).

Fixpoint insert_desc (x : A) (l : list A) : list A :=
  match l with
  | [] => [x]
  | y :: l' =>
      if (key y <=? key x)%Z then x :: y :: l' else y :: insert_desc x l'
  end.

Definition sort_reverse (l : list A) : list A := foldr insert_desc [] l.
End sort.

(** [numpy.random.choice(a, size, replace=False)]: the first [size] entries of
    a random permutation [perm] of [a]; oversampling is refused before any
    draw. *)
Definition choice {A} (a : list A) (size : nat) (perm : list A) : result (list A) :=
  if decide (size ≤ length a) then Ok (take size perm) else Raise ValueError.

(** ** Numbers *)

Class Numeric (T : Type) := {
  zero : T;                    (* 0.0 *)
  one : T;                     (* 1.0 *)
  add : T → T → T;
  ltb : T → T → bool;
  eqb : T → T → bool;
  ns_to_seconds : Z → T;       (* training_time_ns / 1e9 *)
}.

(** What the scheduler needs of the comparison: no NaN among the loads. *)
Class NumericOrder (T : Type) `{Numeric T} := {
  eqb_eq : ∀ x y : T, eqb x y = true ↔ x = y;
  ltb_irrefl : ∀ x : T, ltb x x = false;
  ltb_trans : ∀ x y z : T, ltb x y = true → ltb y z = true → ltb x z = true;
  ltb_total : ∀ x y : T, ltb x y = false → ltb y x = false → x = y;
}.

Section builtins.
Context {T : Type} `{Numeric T}.

Fixpoint min_from (m : T) (l : list T) : T :=
  match l with
  | [] => m
  | x :: l' => min_from (if ltb x m then x else m) l'
  end.

Definition py_min (l : list T) : result T :=
  match l with
  | [] => Raise ValueError
  | x :: l' => Ok (min_from x l')
  end.

Fixpoint max_from (m : T) (l : list T) : T :=
  match l with
  | [] => m
  | x :: l' => max_from (if ltb m x then x else m) l'
  end.

Definition py_max (l : list T) : result T :=
  match l with
  | [] => Raise ValueError
  | x :: l' => Ok (max_from x l')
  end.

Fixpoint py_index (v : T) (l : list T) : result nat :=
  match l with
  | [] => Raise ValueError
  | x :: l' =>
      if eqb x v then Ok 0
      else match py_index v l' with
           | Ok i => Ok (S i)
           | r => r
           end
  end.
End builtins.

(** The integers as a model of the numbers, for running the code. *)
#[global] Instance Z_numeric : Numeric Z := {|
  zero := 0%Z; one := 1%Z; add := Z.add; ltb := Z.ltb; eqb := Z.eqb;
  ns_to_seconds := λ ns, Z.quot ns 1000000000;
|}.

#[global] Instance Z_numeric_order : NumericOrder Z.
Proof.
  split; simpl.
  - intros x y. apply Z.eqb_eq.
  - intros x. apply Z.ltb_irrefl.
  - intros x y z ?%Z.ltb_lt ?%Z.ltb_lt. apply Z.ltb_lt. lia.
  - intros x y ?%Z.ltb_ge ?%Z.ltb_ge. lia.
Defined.

(** [numpy.polynomial.polynomial.Polynomial]: construction from coefficients,
    evaluation, and the least-squares [fit]. *)
Class PolyLib (T Poly : Type) := {
  Polynomial : list T → Poly;
  poly_call : Poly → Z → T;
  poly_fit : list Z → list T → nat → result Poly;
}.

Fixpoint horner (coef : list Z) (x : Z) : Z :=
  match coef with
  | [] => 0
  | c :: coef' => c + x * horner coef' x
  end%Z.

(** Integer polynomials for running the code; the fit is a stand-in that
    keeps the first [deg + 1] observations as coefficients. *)
#[global] Instance Z_polylib : PolyLib Z (list Z) := {|
  Polynomial := λ coef, coef;
  poly_call := horner;
  poly_fit := λ x y deg,
    match x with
    | [] => Raise FitError
    | _ => Ok (take (S deg) (y ++ replicate (S deg) 0%Z))
    end;
|}.

(** ** Data model *)

Definition MAX_POLY_DEG : Z := 15.

(* range(5, 31, 5) *)
Definition warm_up_pool : list Z := [5; 10; 15; 20; 25; 30]%Z.

(* (node_id, gpu_uuid) *)
Abbreviation Device := (string * string)%type.

Record SimpleGPU := {
  uuid : string;
  gpu_id : Z;
  total_mem_mb : Z;
}.

Inductive Scalar (T : Type) : Type :=
| SBool (b : bool)
| SBytes (b : list Byte.byte)
| SFloat (x : T)
| SInt (z : Z)
| SStr (s : string).
Arguments SBool {T} b.
Arguments SBytes {T} b.
Arguments SFloat {T} x.
Arguments SInt {T} z.
Arguments SStr {T} s.

(* client.resources: the two keys the strategy writes *)
Record Resources := {
  scheduling_strategy : option string;   (* NodeAffinitySchedulingStrategy(node_id, soft=False) *)
  num_gpu : option Q;
}.

Definition no_resources : Resources :=
  {| scheduling_strategy := None; num_gpu := None |}.

Record FitIns (T Parameters : Type) := {
  fit_parameters : Parameters;
  fit_config : gmap string (Scalar T);
}.
Arguments fit_parameters {T Parameters} f.
Arguments fit_config {T Parameters} f.

(* the only metric of a FitRes the strategy reads *)
Record FitRes (TaskId : Type) := {
  task_id : option TaskId;    (* metrics["_flwr.monitoring.task_id"] *)
}.
Arguments task_id {TaskId} f.

Record Metrics (TaskId : Type) := {
  max_this_proc_mem_used_mb : list (TaskId * list (string * Z));
  max_all_proc_mem_used_mb : list (string * Z);
  training_times_ns : list (TaskId * Z);
}.
Arguments max_this_proc_mem_used_mb {TaskId} m.
Arguments max_all_proc_mem_used_mb {TaskId} m.
Arguments training_times_ns {TaskId} m.

Inductive NodeResource (SimpleCPU : Type) : Type :=
| IsGPU (g : SimpleGPU)
| IsCPU (c : SimpleCPU)
| IsOther.
Arguments IsGPU {SimpleCPU} g.
Arguments IsCPU {SimpleCPU} c.
Arguments IsOther {SimpleCPU}.

(* a RaySystemMonitor actor that is ALIVE *)
Record Monitor (SimpleCPU TaskId : Type) := {
  name : string;
  get_resources : list (string * NodeResource SimpleCPU);
  aggregate_statistics : list TaskId → Metrics TaskId;
}.
Arguments name {SimpleCPU TaskId} m.
Arguments get_resources {SimpleCPU TaskId} m.
Arguments aggregate_statistics {SimpleCPU TaskId} m.

Record ClientManager := {
  num_available : nat;
  sample : nat → nat → list string;    (* the cids of the sampled proxies *)
}.

Inductive Print (T : Type) : Type :=
| PrintExpected (t : T)
| PrintMaxClients (node_id gpu_uuid : string) (n : Z)
| PrintConfigFit (server_round : Z)
| PrintAggregateFit (server_round : Z).
Arguments PrintExpected {T} t.
Arguments PrintMaxClients {T} node_id gpu_uuid n.
Arguments PrintConfigFit {T} server_round.
Arguments PrintAggregateFit {T} server_round.

Record Strategy (T Poly SimpleCPU : Type) := {
  on_fit_config_fn : option (Z → gmap string (Scalar T));
  num_fit_clients : nat → nat * nat;
  current_round : Z;
  warm_up_steps : list Z;
  client_configs_map : gmap string (string * string * Z);
  profiles : gmap string (gmap string Z);
  resource_poly_degree : nat;
  cpu_resources : gmap string SimpleCPU;
  gpu_resources : gmap string (gmap string SimpleGPU);
  resources_model : list (Device * (Poly * Z));
}.
Arguments on_fit_config_fn {T Poly SimpleCPU} s.
Arguments num_fit_clients {T Poly SimpleCPU} s.
Arguments current_round {T Poly SimpleCPU} s.
Arguments warm_up_steps {T Poly SimpleCPU} s.
Arguments client_configs_map {T Poly SimpleCPU} s.
Arguments profiles {T Poly SimpleCPU} s.
Arguments resource_poly_degree {T Poly SimpleCPU} s.
Arguments cpu_resources {T Poly SimpleCPU} s.
Arguments gpu_resources {T Poly SimpleCPU} s.
Arguments resources_model {T Poly SimpleCPU} s.

(** The mutable objects: the strategy instance, the [resources] of every
    client proxy (by cid), the list objects passed by reference, and what was
    printed. *)
Record World (T Poly SimpleCPU : Type) := {
  self : Strategy T Poly SimpleCPU;
  clients : gmap string Resources;
  heap : list (list (string * Z));
  stdout : list (Print T);
}.
Arguments self {T Poly SimpleCPU} w.
Arguments clients {T Poly SimpleCPU} w.
Arguments heap {T Poly SimpleCPU} w.
Arguments stdout {T Poly SimpleCPU} w.

(** ** The state-and-exception monad *)

Section monad.
Context {W : Type}.

Definition M (A : Type) : Type := W → result A * W.

Definition ret {A} (a : A) : M A := λ w, (Ok a, w).

Definition bind {A B} (m : M A) (k : A → M B) : M B :=
  λ w, match m w with
       | (Ok a, w') => k a w'
       | (Raise e, w') => (Raise e, w')
       | (Diverge, w') => (Diverge, w')
       end.

Definition raise {A} (e : exn) : M A := λ w, (Raise e, w).
Definition diverge {A} : M A := λ w, (Diverge, w).
(* reading a field of the world; a read that may raise (d[k], l[i]) *)
Definition read {A} (f : W → A) : M A := λ w, (Ok (f w), w).
Definition read_or {A} (e : exn) (f : W → option A) : M A :=
  λ w, match f w with Some a => (Ok a, w) | None => (Raise e, w) end.
Definition modify (f : W → W) : M unit := λ w, (Ok tt, f w).

(* a built-in that may raise *)
Definition lift {A} (r : result A) : M A := λ w, (r, w).

(* d[k] on a dictionary: KeyError when absent; l[i]: IndexError *)
Definition lookup_or {A} (e : exn) (o : option A) : M A :=
  match o with Some a => ret a | None => raise e end.

Fixpoint foldM {A B} (f : B → A → M B) (b : B) (l : list A) : M B :=
  match l with
  | [] => ret b
  | x :: l' => bind (f b x) (λ b', foldM f b' l')
  end.

Definition for_ {A} (l : list A) (f : A → M unit) : M unit :=
  foldM (λ _ x, f x) tt l.

(** [inv I m]: whatever [m] returns or raises, it keeps [I]. *)
Definition inv (I : W → Prop) {A} (m : M A) : Prop :=
  ∀ w r w', I w → m w = (r, w') → I w'.
End monad.

Notation "x <- c ;; k" := (bind c (λ x, k))
  (at level 62, c at next level, right associativity, only parsing).
Notation "'do' c ;; k" := (bind c (λ _, k))
  (at level 62, c at next level, right associativity, only parsing).

(** ** The strategy *)

Section strategy.
Context {T Poly SimpleCPU TaskId Parameters Failures Aggregate : Type}.
Context `{Numeric T} `{PolyLib T Poly} `{EqDecision TaskId}.
(* super().aggregate_fit: the weighted average of FedAvg *)
Context (FedAvg_aggregate_fit :
  Z → list (string * FitRes TaskId) → Failures → Aggregate).

Abbreviation strategy := (Strategy T Poly SimpleCPU).
Abbreviation world := (World T Poly SimpleCPU).
Abbreviation config_t := (gmap string (Scalar T)).
Abbreviation fit_list := (list (string * FitIns T Parameters)).
Abbreviation monitor := (Monitor SimpleCPU TaskId).

(** *** Field updates *)

Definition with_self (f : strategy → strategy) (w : world) : world :=
  {| self := f (self w); clients := clients w; heap := heap w; stdout := stdout w |}.

Definition with_clients (f : gmap string Resources → gmap string Resources)
    (w : world) : world :=
  {| self := self w; clients := f (clients w); heap := heap w; stdout := stdout w |}.

Definition with_heap (f : list (list (string * Z)) → list (list (string * Z)))
    (w : world) : world :=
  {| self := self w; clients := clients w; heap := f (heap w); stdout := stdout w |}.

Definition print (p : Print T) (w : world) : world :=
  {| self := self w; clients := clients w; heap := heap w; stdout := stdout w ++ [p] |}.

Definition set_client_configs_map
    (f : gmap string (string * string * Z) → gmap string (string * string * Z))
    (s : strategy) : strategy :=
  {| on_fit_config_fn := on_fit_config_fn s; num_fit_clients := num_fit_clients s;
     current_round := current_round s; warm_up_steps := warm_up_steps s;
     client_configs_map := f (client_configs_map s); profiles := profiles s;
     resource_poly_degree := resource_poly_degree s;
     cpu_resources := cpu_resources s; gpu_resources := gpu_resources s;
     resources_model := resources_model s |}.

Definition set_cpu_resources
    (f : gmap string SimpleCPU → gmap string SimpleCPU) (s : strategy) : strategy :=
  {| on_fit_config_fn := on_fit_config_fn s; num_fit_clients := num_fit_clients s;
     current_round := current_round s; warm_up_steps := warm_up_steps s;
     client_configs_map := client_configs_map s; profiles := profiles s;
     resource_poly_degree := resource_poly_degree s;
     cpu_resources := f (cpu_resources s); gpu_resources := gpu_resources s;
     resources_model := resources_model s |}.

Definition set_gpu_resources
    (f : gmap string (gmap string SimpleGPU) → gmap string (gmap string SimpleGPU))
    (s : strategy) : strategy :=
  {| on_fit_config_fn := on_fit_config_fn s; num_fit_clients := num_fit_clients s;
     current_round := current_round s; warm_up_steps := warm_up_steps s;
     client_configs_map := client_configs_map s; profiles := profiles s;
     resource_poly_degree := resource_poly_degree s;
     cpu_resources := cpu_resources s; gpu_resources := f (gpu_resources s);
     resources_model := resources_model s |}.

Definition set_resources_model
    (f : list (Device * (Poly * Z)) → list (Device * (Poly * Z)))
    (s : strategy) : strategy :=
  {| on_fit_config_fn := on_fit_config_fn s; num_fit_clients := num_fit_clients s;
     current_round := current_round s; warm_up_steps := warm_up_steps s;
     client_configs_map := client_configs_map s; profiles := profiles s;
     resource_poly_degree := resource_poly_degree s;
     cpu_resources := cpu_resources s; gpu_resources := gpu_resources s;
     resources_model := f (resources_model s) |}.

(* client.resources[key] = value, on the proxy with this cid *)
Definition set_scheduling_strategy (cid node_id : string)
    (c : gmap string Resources) : gmap string Resources :=
  <[cid := {| scheduling_strategy := Some node_id;
              num_gpu := num_gpu (default no_resources (c !! cid)) |}]> c.

Definition set_num_gpu (cid : string) (share : Q)
    (c : gmap string Resources) : gmap string Resources :=
  <[cid := {| scheduling_strategy :=
                scheduling_strategy (default no_resources (c !! cid));
              num_gpu := Some share |}]> c.

(* self.gpu_resources[node_id][gpu_uuid] *)
Definition gpu_lookup (node_id gpu_uuid : string) (s : strategy) : option SimpleGPU :=
  gpu_resources s !! node_id ≫= (λ gpus, gpus !! gpu_uuid).

(* list objects *)
Definition deref (l : nat) (w : world) : list (string * Z) :=
  default [] (heap w !! l).

Definition alloc (v : list (string * Z)) : M nat :=
  λ w : world, (Ok (length (heap w)), with_heap (λ h, h ++ [v]) w).

(* list.pop() *)
Definition pop {A} (l : list A) : result (A * list A) :=
  match last l with
  | None => Raise IndexError
  | Some x => Ok (x, take (length l - 1) l)
  end.

(** *** __init__ *)

Definition init (on_fit : option (Z → config_t)) (nfc : nat → nat * nat)
    (profs : gmap string (gmap string Z)) (degree : nat) (perm : list Z)
    : result strategy :=
  match choice warm_up_pool (degree + 1) perm with
  | Ok steps =>
      Ok {| on_fit_config_fn := on_fit; num_fit_clients := nfc;
            current_round := 0; warm_up_steps := steps;
            client_configs_map := ∅; profiles := profs;
            resource_poly_degree := degree;
            cpu_resources := ∅; gpu_resources := ∅; resources_model := [] |}
  | Raise e => Raise e
  | Diverge => Diverge
  end.

(** *** create_model, request_available_resources *)

Definition create_model (node_id gpu_uuid : string) : M unit :=
  degree <- read (W := world) (λ w, resource_poly_degree (self w));;
  coefficients <-
    match replicate (degree + 1) zero with
    | [] => raise IndexError
    | _ :: rest => ret (one :: rest)          (* coefficients[0] = 1.0 *)
    end;;
  modify (with_self (set_resources_model
    (dict_set (node_id, gpu_uuid) (Polynomial coefficients, 1%Z)))).

Definition request_available_resources (monitors : list monitor) : M unit :=
  for_ monitors (λ actor,
    let node_id := name actor in
    do modify (W := world) (with_self (set_gpu_resources (<[node_id := ∅]>)));;
    for_ (get_resources actor) (λ '(k, v),
      match v with
      | IsGPU g =>
          gpus <- read_or (W := world) KeyError (λ w, gpu_resources (self w) !! node_id);;
          do modify (with_self (set_gpu_resources (<[node_id := <[k := g]> gpus]>)));;
          create_model node_id (uuid g)
      | IsCPU c =>
          modify (with_self (set_cpu_resources (<[node_id := c]>)))
      | IsOther => ret tt
      end)).

(** *** associate_resources *)

(* the body of [for client, num_steps in these_clients] *)
Definition associate_client (parameters : Parameters) (this_config : config_t)
    (node_id gpu_uuid : string) (actual_num_clients : Z)
    (client_fit_list : fit_list) (cw : string * Z) : M fit_list :=
  let '(client, num_steps) := cw in
  do modify (W := world) (with_clients (set_scheduling_strategy client node_id));;
  share <- lift (py_truediv_1 actual_num_clients);;
  do modify (with_clients (set_num_gpu client share));;
  do modify (with_self (set_client_configs_map
       (<[client := (node_id, gpu_uuid, num_steps)]>)));;
  ret (client_fit_list ++
       [(client, {| fit_parameters := parameters; fit_config := this_config |})]).

(* one iteration of [while clients_with_weights] *)
Definition associate_step (parameters : Parameters) (config : config_t) (l : nat)
    (node_gpu_mapping : list Device) (st : list T * fit_list)
    : M (list T * fit_list) :=
  let '(expected_training_times, client_fit_list) := st in
  m <- lift (py_min expected_training_times);;
  idx <- lift (py_index m expected_training_times);;
  dev <- lookup_or IndexError (node_gpu_mapping !! idx);;
  let '(node_id, gpu_uuid) := dev in
  gpu <- read_or (W := world) KeyError (λ w, gpu_lookup node_id gpu_uuid (self w));;
  let this_config := <["gpu_id" := SInt (gpu_id gpu)]> config in
  model <- read_or (W := world) KeyError
             (λ w, dict_get (node_id, gpu_uuid) (resources_model (self w)));;
  let '(model_poly, max_num_clients) := model in
  clients_with_weights <- read (deref l);;
  let actual_num_clients :=
    Z.min max_num_clients (Z.of_nat (length clients_with_weights)) in
  let these_clients := py_take actual_num_clients clients_with_weights in
  first <- lookup_or IndexError (head these_clients);;
  let multi_client_per_gpu_expected_time := poly_call model_poly first.2 in
  current <- lookup_or IndexError (expected_training_times !! idx);;
  let expected_training_times' :=
    <[idx := add current multi_client_per_gpu_expected_time]> expected_training_times in
  client_fit_list' <-
    foldM (associate_client parameters this_config node_id gpu_uuid actual_num_clients)
          client_fit_list these_clients;;
  do modify (with_heap (<[l := py_del actual_num_clients clients_with_weights]>));;
  ret (expected_training_times', client_fit_list').

Fixpoint associate_loop (fuel : nat) (parameters : Parameters) (config : config_t)
    (l : nat) (node_gpu_mapping : list Device) (st : list T * fit_list)
    : M (list T * fit_list) :=
  clients_with_weights <- read (W := world) (deref l);;
  match clients_with_weights with
  | [] => ret st
  | _ :: _ =>
      match fuel with
      | O => diverge
      | S fuel' =>
          st' <- associate_step parameters config l node_gpu_mapping st;;
          associate_loop fuel' parameters config l node_gpu_mapping st'
      end
  end.

(** [clients_with_weights] is the list object at [l]: it is sorted and
    consumed in place. *)
Definition associate_resources (parameters : Parameters) (config : config_t)
    (l : nat) : M fit_list :=
  clients_with_weights <- read (W := world) (deref l);;
  do modify (with_heap (<[l := sort_reverse snd clients_with_weights]>));;
  models <- read (W := world) (λ w, resources_model (self w));;
  let expected_training_times := replicate (length models) zero in
  let node_gpu_mapping := dict_keys models in
  st <- associate_loop (length clients_with_weights) parameters config l
          node_gpu_mapping (expected_training_times, []);;
  m <- lift (py_max st.1);;
  do modify (print (PrintExpected m));;
  ret st.2.

(** *** configure_fit *)

Definition probe_config (config : config_t) (gpu : SimpleGPU) (num_local_steps : Z)
    : config_t :=
  <["local_steps" := SInt num_local_steps]>
    (<["gpu_id" := SInt (gpu_id gpu)]> (<["epochs" := SInt 1%Z]> config)).

(* round 1: one client per GPU, 20 local steps *)
Definition discover_device (parameters : Parameters) (config : config_t)
    (st : list string * fit_list) (dev : Device) : M (list string * fit_list) :=
  let '(clients, client_fit_list) := st in
  let '(node_id, gpu_uuid) := dev in
  gpu <- read_or (W := world) KeyError (λ w, gpu_lookup node_id gpu_uuid (self w));;
  popped <- lift (pop clients);;
  let '(client, clients') := popped in
  let num_local_steps := 20%Z in
  let this_config := probe_config config gpu num_local_steps in
  do modify (with_clients (set_scheduling_strategy client node_id));;
  do modify (with_self (set_client_configs_map
       (<[client := (node_id, gpu_uuid, num_local_steps)]>)));;
  ret (clients', client_fit_list ++
       [(client, {| fit_parameters := parameters; fit_config := this_config |})]).

(* round 2: the body of [for num_local_steps in self.warm_up_steps] *)
Definition calibrate_step (parameters : Parameters) (config : config_t)
    (node_id gpu_uuid : string) (gpu : SimpleGPU)
    (st : list string * fit_list) (num_local_steps : Z)
    : M (list string * fit_list) :=
  let '(clients, client_fit_list) := st in
  popped <- lift (pop clients);;
  let '(client, clients') := popped in
  do modify (W := world) (with_clients (set_scheduling_strategy client node_id));;
  let this_config := probe_config config gpu num_local_steps in
  do modify (with_self (set_client_configs_map
       (<[client := (node_id, gpu_uuid, num_local_steps)]>)));;
  ret (clients', client_fit_list ++
       [(client, {| fit_parameters := parameters; fit_config := this_config |})]).

Definition calibrate_device (parameters : Parameters) (config : config_t)
    (st : list string * fit_list) (dev : Device) : M (list string * fit_list) :=
  let '(node_id, gpu_uuid) := dev in
  gpu <- read_or (W := world) KeyError (λ w, gpu_lookup node_id gpu_uuid (self w));;
  warm_up <- read (W := world) (λ w, warm_up_steps (self w));;
  foldM (calibrate_step parameters config node_id gpu_uuid gpu) st warm_up.

Definition configure_fit (server_round : Z) (parameters : Parameters)
    (client_manager : ClientManager) (monitors : list monitor) : M fit_list :=
  on_fit <- read (W := world) (λ w, on_fit_config_fn (self w));;
  let config :=
    match on_fit with
    | Some f => f server_round
    | None => ∅
    end in
  if (server_round =? 1)%Z then
    do request_available_resources monitors;;
    models <- read (W := world) (λ w, resources_model (self w));;
    let n := length models in
    let clients := sample client_manager n n in
    st <- foldM (discover_device parameters config) (clients, []) (dict_keys models);;
    ret st.2
  else if (server_round =? 2)%Z then
    degree <- read (W := world) (λ w, resource_poly_degree (self w));;
    models <- read (W := world) (λ w, resources_model (self w));;
    let n := ((degree + 1) * length models)%nat in
    let clients := sample client_manager n n in
    st <- foldM (calibrate_device parameters config) (clients, []) (dict_keys models);;
    ret st.2
  else
    do modify (print (PrintConfigFit server_round));;
    nfc <- read (W := world) (λ w, num_fit_clients (self w));;
    let '(sample_size, min_num_clients) := nfc (num_available client_manager) in
    let clients := sample client_manager sample_size min_num_clients in
    clients_with_weights <-
      foldM (λ acc client,
               weight <- read_or (W := world) KeyError
                 (λ w, profiles (self w) !! "train" ≫= (λ p, p !! client));;
               ret (acc ++ [(client, weight)]))
            [] clients;;
    l <- alloc clients_with_weights;;
    associate_resources parameters config l.

(** *** aggregate_fit *)

(* {task_id: cid} over the results of the round *)
Definition tasks_to_cid (results : list (string * FitRes TaskId))
    : M (list (TaskId * string)) :=
  foldM (W := world)
        (λ acc r,
           let '(client, fit_res) := r in
           this_task_id <- lookup_or KeyError (task_id fit_res);;
           ret (dict_set this_task_id client acc))
        [] results.

(* round 1: the body of [for (gpu_uuid, max_mem_used_this_gpu) in gpu_mem_dict.items()] *)
Definition refine_capacity (node_id : string) (max_all_proc_mem_used_mb : list (string * Z))
    (entry : string * Z) : M unit :=
  let '(gpu_uuid, max_mem_used_this_gpu) := entry in
  gpu <- read_or (W := world) KeyError (λ w, gpu_lookup node_id gpu_uuid (self w));;
  let total_mem_this_gpu := total_mem_mb gpu in
  max_all_proc_mem <- lookup_or KeyError (dict_get gpu_uuid max_all_proc_mem_used_mb);;
  max_num_clients_this_gpu <-
    lift (py_int_truediv
            (total_mem_this_gpu - max_all_proc_mem + max_mem_used_this_gpu)
            max_mem_used_this_gpu);;
  model <- read_or (W := world) KeyError
             (λ w, dict_get (node_id, gpu_uuid) (resources_model (self w)));;
  let '(poly_model, t) := model in
  do modify (with_self (set_resources_model
       (dict_set (node_id, gpu_uuid) (poly_model, max_num_clients_this_gpu))));;
  modify (print (PrintMaxClients node_id gpu_uuid max_num_clients_this_gpu)).

Definition aggregate_round1 (task_ids : list TaskId) (actor : monitor) : M unit :=
  let node_id := name actor in
  let this_monitor_metrics := aggregate_statistics actor task_ids in
  for_ (max_this_proc_mem_used_mb this_monitor_metrics) (λ task,
    for_ task.2
      (refine_capacity node_id (max_all_proc_mem_used_mb this_monitor_metrics))).

(* defaultdict(list) *)
Definition dd_get {X} (k : Device) (d : list (Device * list X)) : list X :=
  default [] (dict_get k d).

Definition dd_append {X} (k : Device) (x : X) (d : list (Device * list X))
    : list (Device * list X) :=
  dict_set k (dd_get k d ++ [x]) d.

(* round 2: collect the (num_steps, seconds) samples of one monitor *)
Definition collect_sample (task_to_cid : list (TaskId * string))
    (xy : list (Device * list Z) * list (Device * list T))
    (entry : TaskId * Z)
    : M (list (Device * list Z) * list (Device * list T)) :=
  let '(resource_model_x, resource_model_y) := xy in
  let '(task, training_time_ns) := entry in
  cid <- lookup_or KeyError (dict_get task task_to_cid);;
  rec <- read_or (W := world) KeyError (λ w, client_configs_map (self w) !! cid);;
  let '(node_id, gpu_uuid, num_steps) := rec in
  ret (dd_append (node_id, gpu_uuid) num_steps resource_model_x,
       dd_append (node_id, gpu_uuid) (ns_to_seconds training_time_ns) resource_model_y).

(* round 2: the body of [for k, v in self.resources_model.items()] *)
Definition refit_model (resource_model_x : list (Device * list Z))
    (resource_model_y : list (Device * list T))
    (item : Device * (Poly * Z)) : M unit :=
  let '(k, (m, max_num_clients)) := item in
  degree <- read (W := world) (λ w, resource_poly_degree (self w));;
  m' <- lift (poly_fit (dd_get k resource_model_x) (dd_get k resource_model_y) degree);;
  modify (with_self (set_resources_model (dict_set k (m', max_num_clients)))).

Definition aggregate_round2 (task_to_cid : list (TaskId * string)) (actor : monitor)
    : M unit :=
  let this_monitor_metrics := aggregate_statistics actor (dict_keys task_to_cid) in
  xy <- foldM (collect_sample task_to_cid) ([], [])
              (training_times_ns this_monitor_metrics);;
  items <- read (W := world) (λ w, resources_model (self w));;
  for_ items (refit_model xy.1 xy.2).

Definition aggregate_fit (server_round : Z) (results : list (string * FitRes TaskId))
    (failures : Failures) (monitors : list monitor) : M Aggregate :=
  round_tasks_to_cid <- tasks_to_cid results;;
  do (if (server_round =? 1)%Z then
        for_ monitors (aggregate_round1 (dict_keys round_tasks_to_cid))
      else if (server_round =? 2)%Z then
        do modify (W := world) (print (PrintAggregateFit server_round));;
        task_to_cid <- tasks_to_cid results;;
        for_ monitors (aggregate_round2 task_to_cid)
      else ret tt);;
  ret (FedAvg_aggregate_fit server_round results failures).

End strategy.

(** ** Views of the model map *)



(* a property of the model map, the calibration sizes and the inventory *)
Definition on_fixed {T Poly SimpleCPU}
    (J : list (Device * (Poly * Z)) → list Z → gmap string (gmap string SimpleGPU) → Prop)
    (w : World T Poly SimpleCPU) : Prop :=
  J (resources_model (self w)) (warm_up_steps (self w)) (gpu_resources (self w)).

(* the invariant [capacity >= 1] *)
Definition capacity_ok {Poly} (d : list (Device * (Poly * Z))) : Prop :=
  Forall (λ e, (1 ≤ e.2.2)%Z) d.

(** ** The operations of a round, and well-behaved memory samples *)

Inductive Op (SimpleCPU TaskId Parameters Failures : Type) : Type :=
| OpConfigure (server_round : Z) (parameters : Parameters)
    (client_manager : ClientManager) (monitors : list (Monitor SimpleCPU TaskId))
| OpAggregate (server_round : Z) (results : list (string * FitRes TaskId))
    (failures : Failures) (monitors : list (Monitor SimpleCPU TaskId)).
Arguments OpConfigure {SimpleCPU TaskId Parameters Failures}.
Arguments OpAggregate {SimpleCPU TaskId Parameters Failures}.

Definition run_op {T Poly SimpleCPU TaskId Parameters Failures Aggregate : Type}
    `{Numeric T} `{PolyLib T Poly} `{EqDecision TaskId}
    (FedAvg_aggregate_fit : Z → list (string * FitRes TaskId) → Failures → Aggregate)
    (op : Op SimpleCPU TaskId Parameters Failures)
    : M (W := World T Poly SimpleCPU) unit :=
  match op with
  | OpConfigure server_round parameters client_manager monitors =>
      bind (configure_fit server_round parameters client_manager monitors)
           (λ _, ret tt)
  | OpAggregate server_round results failures monitors =>
      bind (aggregate_fit FedAvg_aggregate_fit server_round results failures monitors)
           (λ _, ret tt)
  end.

(* every memory sample is positive and the peak over all processes of a
   device does not exceed its total memory *)
Definition samples_fit {SimpleCPU TaskId : Type}
    (gpus : gmap string (gmap string SimpleGPU))
    (monitors : list (Monitor SimpleCPU TaskId)) : Prop :=
  ∀ actor ids task gpu_uuid mem,
    actor ∈ monitors →
    task ∈ max_this_proc_mem_used_mb (aggregate_statistics actor ids) →
    (gpu_uuid, mem) ∈ task.2 →
    (0 < mem)%Z ∧
    ∀ gpu a,
      (gpus !! name actor ≫= λ g, g !! gpu_uuid) = Some gpu →
      dict_get gpu_uuid
        (max_all_proc_mem_used_mb (aggregate_statistics actor ids)) = Some a →
      (a ≤ total_mem_mb gpu)%Z.

Definition op_samples_fit {SimpleCPU TaskId Parameters Failures : Type}
    (gpus : gmap string (gmap string SimpleGPU))
    (op : Op SimpleCPU TaskId Parameters Failures) : Prop :=
  match op with
  | OpAggregate server_round _ _ monitors =>
      if (server_round =? 1)%Z then samples_fit gpus monitors else True
  | OpConfigure _ _ _ _ => True
  end.

(* every memory sample names a device of the inventory that has a model and
   an all-process reading *)
Definition samples_known {SimpleCPU TaskId : Type}
    (gpus : gmap string (gmap string SimpleGPU))
    (devices : list Device)
    (monitors : list (Monitor SimpleCPU TaskId)) : Prop :=
  ∀ actor ids task gpu_uuid mem,
    actor ∈ monitors →
    task ∈ max_this_proc_mem_used_mb (aggregate_statistics actor ids) →
    (gpu_uuid, mem) ∈ task.2 →
    is_Some (gpus !! name actor ≫= λ g, g !! gpu_uuid) ∧
    is_Some (dict_get gpu_uuid
               (max_all_proc_mem_used_mb (aggregate_statistics actor ids))) ∧
    (name actor, gpu_uuid) ∈ devices.

(** ** A one-GPU cluster, for running the code *)

Definition ex_gpu : SimpleGPU :=
  {| uuid := "GPU-0"; gpu_id := 0; total_mem_mb := 1000 |}.

(* a monitor on node-a reporting one task on GPU-0 *)
Definition ex_monitor (this_task all_procs : Z) (times : list (nat * Z))
    : Monitor unit nat :=
  {| name := "node-a";
     get_resources := [("GPU-0", IsGPU ex_gpu); ("cpu", IsCPU tt)];
     aggregate_statistics := λ _,
       {| max_this_proc_mem_used_mb := [(0%nat, [("GPU-0", this_task)])];
          max_all_proc_mem_used_mb := [("GPU-0", all_procs)];
          training_times_ns := times |} |}.

Definition ex_profiles : gmap string (gmap string Z) :=
  {[ "train" := {[ "c1" := 30%Z; "c2" := 20%Z; "c3" := 10%Z ]} ]}.

Definition ex_client_manager : ClientManager :=
  {| num_available := 3; sample := λ n _, take n ["c1"; "c2"; "c3"] |}.

(* what __init__ builds for degree 1 when the permutation drawn starts 10, 30 *)
Definition ex_strategy : Strategy Z (list Z) unit :=
  {| on_fit_config_fn := None; num_fit_clients := λ n, (n, n);
     current_round := 0; warm_up_steps := [10; 30]%Z;
     client_configs_map := ∅; profiles := ex_profiles;
     resource_poly_degree := 1;
     cpu_resources := ∅; gpu_resources := ∅; resources_model := [] |}.

Definition ex_world0 : World Z (list Z) unit :=
  {| self := ex_strategy; clients := ∅; heap := []; stdout := [] |}.

Definition ex_aggregate (server_round : Z) (results : list (string * FitRes nat))
    (failures : unit) : unit := tt.

(* the world once round 1 has been configured *)
Definition ex_world1 : World Z (list Z) unit :=
  (configure_fit (TaskId := nat) 1 tt ex_client_manager [ex_monitor 200 400 []]
     ex_world0).2.

Definition ex_results : list (string * FitRes nat) :=
  [("c1", {| task_id := Some 0%nat |})].

(** ** What a scheduling pass writes *)

Section effects.
Context {T Poly SimpleCPU : Type}.

(* the writes of [associate_resources] outside the list it consumes *)
Inductive update : Type :=
| USched (cid node_id : string)            (* client.resources["scheduling_strategy"] *)
| UGpu (cid : string) (share : Q)          (* client.resources["num_gpu"] *)
| UConf (cid : string) (rec : string * string * Z)   (* self.client_configs_map[cid] *)
| UPrint (p : Print T).

Definition apply_update (w : World T Poly SimpleCPU) (u : update)
    : World T Poly SimpleCPU :=
  match u with
  | USched cid node_id => with_clients (set_scheduling_strategy cid node_id) w
  | UGpu cid share => with_clients (set_num_gpu cid share) w
  | UConf cid rec => with_self (set_client_configs_map (<[cid := rec]>)) w
  | UPrint p => print p w
  end.

Definition apply_updates (us : list update) (w : World T Poly SimpleCPU)
    : World T Poly SimpleCPU :=
  foldl apply_update w us.

(* a world given by the parts a pass reads ([s], the heap) and the parts it
   only writes *)
Definition variant (s : Strategy T Poly SimpleCPU)
    (cm : gmap string (string * string * Z)) (c : gmap string Resources)
    (h : list (list (string * Z))) (o : list (Print T)) : World T Poly SimpleCPU :=
  {| self := set_client_configs_map (λ _, cm) s; clients := c; heap := h; stdout := o |}.

(** [runs s v m r us v']: from any world whose strategy reads as [s] and whose
    list object holds [v], the computation [m l] on that list object returns
    [r], performs the writes [us] and leaves [v'] in the list object. *)
Definition runs (s : Strategy T Poly SimpleCPU) (v : list (string * Z)) {A}
    (m : nat → M (W := World T Poly SimpleCPU) A)
    (r : result A) (us : list update) (v' : list (string * Z)) : Prop :=
  ∀ cm c h o l, l < length h →
    m l (variant s cm c (<[l := v]> h) o)
    = (r, apply_updates us (variant s cm c (<[l := v']> h) o)).

Definition tracked (s : Strategy T Poly SimpleCPU) (v : list (string * Z)) {A}
    (m : nat → M (W := World T Poly SimpleCPU) A) : Prop :=
  ∃ r us v', runs s v m r us v'.

(* [tracked] with a postcondition on the result and the final list *)
Definition tracked_with (s : Strategy T Poly SimpleCPU) (v : list (string * Z)) {A}
    (m : nat → M (W := World T Poly SimpleCPU) A)
    (Q : result A → list (string * Z) → Prop) : Prop :=
  ∃ r us v', runs s v m r us v' ∧ Q r v'.

(* the variable an update assigns *)
Inductive slot : Type :=
| SlotSched (cid : string)
| SlotGpu (cid : string)
| SlotConf (cid : string)
| SlotPrint.

#[global] Instance slot_eq_dec : EqDecision slot.
Proof. solve_decision. Defined.

Definition slot_of (u : update) : slot :=
  match u with
  | USched cid _ => SlotSched cid
  | UGpu cid _ => SlotGpu cid
  | UConf cid _ => SlotConf cid
  | UPrint _ => SlotPrint
  end.

Definition silent (u : update) : Prop :=
  match u with UPrint _ => False | _ => True end.
End effects.
Arguments update : clear implicits.

(** ** The scheduling pass, in the words of its specification *)

Section scheduler_spec.
Context {T Poly SimpleCPU : Type} `{Numeric T} `{PolyLib T Poly}.

(* step 1: by weight descending, ties keeping their original order *)
Definition sorted_by_weight (units sorted : list (string * Z)) : Prop :=
  Permutation units sorted ∧
  StronglySorted (λ a b, (b.2 ≤ a.2)%Z) sorted ∧
  ∀ k : Z, filter (λ u, u.2 = k) sorted = filter (λ u, u.2 = k) units.

(* step 3a: the minimum load; on a tie, the first device *)
Definition min_load_device (loads : list T) (i : nat) : Prop :=
  ∃ v, loads !! i = Some v ∧
       (∀ j u, loads !! j = Some u → ltb u v = false) ∧
       (∀ j u, j < i → loads !! j = Some u → ltb v u = true).

(* step 3c: the largest weight in the batch *)
Definition largest_weight (batch : list (string * Z)) (wt : Z) : Prop :=
  (∃ c, (c, wt) ∈ batch) ∧ ∀ u, u ∈ batch → (u.2 ≤ wt)%Z.

Record Placement := {
  pl_cid : string;
  pl_weight : Z;
  pl_device : Device;
  pl_gpu : SimpleGPU;
  pl_share : Q;
}.

(* step 3e: a unit of a batch of [n] units on device [d] *)
Definition place (d : Device) (gpu : SimpleGPU) (n : nat) (u : string * Z) : Placement :=
  {| pl_cid := u.1; pl_weight := u.2; pl_device := d; pl_gpu := gpu;
     pl_share := Qmake 1 (Pos.of_nat n) |}.

(* steps 3 and 4 *)
Inductive greedy (s : Strategy T Poly SimpleCPU)
    : list T → list (string * Z) → list T → list Placement → Prop :=
| greedy_done loads : greedy s loads [] loads []
| greedy_batch loads remaining i d poly cap gpu batch wt current loads' out :
    remaining ≠ [] →
    min_load_device loads i →
    resources_model s !! i = Some (d, (poly, cap)) →
    gpu_lookup d.1 d.2 s = Some gpu →
    batch = take (Z.to_nat (Z.min cap (Z.of_nat (length remaining)))) remaining →
    largest_weight batch wt →
    loads !! i = Some current →
    greedy s (<[i := add current (poly_call poly wt)]> loads)
           (drop (length batch) remaining) loads' out →
    greedy s loads remaining loads' (map (place d gpu (length batch)) batch ++ out).

(* what the pass writes and returns for a placement *)
Definition updates_of (p : Placement) : list (update T) :=
  [USched (pl_cid p) (pl_device p).1;
   UGpu (pl_cid p) (pl_share p);
   UConf (pl_cid p) ((pl_device p).1, (pl_device p).2, pl_weight p)].

Definition fit_of {Parameters} (parameters : Parameters)
    (config : gmap string (Scalar T)) (p : Placement)
    : string * FitIns T Parameters :=
  (pl_cid p,
   {| fit_parameters := parameters;
      fit_config := <["gpu_id" := SInt (gpu_id (pl_gpu p))]> config |}).
End scheduler_spec.

(** ** A two-GPU cluster with fitted models, for running the scheduler *)

Definition ex_gpu_b : SimpleGPU :=
  {| uuid := "GPU-1"; gpu_id := 1; total_mem_mb := 2000 |}.

(* node-a/GPU-0 predicts w seconds and hosts 2 clients;
   node-b/GPU-1 predicts 5 + 2 w seconds and hosts 1 client *)
Definition ex_sched_strategy : Strategy Z (list Z) unit :=
  {| on_fit_config_fn := None; num_fit_clients := λ n, (n, n);
     current_round := 0; warm_up_steps := [10; 30]%Z;
     client_configs_map := ∅; profiles := ex_profiles;
     resource_poly_degree := 1;
     cpu_resources := ∅;
     gpu_resources := {[ "node-a" := {[ "GPU-0" := ex_gpu ]};
                         "node-b" := {[ "GPU-1" := ex_gpu_b ]} ]};
     resources_model := [(("node-a", "GPU-0"), ([0; 1]%Z, 2%Z));
                         (("node-b", "GPU-1"), ([5; 2]%Z, 1%Z))] |}.

Definition ex_units : list (string * Z) :=
  [("c1", 10%Z); ("c2", 30%Z); ("c3", 20%Z); ("c4", 30%Z)].

Definition ex_sched_world : World Z (list Z) unit :=
  {| self := ex_sched_strategy; clients := ∅; heap := [ex_units]; stdout := [] |}.

(* one GPU of capacity 2 that predicts w seconds, and units 30, 20, 10 *)
Definition ex_single_strategy : Strategy Z (list Z) unit :=
  {| on_fit_config_fn := None; num_fit_clients := λ n, (n, n);
     current_round := 0; warm_up_steps := [10; 30]%Z;
     client_configs_map := ∅; profiles := ex_profiles;
     resource_poly_degree := 1;
     cpu_resources := ∅;
     gpu_resources := {[ "node-a" := {[ "GPU-0" := ex_gpu ]} ]};
     resources_model := [(("node-a", "GPU-0"), ([0; 1]%Z, 2%Z))] |}.

Definition ex_single_world (units : list (string * Z)) : World Z (list Z) unit :=
  {| self := ex_single_strategy; clients := ∅; heap := [units]; stdout := [] |}.

Definition ex_three_units : list (string * Z) :=
  [("c1", 30%Z); ("c2", 20%Z); ("c3", 10%Z)].

(** ** The assignment a pass leaves behind *)

(* the resources of every client and the recorded task configurations *)
Definition assignment_of {T Poly SimpleCPU} (w : World T Poly SimpleCPU)
    : gmap string Resources * gmap string (string * string * Z) :=
  (clients w, client_configs_map (self w)).

Definition write {T} (st : gmap string Resources * gmap string (string * string * Z))
    (u : update T) : gmap string Resources * gmap string (string * string * Z) :=
  match u with
  | USched cid node_id => (set_scheduling_strategy cid node_id st.1, st.2)
  | UGpu cid share => (set_num_gpu cid share st.1, st.2)
  | UConf cid rec => (st.1, <[cid := rec]> st.2)
  | UPrint _ => st
  end.

(* two list objects with the same contents *)
Definition ex_twice_world : World Z (list Z) unit :=
  {| self := ex_single_strategy; clients := ∅;
     heap := [ex_three_units; ex_three_units]; stdout := [] |}.

(* a strategy without any device *)
Definition ex_no_device_world : World Z (list Z) unit :=
  {| self := ex_strategy; clients := ∅; heap := [ex_three_units]; stdout := [] |}.

(** ** The probes of the calibration round *)

(* the (device, size) of every dispatched probe: the device recorded for the
   client, the size sent to it as "local_steps" *)
Definition probes {T Parameters} (fits : list (string * FitIns T Parameters))
    (configs : gmap string (string * string * Z)) : list (Device * Z) :=
  omap (λ fit,
          match configs !! fit.1, fit_config fit.2 !! "local_steps" with
          | Some (node_id, gpu_uuid, _), Some (SInt steps) =>
              Some ((node_id, gpu_uuid), steps)
          | _, _ => None
          end) fits.

Definition probe_sizes (d : Device) (ps : list (Device * Z)) : list Z :=
  snd <$> filter (λ p, p.1 = d) ps.

(* a probe of size [e.2.2] on device [e.2.1] handed to client [e.1] *)
Definition record_probe {T Poly SimpleCPU} (w : World T Poly SimpleCPU)
    (e : string * (Device * Z)) : World T Poly SimpleCPU :=
  with_self (set_client_configs_map (<[e.1 := (e.2.1.1, e.2.1.2, e.2.2)]>))
    (with_clients (set_scheduling_strategy e.1 e.2.1.1) w).

(* a permutation of the pool that starts 10, 30, and four clients to sample *)
Definition ex_perm : list Z := [10; 30; 5; 20; 15; 25]%Z.

Definition ex_client_manager4 : ClientManager :=
  {| num_available := 4; sample := λ n _, take n ["c1"; "c2"; "c3"; "c4"] |}.

(** ** Three rounds on the one-GPU cluster *)

Definition ex_results2 : list (string * FitRes nat) :=
  [("c2", {| task_id := Some 1%nat |}); ("c1", {| task_id := Some 2%nat |})].

(* discovery, calibration (3 s and 7 s measured) and a first scheduled round *)
Definition ex_rounds
    : result (list (string * FitIns Z unit)) * World Z (list Z) unit :=
  (do configure_fit (TaskId := nat) 1 tt ex_client_manager [ex_monitor 200 400 []];;
   do aggregate_fit ex_aggregate 1 ex_results tt [ex_monitor 200 400 []];;
   do configure_fit (TaskId := nat) 2 tt ex_client_manager [ex_monitor 200 400 []];;
   do aggregate_fit ex_aggregate 2 ex_results2 tt
        [ex_monitor 200 400 [(1%nat, 3000000000%Z); (2%nat, 7000000000%Z)]];;
   configure_fit (TaskId := nat) 3 tt ex_client_manager [ex_monitor 200 400 []])
    ex_world0.
(** ** Further views of the code *)

(* generate_client_priority:
   [(x, properties[x.cid]) for x in clients] *)
Fixpoint generate_client_priority {V} (clients : list string)
    (properties : gmap string V) : result (list (string * V)) :=
  match clients with
  | [] => Ok []
  | x :: rest =>
      match properties !! x with
      | None => Raise KeyError
      | Some p =>
          match generate_client_priority rest properties with
          | Ok weighted_clients => Ok ((x, p) :: weighted_clients)
          | r => r
          end
      end
  end.


(* configure_fit, rounds 3, 4, ...:
   [(client, self.profiles["train"][client.cid]) for client in clients] *)
Fixpoint train_weights (profs : gmap string (gmap string Z)) (clients : list string)
    : option (list (string * Z)) :=
  match clients with
  | [] => Some []
  | client :: rest =>
      match profs !! "train" ≫= (λ p, p !! client), train_weights profs rest with
      | Some weight, Some units => Some ((client, weight) :: units)
      | _, _ => None
      end
  end.

(* one GPU whose capacity was estimated as 0 *)
Definition ex_zero_strategy : Strategy Z (list Z) unit :=
  {| on_fit_config_fn := None; num_fit_clients := λ n, (n, n);
     current_round := 0; warm_up_steps := [10; 30]%Z;
     client_configs_map := ∅; profiles := ex_profiles;
     resource_poly_degree := 1;
     cpu_resources := ∅;
     gpu_resources := {[ "node-a" := {[ "GPU-0" := ex_gpu ]} ]};
     resources_model := [(("node-a", "GPU-0"), ([0; 1]%Z, 0%Z))] |}.

Definition ex_zero_world : World Z (list Z) unit :=
  {| self := ex_zero_strategy; clients := ∅; heap := [ex_three_units]; stdout := [] |}.

(** ** Discovery, as a function of the strategy *)

Section discovery_view.
Context {T Poly SimpleCPU TaskId : Type} `{Numeric T} `{PolyLib T Poly}.

(* the devices a monitor reports, in the order of its dictionary *)
Definition reported_gpus (actor : Monitor SimpleCPU TaskId) : list Device :=
  omap (λ kv, match kv.2 with
              | IsGPU g => Some (name actor, uuid g)
              | _ => None
              end) (get_resources actor).

(* the model create_model stores *)
Definition initial_model (degree : nat) : Poly * Z :=
  (Polynomial (one :: replicate degree zero), 1%Z).

(* what the body of [for k, v in this_node_resources.items()] stores *)
Definition store_resource (node_id : string) (s : Strategy T Poly SimpleCPU)
    (kv : string * NodeResource SimpleCPU) : Strategy T Poly SimpleCPU :=
  match kv.2 with
  | IsGPU g =>
      set_resources_model
        (dict_set (node_id, uuid g) (initial_model (resource_poly_degree s)))
        (set_gpu_resources
           (λ G, <[node_id := <[kv.1 := g]> (default ∅ (G !! node_id))]> G) s)
  | IsCPU c => set_cpu_resources (<[node_id := c]>) s
  | IsOther => s
  end.

(* what the body of [for actor in actors] stores *)
Definition store_monitor (s : Strategy T Poly SimpleCPU)
    (actor : Monitor SimpleCPU TaskId) : Strategy T Poly SimpleCPU :=
  foldl (store_resource (name actor))
        (set_gpu_resources (<[name actor := ∅]>) s) (get_resources actor).
End discovery_view.

(** ** The samples of the calibration round *)

(* {task_id: cid}, as the first loop of aggregate_fit builds it *)
Definition task_map {TaskId} `{EqDecision TaskId}
    (results : list (string * FitRes TaskId)) : list (TaskId * string) :=
  foldl (λ acc r,
           match task_id r.2 with
           | Some this_task_id => dict_set this_task_id r.1 acc
           | None => acc
           end) [] results.

(* the (num_steps, seconds) pairs a report of training times holds for a
   device: the entries whose task ran for a client configured on it *)
Definition device_samples {T TaskId} `{Numeric T} `{EqDecision TaskId}
    (task_to_cid : list (TaskId * string))
    (configs : gmap string (string * string * Z))
    (d : Device) (times : list (TaskId * Z)) : list (Z * T) :=
  omap (λ e,
          match dict_get e.1 task_to_cid ≫= (λ cid, configs !! cid) with
          | Some (node_id, gpu_uuid, num_steps) =>
              if decide ((node_id, gpu_uuid) = d)
              then Some (num_steps, ns_to_seconds e.2)
              else None
          | None => None
          end) times.

(* the world once rounds 1 and 2 have been configured on the one-GPU cluster *)
Definition ex_world2 : World Z (list Z) unit :=
  ((do configure_fit (TaskId := nat) 1 tt ex_client_manager [ex_monitor 200 400 []];;
    do aggregate_fit ex_aggregate 1 ex_results tt [ex_monitor 200 400 []];;
    configure_fit (TaskId := nat) 2 tt ex_client_manager [ex_monitor 200 400 []])
     ex_world0).2.

(** ** The memory samples of round 1 *)

(* the (node, all-process readings, (gpu uuid, per-task peak)) of every
   sample, in the order round 1 of aggregate_fit visits them *)
Definition round1_samples {SimpleCPU TaskId} (monitors : list (Monitor SimpleCPU TaskId))
    (ids : list TaskId) : list (string * list (string * Z) * (string * Z)) :=
  monitors ≫= λ actor,
    let this_monitor_metrics := aggregate_statistics actor ids in
    max_this_proc_mem_used_mb this_monitor_metrics ≫= λ task,
      (λ e, (name actor, max_all_proc_mem_used_mb this_monitor_metrics, e)) <$> task.2.

(* the device a sample is about *)
Definition sample_device (s : string * list (string * Z) * (string * Z)) : Device :=
  (s.1.1, s.2.1).


(** ** The stores of rounds 1 and 2 *)





(** ** The capacity estimate in binary64

    Lines 391-398 of the source compute
    [int((total_mem_this_gpu - max_all_proc_mem + max_mem_used_this_gpu)
         / max_mem_used_this_gpu)]
    on Python floats (the readings are annotated [Dict[str, Dict[str, float]]]).
    A Python float is an IEEE 754 binary64 number: 53 bits of mantissa,
    exponents up to 1024, every operation rounded to nearest, ties to even.
    A whole reading [n] enters the arithmetic as [float(n)]. *)

Definition b64_add : spec_float → spec_float → spec_float := SFadd 53 1024.
Definition b64_sub : spec_float → spec_float → spec_float := SFsub 53 1024.
Definition b64_div : spec_float → spec_float → spec_float := SFdiv 53 1024.

(* float(n) *)
Definition b64_of_Z (n : Z) : spec_float := binary_normalize 53 1024 n 0 false.

(* the integer part of a finite double, toward zero *)
Definition b64_trunc (s : bool) (m : positive) (e : Z) : Z :=
  cond_Zopp s (if (0 <=? e)%Z then Z.pos m * 2 ^ e else Z.pos m `div` 2 ^ (- e))%Z.

(* int(x) *)
Definition py_int_float (x : spec_float) : result Z :=
  match x with
  | S754_zero _ => Ok 0%Z
  | S754_infinity _ => Raise OverflowError
  | S754_nan => Raise ValueError
  | S754_finite s m e => Ok (b64_trunc s m e)
  end.

(* x / y : Python raises when the divisor is a zero of either sign *)
Definition py_float_truediv (x y : spec_float) : result spec_float :=
  match y with
  | S754_zero _ => Raise ZeroDivisionError
  | _ => Ok (b64_div x y)
  end.

Definition estimate_capacity
    (total_mem_this_gpu max_all_proc_mem max_mem_used_this_gpu : spec_float) : result Z :=
  match py_float_truediv
          (b64_add (b64_sub total_mem_this_gpu max_all_proc_mem) max_mem_used_this_gpu)
          max_mem_used_this_gpu with
  | Ok q => py_int_float q
  | Raise e => Raise e
  | Diverge => Diverge
  end.

(* the rational a finite double stands for *)
Definition b64_value (x : spec_float) : option Q :=
  match x with
  | S754_zero _ => Some 0%Q
  | S754_finite s m e => Some (inject_Z (cond_Zopp s (Z.pos m)) * (2 # 1) ^ e)%Q
  | _ => None
  end.

(* the double that holds a whole number of at most 53 bits: the mantissa is
   shifted to 53 digits *)
Definition canon (s : bool) (p : positive) : spec_float :=
  S754_finite s (Z.to_pos (Z.pos p * 2 ^ (53 - Z.pos (digits2_pos p))))
              (Z.pos (digits2_pos p) - 53)%Z.

Definition Z2SF (n : Z) : spec_float :=
  match n with
  | 0%Z => S754_zero false
  | Z.pos p => canon false p
  | Z.neg p => canon true p
  end.
(** * Properties *)

(** ** Dictionaries *)

Section dict_facts.
Context {K V : Type} `{EqDecision K}.
Implicit Types (d : list (K * V)) (k : K) (v : V).

Lemma dict_get_set_eq d k v : dict_get k (dict_set k v d) = Some v.
Proof.
  induction d as [|[k' v'] d IH]; simpl.
  - by rewrite decide_True.
  - destruct (decide (k = k')) as [->|Hne]; simpl.
    + by rewrite decide_True.
    + by rewrite decide_False.
Qed.

Lemma dict_get_set_ne d k k' v : k ≠ k' → dict_get k' (dict_set k v d) = dict_get k' d.
Proof.
  intros Hne. induction d as [|[k0 v0] d IH]; simpl.
  - by rewrite decide_False.
  - destruct (decide (k = k0)) as [->|Hne0]; simpl.
    + by rewrite !decide_False.
    + by rewrite IH.
Qed.

Lemma dict_keys_set_in d k v v0 :
  dict_get k d = Some v0 → dict_keys (dict_set k v d) = dict_keys d.
Proof.
  unfold dict_keys. induction d as [|[k' v'] d IH]; simpl; [done|].
  destruct (decide (k = k')) as [->|Hne]; simpl; [done|].
  intros Hget. f_equal. by apply IH.
Qed.


Lemma dict_get_in_keys d k : k ∈ dict_keys d → is_Some (dict_get k d).
Proof.
  unfold dict_keys. induction d as [|[k' v'] d IH]; simpl.
  - by intros ?%elem_of_nil.
  - destruct (decide (k = k')) as [->|Hne]; [eauto|].
    intros [?|?]%elem_of_cons; [done|]. by apply IH.
Qed.

Lemma dict_get_NoDup d k v :
  NoDup (dict_keys d) → (k, v) ∈ d → dict_get k d = Some v.
Proof.
  unfold dict_keys. induction d as [|[k' v'] d IH]; simpl.
  - by intros _ ?%elem_of_nil.
  - intros [Hnin Hnd]%NoDup_cons Hin.
    destruct (decide (k = k')) as [->|Hne].
    + apply elem_of_cons in Hin as [[= ->]|Hin]; [done|].
      exfalso. apply Hnin. apply list_elem_of_fmap. by exists (k', v).
    + apply elem_of_cons in Hin as [[= -> ->]|Hin]; [done|]. by apply IH.
Qed.


Lemma dict_set_Forall (P : K * V → Prop) d k v :
  Forall P d → P (k, v) → Forall P (dict_set k v d).
Proof.
  intros Hd Hkv. induction Hd as [|[k' v'] d Hx Hd IH]; simpl.
  - by constructor.
  - destruct (decide (k = k')) as [->|Hne]; by constructor.
Qed.
End dict_facts.

(** ** Reasoning in the monad *)

Section monad_facts.
Context {W : Type}.
Implicit Types (I : W → Prop).

Lemma inv_run I {A} (m : M A) w r w' : inv I m → I w → m w = (r, w') → I w'.
Proof. intros Hm. apply Hm. Qed.

Lemma inv_ret I {A} (a : A) : inv I (ret a).
Proof. by intros w r w' HI [= <- <-]. Qed.

Lemma inv_raise I {A} e : inv I (raise (A := A) e).
Proof. by intros w r w' HI [= <- <-]. Qed.

Lemma inv_diverge I {A} : inv I (diverge (A := A)).
Proof. by intros w r w' HI [= <- <-]. Qed.

Lemma inv_read I {A} (f : W → A) : inv I (read f).
Proof. by intros w r w' HI [= <- <-]. Qed.

Lemma inv_read_or I {A} e (f : W → option A) : inv I (read_or e f).
Proof. intros w r w' HI. unfold read_or. by destruct (f w); intros [= <- <-]. Qed.

Lemma inv_lift I {A} (x : result A) : inv I (lift x).
Proof. by intros w r w' HI [= <- <-]. Qed.

Lemma inv_lookup_or I {A} e (o : option A) : inv I (lookup_or e o).
Proof. destruct o; [apply inv_ret | apply inv_raise]. Qed.

Lemma inv_modify I (f : W → W) : (∀ w, I w → I (f w)) → inv I (modify f).
Proof. intros Hf w r w' HI [= <- <-]. by apply Hf. Qed.

Lemma inv_bind I {A B} (m : M A) (k : A → M B) :
  inv I m → (∀ a, inv I (k a)) → inv I (bind m k).
Proof.
  intros Hm Hk w r w' HI. unfold bind.
  destruct (m w) as [[a|e|] w1] eqn:Hmw.
  - apply (Hk a). by eapply Hm.
  - intros [= <- <-]. by eapply Hm.
  - intros [= <- <-]. by eapply Hm.
Qed.

Lemma inv_foldM I {A B} (f : B → A → M B) (l : list A) (b : B) :
  (∀ b x, x ∈ l → inv I (f b x)) → inv I (foldM f b l).
Proof.
  revert b. induction l as [|x l IH]; intros b Hf; simpl.
  - apply inv_ret.
  - apply inv_bind.
    + apply Hf. left.
    + intros b'. apply IH. intros b'' y Hy. apply Hf. by right.
Qed.

Lemma inv_for_ I {A} (l : list A) (f : A → M unit) :
  (∀ x, x ∈ l → inv I (f x)) → inv I (for_ l f).
Proof. intros Hf. apply inv_foldM. intros _ x Hx. by apply Hf. Qed.

Lemma inv_bind_read I {A B} (f : W → A) (k : A → M B) :
  (∀ w0, I w0 → inv I (k (f w0))) → inv I (bind (read f) k).
Proof. intros Hk w r w' HI. unfold bind, read. by apply Hk. Qed.

Lemma inv_bind_lookup I {A B} e (o : option A) (k : A → M B) :
  (∀ a, o = Some a → inv I (k a)) → inv I (bind (lookup_or e o) k).
Proof.
  intros Hk. destruct o as [a|]; simpl.
  - intros w r w' HI. unfold bind, ret. by apply Hk.
  - intros w r w' HI. unfold bind, raise. by intros [= <- <-].
Qed.

(* a loop that ends normally ran every body normally *)
Lemma foldM_Ok_all {A B} (f : B → A → M B) (l : list A) (b b' : B) (w w' : W) x :
  foldM f b l w = (Ok b', w') → x ∈ l →
  ∃ b1 w1 b2 w2, f b1 x w1 = (Ok b2, w2).
Proof.
  revert b w. induction l as [|y l IH]; intros b w Hrun Hx.
  - by apply elem_of_nil in Hx.
  - simpl in Hrun. unfold bind in Hrun.
    destruct (f b y w) as [[b1|e|] w1] eqn:Hf; try done.
    apply elem_of_cons in Hx as [->|Hx]; [by eauto|].
    by eapply IH.
Qed.

(* a loop over bodies that either succeed or raise [e], one of which
   raises [e] for sure, raises [e] *)
Lemma foldM_raises I e {A B} (f : B → A → M B) (l : list A) :
  (∀ b x w, x ∈ l → I w →
     (∃ b' w', f b x w = (Ok b', w') ∧ I w') ∨ (∃ w', f b x w = (Raise e, w'))) →
  (∃ x, x ∈ l ∧ ∀ b w, I w → ∃ w', f b x w = (Raise e, w')) →
  ∀ b w, I w → ∃ w', foldM f b l w = (Raise e, w').
Proof.
  induction l as [|y l IH]; intros Hstep (x & Hx & Hbad) b w HI.
  - by apply elem_of_nil in Hx.
  - simpl. unfold bind.
    destruct (Hstep b y w) as [(b' & w1 & Hf & HI1)|(w1 & Hf)]; [by left|done| |];
      rewrite Hf; [|by eauto].
    apply elem_of_cons in Hx as [->|Hx].
    + destruct (Hbad b w HI) as (w2 & Hf2). congruence.
    + apply IH; [|by eauto|done]. intros b0 z w0 Hz. apply Hstep. by right.
Qed.

Lemma foldM_ok_or_raises I e {A B} (f : B → A → M B) (l : list A) :
  (∀ b x w, x ∈ l → I w →
     (∃ b' w', f b x w = (Ok b', w') ∧ I w') ∨ (∃ w', f b x w = (Raise e, w'))) →
  ∀ b w, I w →
    (∃ b' w', foldM f b l w = (Ok b', w') ∧ I w') ∨
    (∃ w', foldM f b l w = (Raise e, w')).
Proof.
  induction l as [|y l IH]; intros Hstep b w HI.
  - left. by exists b, w.
  - simpl. unfold bind.
    destruct (Hstep b y w) as [(b' & w1 & Hf & HI1)|(w1 & Hf)]; [by left|done| |];
      rewrite Hf; [|by eauto].
    apply IH; [|done]. intros b0 z w0 Hz. apply Hstep. by right.
Qed.

(** A computation whose outcome is known. *)
Lemma bind_ok {A B} (m : M A) (k : A → M B) (w w1 : W) a :
  m w = (Ok a, w1) → bind m k w = k a w1.
Proof. intros Hm. unfold bind. by rewrite Hm. Qed.

Lemma bind_raise {A B} (m : M A) (k : A → M B) (w w1 : W) e :
  m w = (Raise e, w1) → bind m k w = (Raise e, w1).
Proof. intros Hm. unfold bind. by rewrite Hm. Qed.

End monad_facts.


Ltac inv_step :=
  lazymatch goal with
  | |- inv _ (bind _ _) => apply inv_bind; [|intros ?]
  | |- inv _ (ret _) => apply inv_ret
  | |- inv _ (raise _) => apply inv_raise
  | |- inv _ diverge => apply inv_diverge
  | |- inv _ (read _) => apply inv_read
  | |- inv _ (read_or _ _) => apply inv_read_or
  | |- inv _ (lift _) => apply inv_lift
  | |- inv _ (lookup_or _ _) => apply inv_lookup_or
  | |- inv _ (foldM _ _ _) => apply inv_foldM; intros ? ? ?
  | |- inv _ (for_ _ _) => apply inv_for_; intros ? ?
  | |- inv _ (modify _) => apply inv_modify; intros ? ?
  | |- inv _ (match ?x with _ => _ end) => destruct x
  end.

(** ** What each method leaves alone *)

Section frames.
Context {T Poly SimpleCPU TaskId Parameters Failures Aggregate : Type}.
Context `{Numeric T} `{PolyLib T Poly} `{EqDecision TaskId}.
Context (FedAvg_aggregate_fit :
  Z → list (string * FitRes TaskId) → Failures → Aggregate).

Abbreviation world := (World T Poly SimpleCPU).

Section generic.
Context (J : list (Device * (Poly * Z)) → list Z →
             gmap string (gmap string SimpleGPU) → Prop).
Abbreviation fixed J := (on_fixed (T := T) (Poly := Poly) (SimpleCPU := SimpleCPU) J).

Lemma associate_client_frame (parameters : Parameters) cfg node_id gpu_uuid n
    fits cw :
  inv (fixed J) (associate_client parameters cfg node_id gpu_uuid n fits cw).
Proof. unfold associate_client. repeat inv_step; done. Qed.

Lemma associate_step_frame (parameters : Parameters) cfg l mapping st :
  inv (fixed J) (associate_step parameters cfg l mapping st).
Proof.
  unfold associate_step. repeat inv_step; try done.
  apply associate_client_frame.
Qed.

Lemma associate_loop_frame fuel (parameters : Parameters) cfg l mapping st :
  inv (fixed J) (associate_loop fuel parameters cfg l mapping st).
Proof.
  revert st. induction fuel as [|fuel IH]; intros st; simpl.
  - repeat inv_step.
  - repeat first [apply associate_step_frame | apply IH | inv_step].
Qed.

Lemma associate_resources_frame (parameters : Parameters) cfg l :
  inv (fixed J) (associate_resources parameters cfg l).
Proof.
  unfold associate_resources.
  repeat first [apply associate_loop_frame | inv_step]; done.
Qed.

Lemma alloc_frame v : inv (fixed J) (alloc (T := T) (Poly := Poly) (SimpleCPU := SimpleCPU) v).
Proof. by intros w r w' HI [= <- <-]. Qed.

Lemma discover_device_frame (parameters : Parameters) cfg st dev :
  inv (fixed J) (discover_device parameters cfg st dev).
Proof. unfold discover_device. repeat inv_step; done. Qed.

Lemma calibrate_device_frame (parameters : Parameters) cfg st dev :
  inv (fixed J) (calibrate_device parameters cfg st dev).
Proof. unfold calibrate_device, calibrate_step. repeat inv_step; done. Qed.

Lemma tasks_to_cid_frame (results : list (string * FitRes TaskId)) :
  inv (fixed J) (tasks_to_cid results).
Proof. unfold tasks_to_cid. repeat inv_step; done. Qed.

Lemma collect_sample_frame (t2c : list (TaskId * string)) xy entry :
  inv (fixed J) (collect_sample t2c xy entry).
Proof. unfold collect_sample. repeat inv_step; done. Qed.

(* rounds 2, 3, ... of configure_fit *)
Lemma configure_fit_frame server_round (parameters : Parameters) cm
    (monitors : list (Monitor SimpleCPU TaskId)) :
  server_round ≠ 1%Z →
  inv (fixed J) (configure_fit server_round parameters cm monitors).
Proof.
  intros Hr. unfold configure_fit.
  apply Z.eqb_neq in Hr. rewrite Hr.
  inv_step; [inv_step|]. destruct (server_round =? 2)%Z.
  - repeat first [apply calibrate_device_frame | inv_step].
  - inv_step; [inv_step; done|]. inv_step; [inv_step|].
    match goal with |- inv _ (let '(_, _) := ?x in _) => destruct x end.
    repeat first [apply alloc_frame | apply associate_resources_frame | inv_step].
Qed.

(* rounds 3, 4, ... of aggregate_fit *)
Lemma aggregate_fit_frame server_round results (failures : Failures)
    (monitors : list (Monitor SimpleCPU TaskId)) :
  server_round ≠ 1%Z → server_round ≠ 2%Z →
  inv (fixed J) (aggregate_fit FedAvg_aggregate_fit server_round results failures monitors).
Proof.
  intros H1 H2. unfold aggregate_fit.
  apply Z.eqb_neq in H1, H2. rewrite H1, H2.
  inv_step; [apply tasks_to_cid_frame|]. repeat inv_step.
Qed.
End generic.

(** *** The three stores into the model map *)

Lemma create_model_spec node_id gpu_uuid (w : world) :
  create_model node_id gpu_uuid w =
  (Ok tt,
   with_self (set_resources_model
     (dict_set (node_id, gpu_uuid)
        (Polynomial (one :: replicate (resource_poly_degree (self w)) zero), 1%Z))) w).
Proof. unfold create_model, bind, read. by rewrite Nat.add_1_r. Qed.

Lemma refine_capacity_ok node_id all gpu_uuid mem (w : world) gpu a poly t :
  gpu_lookup node_id gpu_uuid (self w) = Some gpu →
  dict_get gpu_uuid all = Some a →
  mem ≠ 0%Z →
  dict_get (node_id, gpu_uuid) (resources_model (self w)) = Some (poly, t) →
  let n := Z.quot (total_mem_mb gpu - a + mem) mem in
  refine_capacity node_id all (gpu_uuid, mem) w =
  (Ok tt,
   print (PrintMaxClients node_id gpu_uuid n)
     (with_self (set_resources_model (dict_set (node_id, gpu_uuid) (poly, n))) w)).
Proof.
  intros Hgpu Hall Hmem Hmodel n.
  unfold refine_capacity, bind, read_or, py_int_truediv.
  rewrite Hgpu, Hall. simpl.
  apply Z.eqb_neq in Hmem. rewrite Hmem. simpl.
  by rewrite Hmodel.
Qed.

Lemma refine_capacity_zero node_id all gpu_uuid (w : world) gpu a :
  gpu_lookup node_id gpu_uuid (self w) = Some gpu →
  dict_get gpu_uuid all = Some a →
  refine_capacity node_id all (gpu_uuid, 0%Z) w = (Raise ZeroDivisionError, w).
Proof.
  intros Hgpu Hall.
  unfold refine_capacity, bind, read_or, py_int_truediv.
  by rewrite Hgpu, Hall.
Qed.

Lemma refine_capacity_inv node_id all gpu_uuid mem (w w' : world) r :
  refine_capacity node_id all (gpu_uuid, mem) w = (r, w') →
  (w' = w ∧ r ≠ Ok tt) ∨
  ∃ gpu a poly t,
    gpu_lookup node_id gpu_uuid (self w) = Some gpu ∧
    dict_get gpu_uuid all = Some a ∧
    mem ≠ 0%Z ∧
    dict_get (node_id, gpu_uuid) (resources_model (self w)) = Some (poly, t) ∧
    r = Ok tt ∧
    w' = print (PrintMaxClients node_id gpu_uuid
                  (Z.quot (total_mem_mb gpu - a + mem) mem))
           (with_self (set_resources_model
              (dict_set (node_id, gpu_uuid)
                 (poly, Z.quot (total_mem_mb gpu - a + mem) mem))) w).
Proof.
  destruct (gpu_lookup node_id gpu_uuid (self w)) as [gpu|] eqn:Hgpu; last first.
  { unfold refine_capacity, bind, read_or. rewrite Hgpu.
    intros [= <- <-]. by left. }
  destruct (dict_get gpu_uuid all) as [a|] eqn:Hall; last first.
  { unfold refine_capacity, bind, read_or. rewrite Hgpu, Hall. simpl.
    intros [= <- <-]. by left. }
  destruct (decide (mem = 0%Z)) as [->|Hmem].
  { erewrite refine_capacity_zero by done. intros [= <- <-]. by left. }
  destruct (dict_get (node_id, gpu_uuid) (resources_model (self w)))
    as [[poly t]|] eqn:Hmodel; last first.
  { unfold refine_capacity, bind, read_or, py_int_truediv.
    rewrite Hgpu, Hall. simpl. apply Z.eqb_neq in Hmem. rewrite Hmem. simpl.
    rewrite Hmodel. intros [= <- <-]. by left. }
  erewrite refine_capacity_ok by done. intros [= <- <-].
  right. by exists gpu, a, poly, t.
Qed.

Lemma refit_model_inv x y k m c (w w' : world) r :
  refit_model x y (k, (m, c)) w = (r, w') →
  w' = w ∨ ∃ m', w' = with_self (set_resources_model (dict_set k (m', c))) w.
Proof.
  unfold refit_model, bind, read, lift.
  destruct (poly_fit _ _ _) as [m'| |]; simpl.
  - intros [= <- <-]. right. by exists m'.
  - intros [= <- <-]. by left.
  - intros [= <- <-]. by left.
Qed.
End frames.

Example ex_world1_models :
  resources_model (self ex_world1) = [(("node-a", "GPU-0"), ([1; 0]%Z, 1%Z))].
Proof. vm_compute. reflexivity. Qed.

(** ** The model map across the rounds *)

Section rounds.
Context {T Poly SimpleCPU TaskId Parameters Failures Aggregate : Type}.
Context `{Numeric T} `{PolyLib T Poly} `{EqDecision TaskId}.
Context (FedAvg_aggregate_fit :
  Z → list (string * FitRes TaskId) → Failures → Aggregate).

Abbreviation world := (World T Poly SimpleCPU).
Abbreviation models_of := (λ w : world, resources_model (self w)).
Implicit Types (I : world → Prop).

Lemma create_model_inv I node_id gpu_uuid :
  (∀ w p, I w →
     I (with_self (set_resources_model (dict_set (node_id, gpu_uuid) (p, 1%Z))) w)) →
  inv I (create_model node_id gpu_uuid).
Proof.
  intros HI w r w' Hw. rewrite create_model_spec. intros [= <- <-]. by apply HI.
Qed.

Lemma refine_capacity_inv_with I node_id all gpu_uuid mem :
  (∀ w gpu a poly t, I w →
     gpu_lookup node_id gpu_uuid (self w) = Some gpu →
     dict_get gpu_uuid all = Some a →
     mem ≠ 0%Z →
     dict_get (node_id, gpu_uuid) (models_of w) = Some (poly, t) →
     let n := Z.quot (total_mem_mb gpu - a + mem) mem in
     I (print (PrintMaxClients node_id gpu_uuid n)
          (with_self (set_resources_model (dict_set (node_id, gpu_uuid) (poly, n))) w))) →
  inv I (refine_capacity node_id all (gpu_uuid, mem)).
Proof.
  intros HI w r w' Hw Hrun.
  apply refine_capacity_inv in Hrun
    as [[-> _]|(gpu & a & poly & t & ? & ? & ? & ? & _ & ->)]; [done|].
  by eapply HI.
Qed.

Lemma refit_model_inv_with I x y k m c :
  (∀ w m', I w → I (with_self (set_resources_model (dict_set k (m', c))) w)) →
  inv I (refit_model x y (k, (m, c))).
Proof.
  intros HI w r w' Hw Hrun.
  apply refit_model_inv in Hrun as [->|(m' & ->)]; [done|]. by apply HI.
Qed.

(** Discovery writes the inventory and creates every model with capacity 1. *)
Lemma request_available_resources_inv I (monitors : list (Monitor SimpleCPU TaskId)) :
  (∀ f w, I w → I (with_self (set_gpu_resources f) w)) →
  (∀ f w, I w → I (with_self (set_cpu_resources f) w)) →
  (∀ k p w, I w → I (with_self (set_resources_model (dict_set k (p, 1%Z))) w)) →
  inv I (request_available_resources monitors).
Proof.
  intros Hgpu Hcpu Hcreate. unfold request_available_resources.
  inv_step. inv_step; [inv_step; apply Hgpu; done|].
  inv_step. destruct x0 as [k [g|c|]].
  - inv_step; [inv_step|]. inv_step; [inv_step; by apply Hgpu|].
    apply create_model_inv. intros w p Hw. by apply Hcreate.
  - inv_step. by apply Hcpu.
  - inv_step.
Qed.

Lemma request_available_resources_capacity (monitors : list (Monitor SimpleCPU TaskId)) :
  inv (λ w, capacity_ok (models_of w)) (request_available_resources monitors).
Proof.
  apply request_available_resources_inv; [done|done|].
  intros k p w Hw. simpl. apply dict_set_Forall; [done|]. simpl. lia.
Qed.

(** The calibration sizes are never written after construction. *)
Lemma run_op_warm_up W0 (op : Op SimpleCPU TaskId Parameters Failures) :
  inv (λ w : world, warm_up_steps (self w) = W0) (run_op FedAvg_aggregate_fit op).
Proof.
  destruct op as [server_round parameters cm monitors
                 |server_round results failures monitors]; simpl.
  - inv_step; [|inv_step].
    destruct (decide (server_round = 1%Z)) as [->|Hr].
    + unfold configure_fit. simpl.
      repeat first [ apply request_available_resources_inv; [done|done|done]
                   | apply (discover_device_frame (λ _ wu _, wu = W0))
                   | inv_step ].
    + by apply (configure_fit_frame (λ _ wu _, wu = W0)).
  - inv_step; [|inv_step].
    destruct (decide (server_round = 1%Z)) as [->|Hr1];
      [|destruct (decide (server_round = 2%Z)) as [->|Hr2]].
    + unfold aggregate_fit, aggregate_round1. simpl.
      inv_step; [apply (tasks_to_cid_frame (λ _ wu _, wu = W0))|].
      inv_step; [|inv_step]. inv_step. inv_step. inv_step.
      destruct x1. apply refine_capacity_inv_with. by intros.
    + unfold aggregate_fit, aggregate_round2. simpl.
      inv_step; [apply (tasks_to_cid_frame (λ _ wu _, wu = W0))|].
      inv_step; [|inv_step]. inv_step; [inv_step; done|].
      inv_step; [apply (tasks_to_cid_frame (λ _ wu _, wu = W0))|].
      inv_step. inv_step.
      { inv_step. apply (collect_sample_frame (λ _ wu _, wu = W0)). }
      inv_step; [inv_step|]. inv_step. destruct x0 as [k [m c]].
      apply refit_model_inv_with. by intros.
    + by apply (aggregate_fit_frame _ (λ _ wu _, wu = W0)).
Qed.


(** Round 1 keeps [capacity >= 1] when the samples fit the device. *)
Lemma aggregate_round1_capacity G0 ids (monitors : list (Monitor SimpleCPU TaskId)) actor :
  samples_fit G0 monitors → actor ∈ monitors →
  inv (λ w, capacity_ok (models_of w) ∧ gpu_resources (self w) = G0)
      (aggregate_round1 ids actor).
Proof.
  intros Hfit Hactor.
  unfold aggregate_round1. inv_step. inv_step. destruct x0 as [gpu_uuid mem].
  destruct (Hfit actor ids x gpu_uuid mem) as [Hpos Hle]; [done..|].
  apply refine_capacity_inv_with.
  intros w gpu a poly t [Hw HG] Hgpu Hall _ Hget n. simpl. split; [|done].
  apply dict_set_Forall; [done|]. simpl.
  unfold gpu_lookup in Hgpu. rewrite HG in Hgpu.
  specialize (Hle gpu a Hgpu Hall). subst n.
  rewrite Z.quot_div_nonneg by lia.
  apply Z.div_le_lower_bound; lia.
Qed.



Lemma aggregate_round2_capacity t2c (actor : Monitor SimpleCPU TaskId) :
  inv (λ w, capacity_ok (models_of w)) (aggregate_round2 t2c actor).
Proof.
  unfold aggregate_round2.
  inv_step.
  { inv_step. apply (collect_sample_frame (λ d _ _, capacity_ok d)). }
  apply inv_bind_read. intros w0 Hw0. inv_step. destruct x as [k [m c]].
  apply refit_model_inv_with. intros w m' Hw. simpl.
  apply dict_set_Forall; [done|].
  unfold capacity_ok in Hw0. rewrite Forall_forall in Hw0.
  by apply (Hw0 (k, (m, c))).
Qed.
End rounds.

(** ** Capacity estimation (round 1) *)

Section capacity.
Context {T Poly SimpleCPU TaskId Parameters Failures Aggregate : Type}.
Context `{Numeric T} `{PolyLib T Poly} `{EqDecision TaskId}.
Context (FedAvg_aggregate_fit :
  Z → list (string * FitRes TaskId) → Failures → Aggregate).

Abbreviation world := (World T Poly SimpleCPU).
Abbreviation models_of := (λ w : world, resources_model (self w)).

Lemma tasks_to_cid_ok (results : list (string * FitRes TaskId)) (w : world) :
  Forall (λ r, is_Some (task_id r.2)) results →
  ∃ t2c, tasks_to_cid results w = (Ok t2c, w).
Proof.
  unfold tasks_to_cid. generalize (@nil (TaskId * string)) as acc.
  induction results as [|[client fit_res] results IH]; intros acc Hall; simpl.
  - by exists acc.
  - apply Forall_cons in Hall as [[tid Htid] Hall]. simpl in Htid.
    unfold bind at 1. rewrite Htid. simpl. apply IH, Hall.
Qed.

(* Round 1 either refines every sampled device or stops at a zero sample. *)
Lemma aggregate_round1_zero G0 K0 ids (monitors : list (Monitor SimpleCPU TaskId)) actor :
  samples_known G0 K0 monitors →
  actor ∈ monitors →
  ∀ w : world, gpu_resources (self w) = G0 ∧ dict_keys (models_of w) = K0 →
    (∃ u w', aggregate_round1 ids actor w = (Ok u, w') ∧
       (gpu_resources (self w') = G0 ∧ dict_keys (models_of w') = K0)) ∨
    (∃ w', aggregate_round1 ids actor w = (Raise ZeroDivisionError, w')).
Proof.
  intros Hknown Hactor. unfold aggregate_round1, for_.
  apply foldM_ok_or_raises. intros _ task w Htask HI.
  apply foldM_ok_or_raises; [|done]. clear w HI.
  intros _ [gpu_uuid mem] w Hentry [HG HK].
  destruct (Hknown actor ids task gpu_uuid mem)
    as ([gpu Hgpu] & [a Ha] & Hkey); [done..|].
  rewrite <- HK in Hkey. apply dict_get_in_keys in Hkey as [[poly t] Hget].
  rewrite <- HG in Hgpu.
  destruct (decide (mem = 0%Z)) as [->|Hmem].
  - right. exists w. by eapply refine_capacity_zero.
  - left. eexists tt, _. split; [by eapply refine_capacity_ok|].
    simpl. split; [done|]. rewrite <- HK. by eapply dict_keys_set_in.
Qed.

Lemma aggregate_round1_zero_raises G0 K0 ids (monitors : list (Monitor SimpleCPU TaskId))
    actor task gpu_uuid :
  samples_known G0 K0 monitors →
  actor ∈ monitors →
  task ∈ max_this_proc_mem_used_mb (aggregate_statistics actor ids) →
  (gpu_uuid, 0%Z) ∈ task.2 →
  ∀ w : world, gpu_resources (self w) = G0 ∧ dict_keys (models_of w) = K0 →
    ∃ w', aggregate_round1 ids actor w = (Raise ZeroDivisionError, w').
Proof.
  intros Hknown Hactor Htask Hzero. unfold aggregate_round1, for_.
  intros w HI. apply (foldM_raises (λ w : world,
    gpu_resources (self w) = G0 ∧ dict_keys (models_of w) = K0)); [| |done].
  - intros _ task' w0 Htask' HI0.
    apply (foldM_ok_or_raises (λ w : world,
      gpu_resources (self w) = G0 ∧ dict_keys (models_of w) = K0)); [|done].
    intros _ [uuid' mem] w1 Hentry [HG HK].
    destruct (Hknown actor ids task' uuid' mem)
      as ([gpu Hgpu] & [a Ha] & Hkey); [done..|].
    rewrite <- HK in Hkey. apply dict_get_in_keys in Hkey as [[poly t] Hget].
    rewrite <- HG in Hgpu.
    destruct (decide (mem = 0%Z)) as [->|Hmem].
    + right. exists w1. by eapply refine_capacity_zero.
    + left. eexists tt, _. split; [by eapply refine_capacity_ok|].
      simpl. split; [done|]. rewrite <- HK. by eapply dict_keys_set_in.
  - exists task. split; [done|]. intros _ w0 HI0.
    apply (foldM_raises (λ w : world,
      gpu_resources (self w) = G0 ∧ dict_keys (models_of w) = K0)); [| |done].
    + intros _ [uuid' mem] w1 Hentry [HG HK].
      destruct (Hknown actor ids task uuid' mem)
        as ([gpu Hgpu] & [a Ha] & Hkey); [done..|].
      rewrite <- HK in Hkey. apply dict_get_in_keys in Hkey as [[poly t] Hget].
      rewrite <- HG in Hgpu.
      destruct (decide (mem = 0%Z)) as [->|Hmem].
      * right. exists w1. by eapply refine_capacity_zero.
      * left. eexists tt, _. split; [by eapply refine_capacity_ok|].
        simpl. split; [done|]. rewrite <- HK. by eapply dict_keys_set_in.
    + exists (gpu_uuid, 0%Z). split; [done|]. intros _ w1 [HG HK].
      destruct (Hknown actor ids task gpu_uuid 0%Z)
        as ([gpu Hgpu] & [a Ha] & Hkey); [done..|].
      rewrite <- HG in Hgpu. exists w1. by eapply refine_capacity_zero.
Qed.
End capacity.

(** ** Running a pass symbolically *)

Section runs_facts.
Context {T Poly SimpleCPU : Type}.
Abbreviation world := (World T Poly SimpleCPU).
Implicit Types (s : Strategy T Poly SimpleCPU) (v : list (string * Z))
  (us : list (update T)).

Lemma apply_updates_app us1 us2 (w : world) :
  apply_updates (us1 ++ us2) w = apply_updates us2 (apply_updates us1 w).
Proof. apply foldl_app. Qed.

(* writes do not touch what a pass reads *)
Lemma apply_update_variant s (u : update T) cm c o :
  ∃ cm' c' o', ∀ h : list (list (string * Z)),
    apply_update (variant s cm c h o) u = variant (Poly := Poly) (SimpleCPU := SimpleCPU) s cm' c' h o'.
Proof.
  destruct u as [cid node_id|cid share|cid rec|p].
  - by exists cm, (set_scheduling_strategy cid node_id c), o.
  - by exists cm, (set_num_gpu cid share c), o.
  - by exists (<[cid := rec]> cm), c, o.
  - by exists cm, c, (o ++ [p]).
Qed.

Lemma apply_updates_variant s us cm c o :
  ∃ cm' c' o', ∀ h : list (list (string * Z)),
    apply_updates us (variant s cm c h o) = variant (Poly := Poly) (SimpleCPU := SimpleCPU) s cm' c' h o'.
Proof.
  revert cm c o. induction us as [|u us IH]; intros cm c o.
  - by exists cm, c, o.
  - destruct (apply_update_variant s u cm c o) as (cm1 & c1 & o1 & H1).
    destruct (IH cm1 c1 o1) as (cm2 & c2 & o2 & H2).
    exists cm2, c2, o2. intros h.
    unfold apply_updates in *. simpl. by rewrite H1.
Qed.

Lemma world_variant (w : world) l v :
  heap w !! l = Some v →
  w = variant (self w) (client_configs_map (self w)) (clients w) (<[l := v]> (heap w)) (stdout w).
Proof.
  intros Hl. destruct w as [[] c h o]. unfold variant. simpl in *.
  by rewrite list_insert_id.
Qed.

Lemma runs_world s v {A} (m : nat → M A) r us v' (w : world) l :
  runs s v m r us v' → self w = s → heap w !! l = Some v →
  m l w = (r, apply_updates us (with_heap (<[l := v']>) w)).
Proof.
  intros Hruns <- Hl.
  rewrite (world_variant w l v Hl) at 1.
  rewrite Hruns by (by eapply lookup_lt_Some).
  f_equal. f_equal. destruct w as [[] c h o]. done.
Qed.

Lemma runs_variant s v {A} (m : nat → M A) r us v' cm c h o l :
  runs s v m r us v' → h !! l = Some v →
  m l (variant s cm c h o) = (r, apply_updates us (variant s cm c (<[l := v']> h) o)).
Proof.
  intros Hruns Hl. rewrite <- (list_insert_id h l v Hl) at 1.
  apply Hruns. by eapply lookup_lt_Some.
Qed.

Lemma world_is_variant (w : world) :
  w = variant (self w) (client_configs_map (self w)) (clients w) (heap w) (stdout w).
Proof. by destruct w as [[] c h o]. Qed.

Lemma runs_ret s v {A} (a : A) : runs s v (λ _, ret a) (Ok a) [] v.
Proof. by intros cm c h o l Hl. Qed.

Lemma runs_lift s v {A} (r : result A) : runs s v (λ _, lift r) r [] v.
Proof. by intros cm c h o l Hl. Qed.

Lemma runs_raise s v {A} e : runs s v (λ _, raise (A := A) e) (Raise e) [] v.
Proof. by intros cm c h o l Hl. Qed.

Lemma runs_diverge s v {A} : runs s v (λ _, diverge (A := A)) Diverge [] v.
Proof. by intros cm c h o l Hl. Qed.

Lemma runs_bind s v {A B} (m : nat → M A) (k : nat → A → M B) a us1 v1 r us2 v2 :
  runs s v m (Ok a) us1 v1 →
  runs s v1 (λ l, k l a) r us2 v2 →
  runs s v (λ l, bind (m l) (k l)) r (us1 ++ us2) v2.
Proof.
  intros Hm Hk cm c h o l Hl. unfold bind. rewrite Hm by done.
  destruct (apply_updates_variant s us1 cm c o) as (cm1 & c1 & o1 & H1).
  rewrite H1, Hk by done. by rewrite apply_updates_app, H1.
Qed.

Lemma runs_bind_raise s v {A B} (m : nat → M A) (k : nat → A → M B) e us1 v1 :
  runs s v m (Raise e) us1 v1 →
  runs s v (λ l, bind (m l) (k l)) (Raise e) us1 v1.
Proof. intros Hm cm c h o l Hl. unfold bind. by rewrite Hm. Qed.

Lemma runs_bind_diverge s v {A B} (m : nat → M A) (k : nat → A → M B) us1 v1 :
  runs s v m Diverge us1 v1 →
  runs s v (λ l, bind (m l) (k l)) Diverge us1 v1.
Proof. intros Hm cm c h o l Hl. unfold bind. by rewrite Hm. Qed.

Lemma runs_bind_eq s v {A B} (m : nat → M A) (k : nat → A → M B) a us1 v1 r us2 v2 us :
  runs s v m (Ok a) us1 v1 →
  runs s v1 (λ l, k l a) r us2 v2 →
  us = us1 ++ us2 →
  runs s v (λ l, bind (m l) (k l)) r us v2.
Proof. intros Hm Hk ->. by eapply runs_bind. Qed.

Lemma runs_eq s v {A} (m : nat → M A) r us v' r' us' v'' :
  runs s v m r us v' → r = r' → us = us' → v' = v'' → runs s v m r' us' v''.
Proof. by intros Hm <- <- <-. Qed.

(* the pure prefixes of a body *)
Lemma runs_bind_lift s v {A B} (x : result A) (k : nat → A → M B) a r us v' :
  x = Ok a → runs s v (λ l, k l a) r us v' →
  runs s v (λ l, bind (lift x) (k l)) r us v'.
Proof. intros -> Hk. apply (runs_bind s v (λ _, lift (Ok a)) k a [] v); [apply runs_lift|done]. Qed.

Lemma runs_bind_lookup s v {A B} e (x : option A) (k : nat → A → M B) a r us v' :
  x = Some a → runs s v (λ l, k l a) r us v' →
  runs s v (λ l, bind (lookup_or e x) (k l)) r us v'.
Proof. intros -> Hk. apply (runs_bind s v (λ _, ret a) k a [] v); [apply runs_ret|done]. Qed.

Lemma runs_lookup_none s v {A} e (x : option A) :
  x = None → runs s v (λ _, lookup_or e x) (Raise e) [] v.
Proof. intros ->. apply runs_raise. Qed.

Lemma runs_bind_read s v {A B} (f : world → A) (k : nat → A → M B) a r us v' :
  (∀ cm c h o, f (variant s cm c h o) = a) →
  runs s v (λ l, k l a) r us v' →
  runs s v (λ l, bind (read f) (k l)) r us v'.
Proof.
  intros Hf Hk cm c h o l Hl. unfold bind, read. rewrite Hf. by apply Hk.
Qed.

Lemma runs_bind_read_or s v {A B} e (f : world → option A) (k : nat → A → M B)
    a r us v' :
  (∀ cm c h o, f (variant s cm c h o) = Some a) →
  runs s v (λ l, k l a) r us v' →
  runs s v (λ l, bind (read_or e f) (k l)) r us v'.
Proof.
  intros Hf Hk cm c h o l Hl. unfold bind, read_or. rewrite Hf. by apply Hk.
Qed.

Lemma runs_bind_read_or_raise s v {A B} e (f : world → option A) (k : nat → A → M B) :
  (∀ cm c h o, f (variant s cm c h o) = None) →
  runs s v (λ l, bind (read_or e f) (k l)) (Raise e) [] v.
Proof.
  intros Hf cm c h o l Hl. unfold bind, read_or. by rewrite Hf.
Qed.

Lemma runs_bind_deref s v {B} (k : nat → list (string * Z) → M B) r us v' :
  runs s v (λ l, k l v) r us v' →
  runs s v (λ l, bind (read (deref l)) (k l)) r us v'.
Proof.
  intros Hk cm c h o l Hl. unfold bind, read, deref. simpl.
  rewrite list_lookup_insert_eq by done. simpl. by apply Hk.
Qed.

Lemma runs_bind_store s v {B} x (k : nat → unit → M B) r us v' :
  runs s x (λ l, k l tt) r us v' →
  runs s v (λ l, bind (modify (with_heap (<[l := x]>))) (k l)) r us v'.
Proof.
  intros Hk cm c h o l Hl. unfold bind, modify, with_heap. simpl.
  rewrite list_insert_insert_eq. by apply Hk.
Qed.

Lemma runs_bind_update s v {B} (f : world → world) (u : update T)
    (k : nat → unit → M B) r us v' :
  (∀ w, f w = apply_update w u) →
  runs s v (λ l, k l tt) r us v' →
  runs s v (λ l, bind (modify f) (k l)) r (u :: us) v'.
Proof.
  intros Hf Hk cm c h o l Hl. unfold bind, modify. rewrite Hf.
  destruct (apply_update_variant s u cm c o) as (cm1 & c1 & o1 & H1).
  rewrite H1, Hk by done. simpl. unfold apply_updates. simpl. by rewrite H1.
Qed.
End runs_facts.

(** ** Every pass is a function of what it reads *)

Section tracked_facts.
Context {T Poly SimpleCPU : Type}.
Abbreviation world := (World T Poly SimpleCPU).
Implicit Types (s : Strategy T Poly SimpleCPU) (v : list (string * Z)).

Lemma tracked_ret s v {A} (a : A) : tracked s v (λ _, ret a).
Proof. eexists _, _, _. apply runs_ret. Qed.

Lemma tracked_lift s v {A} (r : result A) : tracked s v (λ _, lift r).
Proof. eexists _, _, _. apply runs_lift. Qed.

Lemma tracked_raise s v {A} e : tracked s v (λ _, raise (A := A) e).
Proof. eexists _, _, _. apply runs_raise. Qed.

Lemma tracked_diverge s v {A} : tracked s v (λ _, diverge (A := A)).
Proof. eexists _, _, _. apply runs_diverge. Qed.

Lemma tracked_lookup_or s v {A} e (o : option A) : tracked s v (λ _, lookup_or e o).
Proof. destruct o; [apply tracked_ret|apply tracked_raise]. Qed.

Lemma tracked_bind s v {A B} (m : nat → M A) (k : nat → A → M B) :
  tracked s v m → (∀ a v1, tracked s v1 (λ l, k l a)) →
  tracked s v (λ l, bind (m l) (k l)).
Proof.
  intros (r & us1 & v1 & Hm) Hk. destruct r as [a|e|].
  - destruct (Hk a v1) as (r & us2 & v2 & Hka).
    eexists _, _, _. by eapply runs_bind.
  - eexists _, _, _. by eapply runs_bind_raise.
  - eexists _, _, _. by eapply runs_bind_diverge.
Qed.

Lemma tracked_read s v {A} (f : world → A) a :
  (∀ cm c h o, f (variant s cm c h o) = a) → tracked s v (λ _, read f).
Proof.
  intros Hf. exists (Ok a), [], v. intros cm c h o l Hl. unfold read. by rewrite Hf.
Qed.

Lemma tracked_read_or s v {A} e (f : world → option A) x :
  (∀ cm c h o, f (variant s cm c h o) = x) → tracked s v (λ _, read_or e f).
Proof.
  intros Hf. destruct x as [a|].
  - exists (Ok a), [], v. intros cm c h o l Hl. unfold read_or. by rewrite Hf.
  - exists (Raise e), [], v. intros cm c h o l Hl. unfold read_or. by rewrite Hf.
Qed.

Lemma tracked_deref s v : tracked s v (λ l, read (W := world) (deref l)).
Proof.
  exists (Ok v), [], v. intros cm c h o l Hl. unfold read, deref. simpl.
  by rewrite list_lookup_insert_eq.
Qed.

Lemma tracked_store s v x :
  tracked s v (λ l, modify (W := world) (with_heap (<[l := x]>))).
Proof.
  exists (Ok tt), [], x. intros cm c h o l Hl. unfold modify, with_heap. simpl.
  by rewrite list_insert_insert_eq.
Qed.

Lemma tracked_update s v (f : world → world) (u : update T) :
  (∀ w, f w = apply_update w u) → tracked s v (λ _, modify f).
Proof.
  intros Hf. exists (Ok tt), [u], v. intros cm c h o l Hl.
  unfold modify. by rewrite Hf.
Qed.

Lemma tracked_foldM s {A B} (f : nat → B → A → M B) (xs : list A) :
  (∀ b x v, tracked s v (λ l, f l b x)) →
  ∀ b v, tracked s v (λ l, foldM (f l) b xs).
Proof.
  intros Hf. induction xs as [|x xs IH]; intros b v; cbn [foldM].
  - apply tracked_ret.
  - apply (tracked_bind s v (λ l, f l b x) (λ l b', foldM (f l) b' xs)).
    + apply Hf.
    + intros b' v1. apply IH.
Qed.
End tracked_facts.

Ltac tracked_step :=
  lazymatch goal with
  | |- tracked _ _ (λ l, bind (@?m l) (@?k l)) =>
      apply (tracked_bind _ _ m k); [|intros ? ?; cbn beta]
  | |- tracked _ _ (λ l, match ?x with _ => _ end) => destruct x; cbn beta iota
  | |- tracked _ _ (λ _, ret _) => apply tracked_ret
  | |- tracked _ _ (λ _, raise _) => apply tracked_raise
  | |- tracked _ _ (λ _, diverge) => apply tracked_diverge
  | |- tracked _ _ (λ _, lift _) => apply tracked_lift
  | |- tracked _ _ (λ _, lookup_or _ _) => apply tracked_lookup_or
  | |- tracked _ _ (λ l, read (deref l)) => apply tracked_deref
  | |- tracked _ _ (λ _, read _) =>
      eapply tracked_read; intros; unfold gpu_lookup; simpl; reflexivity
  | |- tracked _ _ (λ _, read_or _ _) =>
      eapply tracked_read_or; intros; unfold gpu_lookup; simpl; reflexivity
  | |- tracked _ _ (λ l, modify (with_heap (<[l := _]>))) => apply tracked_store
  | |- tracked _ _ (λ _, modify (with_clients (set_scheduling_strategy ?c ?n))) =>
      apply (tracked_update _ _ _ (USched c n)); done
  | |- tracked _ _ (λ _, modify (with_clients (set_num_gpu ?c ?q))) =>
      apply (tracked_update _ _ _ (UGpu c q)); done
  | |- tracked _ _ (λ _, modify (with_self (set_client_configs_map (<[?c := ?r]>)))) =>
      apply (tracked_update _ _ _ (UConf c r)); done
  | |- tracked _ _ (λ _, modify (print ?p)) =>
      apply (tracked_update _ _ _ (UPrint p)); done
  end.

Section tracked_pass.
Context {T Poly SimpleCPU Parameters : Type}.
Context `{Numeric T} `{PolyLib T Poly}.
Implicit Types (s : Strategy T Poly SimpleCPU) (v : list (string * Z))
  (parameters : Parameters) (cfg : gmap string (Scalar T)).

Lemma associate_client_tracked s v parameters cfg node_id gpu_uuid n fits cw :
  tracked s v (λ _, associate_client parameters cfg node_id gpu_uuid n fits cw).
Proof. unfold associate_client. repeat tracked_step. Qed.

Lemma associate_step_tracked s v parameters cfg mapping st :
  tracked s v (λ l, associate_step parameters cfg l mapping st).
Proof.
  unfold associate_step. repeat tracked_step.
  apply (tracked_foldM s (λ _, associate_client _ _ _ _ _)).
  intros. apply associate_client_tracked.
Qed.

Lemma associate_loop_tracked s fuel parameters cfg mapping :
  ∀ v st, tracked s v (λ l, associate_loop fuel parameters cfg l mapping st).
Proof.
  induction fuel as [|fuel IH]; intros v st; cbn [associate_loop].
  - repeat tracked_step.
  - tracked_step; [tracked_step|]. tracked_step; [tracked_step|].
    tracked_step; [apply associate_step_tracked|apply IH].
Qed.

(** The result, the writes and the final list of a pass are determined by
    the strategy it reads and the contents of the list it is given. *)
Lemma associate_resources_tracked s v parameters cfg :
  tracked s v (λ l, associate_resources parameters cfg l).
Proof.
  unfold associate_resources. tracked_step; [tracked_step|].
  tracked_step; [tracked_step|]. tracked_step; [tracked_step|].
  tracked_step; [apply associate_loop_tracked|]. repeat tracked_step.
Qed.
End tracked_pass.

(** ** Writing the same assignment twice *)

Section idempotence.
Context {T : Type}.
Implicit Types (u x y : update T)
  (st : gmap string Resources * gmap string (string * string * Z)).

Lemma set_scheduling_strategy_lookup cid node_id (c : gmap string Resources) :
  set_scheduling_strategy cid node_id c !! cid =
  Some {| scheduling_strategy := Some node_id;
          num_gpu := num_gpu (default no_resources (c !! cid)) |}.
Proof. unfold set_scheduling_strategy. by rewrite lookup_insert_eq. Qed.

Lemma set_num_gpu_lookup cid share (c : gmap string Resources) :
  set_num_gpu cid share c !! cid =
  Some {| scheduling_strategy := scheduling_strategy (default no_resources (c !! cid));
          num_gpu := Some share |}.
Proof. unfold set_num_gpu. by rewrite lookup_insert_eq. Qed.

(* a later write to the same slot wins *)
Lemma write_same x y st : slot_of x = slot_of y → write (write st y) x = write st x.
Proof.
  destruct st as [c cm].
  destruct x as [cx nx|cx qx|cx rx|px], y as [cy ny|cy qy|cy ry|py];
    intros [= <-] || intros _; simpl; try done.
  - f_equal. unfold set_scheduling_strategy at 1.
    rewrite set_scheduling_strategy_lookup. simpl.
    unfold set_scheduling_strategy. by rewrite insert_insert_eq.
  - f_equal. unfold set_num_gpu at 1.
    rewrite set_num_gpu_lookup. simpl.
    unfold set_num_gpu. by rewrite insert_insert_eq.
  - f_equal. by rewrite insert_insert_eq.
Qed.

(* writes to different slots commute *)
Lemma write_comm x y st :
  slot_of x ≠ slot_of y → write (write st y) x = write (write st x) y.
Proof.
  destruct st as [c cm].
  destruct x as [cx nx|cx qx|cx rx|px], y as [cy ny|cy qy|cy ry|py];
    intros Hne; simpl in *; try done.
  - assert (cx ≠ cy) by congruence. f_equal.
    unfold set_scheduling_strategy.
    rewrite !lookup_insert_ne by done. by rewrite insert_insert_ne.
  - f_equal. unfold set_scheduling_strategy, set_num_gpu.
    destruct (decide (cx = cy)) as [->|Hc].
    + rewrite !lookup_insert_eq. simpl. by rewrite !insert_insert_eq.
    + rewrite !lookup_insert_ne by done. by rewrite insert_insert_ne.
  - f_equal. unfold set_scheduling_strategy, set_num_gpu.
    destruct (decide (cx = cy)) as [->|Hc].
    + rewrite !lookup_insert_eq. simpl. by rewrite !insert_insert_eq.
    + rewrite !lookup_insert_ne by done. by rewrite insert_insert_ne.
  - assert (cx ≠ cy) by congruence. f_equal.
    unfold set_num_gpu.
    rewrite !lookup_insert_ne by done. by rewrite insert_insert_ne.
  - assert (cx ≠ cy) by congruence. f_equal. by rewrite insert_insert_ne.
Qed.

Lemma write_absorb (us : list (update T)) x st :
  write (foldl write (write st x) us) x = write (foldl write st us) x.
Proof.
  revert st. induction us as [|y us IH] using rev_ind; intros st.
  - simpl. by apply write_same.
  - rewrite !foldl_app. simpl.
    destruct (decide (slot_of x = slot_of y)) as [Heq|Hne].
    + rewrite !(write_same x y) by done. apply IH.
    + rewrite !(write_comm x y) by done. by rewrite IH.
Qed.

(** Writing a sequence of assignments twice leaves what writing it once
    leaves. *)
Lemma write_twice (us : list (update T)) st :
  foldl write (foldl write st us) us = foldl write st us.
Proof.
  revert st. induction us as [|x us IH] using rev_ind; intros st; [done|].
  rewrite !foldl_app. simpl. rewrite write_absorb. by rewrite IH.
Qed.

Lemma assignment_of_apply_update {Poly SimpleCPU} (w : World T Poly SimpleCPU) u :
  assignment_of (apply_update w u) = write (assignment_of w) u.
Proof. by destruct u. Qed.

Lemma assignment_of_apply_updates {Poly SimpleCPU} us (w : World T Poly SimpleCPU) :
  assignment_of (apply_updates us w) = foldl write (assignment_of w) us.
Proof.
  revert w. induction us as [|u us IH]; intros w; [done|].
  unfold apply_updates in *. simpl. by rewrite IH, assignment_of_apply_update.
Qed.
End idempotence.

(** ** The built-ins of the scheduler *)

Section sort_facts.
Context {A : Type} (key : A → Z).

Lemma insert_desc_perm x l : Permutation (x :: l) (insert_desc key x l).
Proof.
  induction l as [|y l IH]; simpl; [done|].
  destruct (key y <=? key x)%Z; [done|].
  rewrite <- IH. apply perm_swap.
Qed.

Lemma sort_reverse_perm l : Permutation l (sort_reverse key l).
Proof.
  induction l as [|x l IH]; simpl; [done|].
  rewrite <- insert_desc_perm. by constructor.
Qed.

Lemma insert_desc_sorted x l :
  StronglySorted (λ a b, (key b ≤ key a)%Z) l →
  StronglySorted (λ a b, (key b ≤ key a)%Z) (insert_desc key x l).
Proof.
  induction 1 as [|y l Hs IH Hy]; simpl.
  - repeat constructor.
  - destruct (key y <=? key x)%Z eqn:Hle.
    + apply Z.leb_le in Hle. constructor; [by constructor|].
      constructor; [done|]. rewrite Forall_forall in Hy |- *.
      intros z Hz. specialize (Hy z Hz). simpl in *. lia.
    + apply Z.leb_gt in Hle. constructor; [done|].
      rewrite <- insert_desc_perm. constructor; [simpl; lia|done].
Qed.

Lemma sort_reverse_sorted l :
  StronglySorted (λ a b, (key b ≤ key a)%Z) (sort_reverse key l).
Proof.
  induction l as [|x l IH]; simpl; [constructor|]. by apply insert_desc_sorted.
Qed.

Lemma insert_desc_filter k x l :
  filter (λ u, key u = k) (insert_desc key x l) = filter (λ u, key u = k) (x :: l).
Proof.
  induction l as [|y l IH]; simpl; [done|].
  destruct (key y <=? key x)%Z eqn:Hle; [done|].
  apply Z.leb_gt in Hle.
  rewrite (filter_cons _ y), IH, !filter_cons.
  repeat case_decide; try done; lia.
Qed.

Lemma sort_reverse_stable k l :
  filter (λ u, key u = k) (sort_reverse key l) = filter (λ u, key u = k) l.
Proof.
  induction l as [|x l IH]; simpl; [done|].
  by rewrite insert_desc_filter, !filter_cons, IH.
Qed.
End sort_facts.

Section min_facts.
Context {T : Type} `{NumericOrder T}.

Lemma eqb_refl (x : T) : eqb x x = true.
Proof. by apply eqb_eq. Qed.

Lemma eqb_neq (x y : T) : eqb x y = false ↔ x ≠ y.
Proof.
  split.
  - intros Hf Heq. apply eqb_eq in Heq. congruence.
  - intros Hne. destruct (eqb x y) eqn:Heq; [|done]. by apply eqb_eq in Heq.
Qed.

Lemma min_from_spec (m : T) l :
  min_from m l ∈ m :: l ∧ ∀ u, u ∈ m :: l → ltb u (min_from m l) = false.
Proof.
  revert m. induction l as [|x l IH]; intros m; simpl.
  - split; [left|]. intros u ->%list_elem_of_singleton. apply ltb_irrefl.
  - destruct (IH (if ltb x m then x else m)) as [Hin Hmin].
    set (v := min_from (if ltb x m then x else m) l) in *.
    split.
    + apply elem_of_cons in Hin as [Hin|Hin]; [|by do 2 right].
      rewrite Hin. destruct (ltb x m); [right|]; left.
    + assert (Hm' : ltb (if ltb x m then x else m) v = false) by (apply Hmin; left).
      intros u [->|[->|Hu]%elem_of_cons]%elem_of_cons.
      * destruct (ltb x m) eqn:Hxm; [|done].
        destruct (ltb m v) eqn:Hmv; [|done].
        by rewrite (ltb_trans x m v) in Hm'.
      * destruct (ltb x m) eqn:Hxm; [done|].
        destruct (ltb x v) eqn:Hxv; [|done].
        destruct (ltb v m) eqn:Hvm.
        -- by rewrite (ltb_trans x v m) in Hxm.
        -- assert (Hmv : m = v) by by apply ltb_total.
           rewrite <- Hmv in Hxv. congruence.
      * apply Hmin. by right.
Qed.

Lemma py_index_spec (v : T) l :
  v ∈ l →
  ∃ i, py_index v l = Ok i ∧ l !! i = Some v ∧
       ∀ j u, j < i → l !! j = Some u → u ≠ v.
Proof.
  induction l as [|x l IH]; [by intros ?%elem_of_nil|].
  intros Hin. simpl. destruct (eqb x v) eqn:Hxv.
  - apply eqb_eq in Hxv as ->. exists 0. repeat split. intros j u Hj. lia.
  - apply eqb_neq in Hxv.
    apply elem_of_cons in Hin as [->|Hin]; [done|].
    destruct (IH Hin) as (i & -> & Hi & Hlt). exists (S i). repeat split; [done|].
    intros [|j] u Hj; simpl; [by intros [= <-]|].
    apply Hlt. lia.
Qed.

(** [expected_training_times.index(min(expected_training_times))] is the
    first device of minimum load. *)
Lemma first_min_device (loads : list T) :
  loads ≠ [] →
  ∃ m i, py_min loads = Ok m ∧ py_index m loads = Ok i ∧ min_load_device loads i.
Proof.
  destruct loads as [|x l]; [done|]. intros _. simpl py_min.
  destruct (min_from_spec x l) as [Hin Hmin].
  destruct (py_index_spec _ _ Hin) as (i & Hidx & Hi & Hfirst).
  exists (min_from x l), i. repeat split; [done|].
  exists (min_from x l). repeat split; [done| |].
  - intros j u Hj. apply Hmin. by eapply list_elem_of_lookup_2.
  - intros j u Hj Hu.
    destruct (ltb (min_from x l) u) eqn:Hlt; [done|].
    exfalso. apply (Hfirst j u Hj Hu). apply ltb_total; [|done].
    apply Hmin. by eapply list_elem_of_lookup_2.
Qed.

Lemma py_max_zeros n : py_max (replicate (S n) (zero : T)) = Ok zero.
Proof.
  simpl. f_equal. induction n as [|n IH]; simpl; [done|].
  by rewrite ltb_irrefl.
Qed.

Lemma py_max_singleton (x : T) : py_max [x] = Ok x.
Proof. done. Qed.

Lemma py_index_singleton (x : T) : py_index x [x] = Ok 0.
Proof. simpl. by rewrite eqb_refl. Qed.

Lemma min_load_device_unique (loads : list T) i j :
  min_load_device loads i → min_load_device loads j → i = j.
Proof.
  intros (v & Hi & Hmin & Hfirst) (v' & Hj & Hmin' & Hfirst').
  destruct (Nat.lt_trichotomy i j) as [Hlt|[->|Hlt]]; [|done|].
  - specialize (Hfirst' i v Hlt Hi). by rewrite (Hmin j v' Hj) in Hfirst'.
  - specialize (Hfirst j v' Hlt Hj). by rewrite (Hmin' i v Hi) in Hfirst.
Qed.
End min_facts.

(** ** The fuel of the loop is enough *)

Section total.
Context {T Poly SimpleCPU Parameters : Type}.
Context `{Numeric T} `{PolyLib T Poly}.
Implicit Types (s : Strategy T Poly SimpleCPU) (v : list (string * Z))
  (parameters : Parameters) (cfg : gmap string (Scalar T)).

Lemma tracked_with_intro s v {A} (m : nat → M A) r us v'
    (Q : result A → list (string * Z) → Prop) :
  runs s v m r us v' → Q r v' → tracked_with s v m Q.
Proof. intros Hm HQ. by exists r, us, v'. Qed.

Lemma tracked_with_bind s v {A B} (m : nat → M A) (k : nat → A → M B)
    (Q1 : result A → list (string * Z) → Prop)
    (Q2 : result B → list (string * Z) → Prop) :
  tracked_with s v m Q1 →
  (∀ a v1, Q1 (Ok a) v1 → tracked_with s v1 (λ l, k l a) Q2) →
  (∀ e v1, Q1 (Raise e) v1 → Q2 (Raise e) v1) →
  (∀ v1, Q1 Diverge v1 → Q2 Diverge v1) →
  tracked_with s v (λ l, bind (m l) (k l)) Q2.
Proof.
  intros (r & us1 & v1 & Hm & HQ1) Hk He Hd. destruct r as [a|e|].
  - destruct (Hk a v1 HQ1) as (r & us2 & v2 & Hka & HQ2).
    exists r, (us1 ++ us2), v2. split; [by eapply runs_bind|done].
  - exists (Raise e), us1, v1. split; [by eapply runs_bind_raise|by apply He].
  - exists Diverge, us1, v1. split; [by eapply runs_bind_diverge|by apply Hd].
Qed.

(* a step that leaves the list alone and does not diverge *)
Definition quiet v {A} (r : result A) (v' : list (string * Z)) : Prop :=
  r ≠ Diverge ∧ v' = v.

Lemma tracked_quiet s v {A} (m : nat → M A) :
  tracked s v m →
  (∀ r us v', runs s v m r us v' → quiet v r v') →
  tracked_with s v m (quiet v).
Proof. intros (r & us & v' & Hm) HQ. exists r, us, v'. split; [done|by eapply HQ]. Qed.

Lemma py_min_returns (l : list T) : py_min l ≠ Diverge.
Proof. by destruct l. Qed.

Lemma py_index_returns (x : T) l : py_index x l ≠ Diverge.
Proof.
  induction l as [|y l IH]; simpl; [done|].
  destruct (eqb y x); [done|]. by destruct (py_index x l).
Qed.

Lemma py_max_returns (l : list T) : py_max l ≠ Diverge.
Proof. by destruct l. Qed.

Lemma py_truediv_1_returns n : py_truediv_1 n ≠ Diverge.
Proof. unfold py_truediv_1. by destruct (n =? 0)%Z. Qed.

Lemma quiet_bind s v {A B} (m : nat → M A) (k : nat → A → M B)
    (Q : result B → list (string * Z) → Prop) :
  tracked_with s v m (quiet v) →
  (∀ a, tracked_with s v (λ l, k l a) Q) →
  (∀ e, Q (Raise e) v) →
  tracked_with s v (λ l, bind (m l) (k l)) Q.
Proof.
  intros Hm Hk He. eapply tracked_with_bind; [exact Hm| | |].
  - intros a v1 [_ ->]. apply Hk.
  - intros e v1 [_ ->]. apply He.
  - by intros v1 [? _].
Qed.

Lemma quiet_lift s v {A} (x : result A) :
  x ≠ Diverge → tracked_with s v (λ _, lift x) (quiet v).
Proof. intros Hx. eapply tracked_with_intro; [apply runs_lift|done]. Qed.

Lemma quiet_lookup_or s v {A} e (o : option A) :
  tracked_with s v (λ _, lookup_or e o) (quiet v).
Proof.
  destruct o; (eapply tracked_with_intro; [apply runs_ret || apply runs_raise|done]).
Qed.

Lemma quiet_read_or s v {A} e (f : World T Poly SimpleCPU → option A) x :
  (∀ cm c h o, f (variant s cm c h o) = x) →
  tracked_with s v (λ _, read_or e f) (quiet v).
Proof.
  intros Hf. destruct x as [a|].
  - exists (Ok a), [], v. split; [|done].
    intros cm c h o l Hl. unfold read_or. by rewrite Hf.
  - exists (Raise e), [], v. split; [|done].
    intros cm c h o l Hl. unfold read_or. by rewrite Hf.
Qed.

Lemma quiet_update s v (f : World T Poly SimpleCPU → World T Poly SimpleCPU)
    (u : update T) :
  (∀ w, f w = apply_update w u) → tracked_with s v (λ _, modify f) (quiet v).
Proof.
  intros Hf. exists (Ok tt), [u], v. split; [|done].
  intros cm c h o l Hl. unfold modify. by rewrite Hf.
Qed.

Lemma quiet_ret s v {A} (a : A) : tracked_with s v (λ _, ret a) (quiet v).
Proof. eapply tracked_with_intro; [apply runs_ret|done]. Qed.

Lemma associate_client_quiet s v parameters cfg node_id gpu_uuid n fits cw :
  tracked_with s v
    (λ _, associate_client parameters cfg node_id gpu_uuid n fits cw) (quiet v).
Proof.
  unfold associate_client. destruct cw as [client num_steps].
  apply (quiet_bind s v (λ _, _) (λ _ _, _));
    [by apply (quiet_update s v _ (USched client node_id))| |done].
  intros _. apply (quiet_bind s v (λ _, _) (λ _ _, _));
    [apply quiet_lift, py_truediv_1_returns| |done].
  intros share. apply (quiet_bind s v (λ _, _) (λ _ _, _));
    [by apply (quiet_update s v _ (UGpu client share))| |done].
  intros _. apply (quiet_bind s v (λ _, _) (λ _ _, _));
    [by apply (quiet_update s v _ (UConf client (node_id, gpu_uuid, num_steps)))| |done].
  intros _. apply quiet_ret.
Qed.

Lemma associate_clients_quiet s v parameters cfg node_id gpu_uuid n these :
  ∀ fits, tracked_with s v
    (λ _, foldM (associate_client parameters cfg node_id gpu_uuid n) fits these)
    (quiet v).
Proof.
  induction these as [|cw these IH]; intros fits; cbn [foldM].
  - apply quiet_ret.
  - apply (quiet_bind s v (λ _, _) (λ _ b, foldM _ b these));
      [apply associate_client_quiet|apply IH|done].
Qed.

Lemma py_del_shorter {A} n (l : list A) x :
  head (py_take n l) = Some x → length (py_del n l) < length l.
Proof.
  unfold py_take, py_del. destruct (slice_stop n l) as [|k]; [by rewrite take_0|].
  destruct l; [done|]. intros _. rewrite length_drop. simpl. lia.
Qed.

(* an iteration either raises or removes a unit from the list *)
Lemma associate_step_shrinks s v parameters cfg mapping st :
  tracked_with s v (λ l, associate_step parameters cfg l mapping st)
    (λ r v', r ≠ Diverge ∧ ∀ a, r = Ok a → length v' < length v).
Proof.
  unfold associate_step. destruct st as [times fits].
  apply (quiet_bind s v (λ _, _) (λ _ _, _));
    [apply quiet_lift, py_min_returns| |done].
  intros m. apply (quiet_bind s v (λ _, _) (λ _ _, _));
    [apply quiet_lift, py_index_returns| |done].
  intros idx. apply (quiet_bind s v (λ _, _) (λ _ _, _));
    [apply quiet_lookup_or| |done].
  intros [node_id gpu_uuid]. apply (quiet_bind s v (λ _, _) (λ _ _, _));
    [by eapply (quiet_read_or s v _ _ (gpu_lookup node_id gpu_uuid s))| |done].
  intros gpu. apply (quiet_bind s v (λ _, _) (λ _ _, _));
    [by eapply (quiet_read_or s v _ _
                  (dict_get (node_id, gpu_uuid) (resources_model s)))| |done].
  intros [model_poly max_num_clients].
  apply (tracked_with_bind s v (λ l, read (deref l)) _
           (λ r v1, r = Ok v ∧ v1 = v)).
  { exists (Ok v), [], v. split; [|done].
    intros cm c h o l Hl. unfold read, deref. simpl.
    by rewrite list_lookup_insert_eq. }
  2: by intros e v1 [? _]. 2: by intros v1 [? _].
  intros cww v1 [[= ->] ->].
  destruct (head (py_take (Z.min max_num_clients (Z.of_nat (length v))) v))
    as [first|] eqn:Hhead; last first.
  { eapply tracked_with_intro;
      [eapply runs_bind_raise; by apply runs_lookup_none|done]. }
  apply (quiet_bind s v (λ _, _) (λ _ _, _));
    [apply quiet_lookup_or| |done].
  intros first'. apply (quiet_bind s v (λ _, _) (λ _ _, _));
    [apply quiet_lookup_or| |done].
  intros current. apply (quiet_bind s v (λ _, _) (λ _ _, _));
    [apply associate_clients_quiet| |done].
  intros fits'. eapply tracked_with_intro.
  - eapply runs_bind_store. apply runs_ret.
  - split; [done|]. intros _ _. by eapply py_del_shorter.
Qed.

Lemma associate_loop_total s parameters cfg mapping fuel :
  ∀ v st, length v ≤ fuel →
    tracked_with s v (λ l, associate_loop fuel parameters cfg l mapping st)
      (λ r _, r ≠ Diverge).
Proof.
  induction fuel as [|fuel IH]; intros v st Hfuel; cbn [associate_loop].
  - destruct v; [|simpl in Hfuel; lia].
    eapply tracked_with_intro; [eapply runs_bind_deref; apply runs_ret|done].
  - destruct v as [|u v'].
    { eapply tracked_with_intro; [eapply runs_bind_deref; apply runs_ret|done]. }
    destruct (associate_step_shrinks s (u :: v') parameters cfg mapping st)
      as (r1 & us1 & v1 & Hstep & Hr1 & Hshrink).
    destruct r1 as [st'|e|]; [|eapply tracked_with_intro;
      [eapply runs_bind_deref; by eapply runs_bind_raise|done]|done].
    destruct (IH v1 st') as (r2 & us2 & v2 & Hloop & Hr2).
    { specialize (Hshrink st' eq_refl). simpl in *. lia. }
    eapply tracked_with_intro; [|exact Hr2].
    eapply runs_bind_deref.
    by eapply (runs_bind s (u :: v') (λ l, associate_step _ _ l _ _)
                 (λ l st', associate_loop fuel _ _ l _ st')).
Qed.

(** X8: the while loop of associate_resources terminates whatever the model
    map holds, capacities of 0 or below included: every iteration either
    raises or deletes at least one unit, so on a valid list object the pass
    returns or raises within len(units) iterations. *)
Lemma associate_resources_total parameters cfg (w : World T Poly SimpleCPU) l units :
  heap w !! l = Some units →
  (associate_resources parameters cfg l w).1 ≠ Diverge.
Proof.
  intros Hl.
  destruct (associate_loop_total (self w) parameters cfg
              (dict_keys (resources_model (self w)))
              (length units) (sort_reverse snd units)
              (replicate (length (resources_model (self w))) zero, []))
    as (r1 & us1 & v1 & Hloop & Hr1).
  { by rewrite <- (Permutation_length (sort_reverse_perm snd units)). }
  assert (Hruns : tracked_with (self w) units
            (λ l, associate_resources parameters cfg l) (λ r _, r ≠ Diverge)).
  { unfold associate_resources.
    destruct r1 as [st|e|]; [| |done].
    - destruct (py_max st.1) as [m|e|] eqn:Hmax; [| |by apply py_max_returns in Hmax].
      + eapply (tracked_with_intro _ _ _ (Ok st.2)); [|done].
        eapply runs_bind_deref. eapply runs_bind_store.
        eapply (runs_bind_read (self w) _ _ _ (resources_model (self w))); [done|].
        eapply (runs_bind (self w) _ (λ l, associate_loop _ _ _ l _ _)); [exact Hloop|].
        eapply runs_bind_lift; [exact Hmax|].
        eapply (runs_bind_update (self w) _ _ (UPrint (PrintExpected m))); [done|].
        apply runs_ret.
      + eapply (tracked_with_intro _ _ _ (Raise e)); [|done].
        eapply runs_bind_deref. eapply runs_bind_store.
        eapply (runs_bind_read (self w) _ _ _ (resources_model (self w))); [done|].
        eapply (runs_bind (self w) _ (λ l, associate_loop _ _ _ l _ _)); [exact Hloop|].
        eapply runs_bind_raise. rewrite Hmax. apply runs_lift.
    - eapply (tracked_with_intro _ _ _ (Raise e)); [|done].
      eapply runs_bind_deref. eapply runs_bind_store.
      eapply (runs_bind_read (self w) _ _ _ (resources_model (self w))); [done|].
      by eapply runs_bind_raise. }
  destruct Hruns as (r & us & v' & Hruns & Hr).
  by rewrite (runs_world _ _ _ _ _ _ w l Hruns eq_refl Hl).
Qed.
End total.

(** ** The scheduling pass on a well-formed model map *)

Section assign_facts.
Context {T Poly SimpleCPU Parameters : Type}.
Context `{NumericOrder T} `{PolyLib T Poly}.
Implicit Types (s : Strategy T Poly SimpleCPU) (v rem : list (string * Z))
  (parameters : Parameters) (cfg : gmap string (Scalar T)).

Lemma py_truediv_1_pos n :
  n ≠ 0 → py_truediv_1 (Z.of_nat n) = Ok (Qmake 1 (Pos.of_nat n)).
Proof.
  destruct n as [|n]; [done|]. intros _. unfold py_truediv_1.
  change (Z.of_nat (S n)) with (Z.pos (Pos.of_succ_nat n)). simpl.
  by rewrite Pos.of_nat_succ.
Qed.

Lemma associate_client_runs s v parameters cfg d gpu n fits u :
  n ≠ 0 →
  runs s v
    (λ _, associate_client parameters (<["gpu_id" := SInt (gpu_id gpu)]> cfg)
            d.1 d.2 (Z.of_nat n) fits u)
    (Ok (fits ++ [fit_of parameters cfg (place d gpu n u)]))
    (updates_of (place d gpu n u)) v.
Proof.
  intros Hn. unfold associate_client. destruct u as [client num_steps].
  apply (runs_bind_update s v _ (USched client d.1) (λ _ _, _)); [done|].
  apply (runs_bind_lift s v _ (λ _ _, _) _ _ _ _ (py_truediv_1_pos n Hn)).
  apply (runs_bind_update s v _ (UGpu client (Qmake 1 (Pos.of_nat n))) (λ _ _, _)); [done|].
  apply (runs_bind_update s v _
           (UConf client (d.1, d.2, num_steps)) (λ _ _, _)); [done|].
  apply runs_ret.
Qed.

Lemma associate_clients_runs s v parameters cfg d gpu n these fits :
  n ≠ 0 →
  runs s v
    (λ _, foldM (associate_client parameters (<["gpu_id" := SInt (gpu_id gpu)]> cfg)
                   d.1 d.2 (Z.of_nat n)) fits these)
    (Ok (fits ++ (fit_of parameters cfg <$> (place d gpu n <$> these))))
    (concat (updates_of <$> (place d gpu n <$> these))) v.
Proof.
  intros Hn. revert fits. induction these as [|u these IH]; intros fits.
  - simpl. rewrite app_nil_r. apply runs_ret.
  - rewrite !fmap_cons. cbn [foldM].
    replace (fits ++ fit_of parameters cfg (place d gpu n u)
               :: (fit_of parameters cfg <$> (place d gpu n <$> these)))
      with ((fits ++ [fit_of parameters cfg (place d gpu n u)])
               ++ (fit_of parameters cfg <$> (place d gpu n <$> these)))
      by (by rewrite <- app_assoc).
    eapply (runs_bind_eq s v (λ _, _) (λ _ b, foldM _ b these)).
    + by apply associate_client_runs.
    + apply IH.
    + done.
Qed.

Lemma associate_clients_runs_eq s v parameters cfg this_config node_id gpu_uuid
    actual these' d gpu n these fits :
  n ≠ 0 →
  this_config = <["gpu_id" := SInt (gpu_id gpu)]> cfg →
  (node_id, gpu_uuid) = d →
  actual = Z.of_nat n →
  these' = these →
  runs s v
    (λ _, foldM (associate_client parameters this_config node_id gpu_uuid actual)
                fits these')
    (Ok (fits ++ (fit_of parameters cfg <$> (place d gpu n <$> these))))
    (concat (updates_of <$> (place d gpu n <$> these))) v.
Proof. intros Hn -> <- -> ->. by apply (associate_clients_runs s v _ _ (_, _)). Qed.

Lemma batch_length rem cap :
  (1 ≤ cap)%Z →
  Z.of_nat (length (take (Z.to_nat (Z.min cap (Z.of_nat (length rem)))) rem))
  = Z.min cap (Z.of_nat (length rem)).
Proof. intros Hcap. rewrite length_take. lia. Qed.

Lemma py_take_batch rem cap :
  (1 ≤ cap)%Z →
  py_take (Z.min cap (Z.of_nat (length rem))) rem
  = take (Z.to_nat (Z.min cap (Z.of_nat (length rem)))) rem.
Proof.
  intros Hcap. unfold py_take, slice_stop.
  destruct (Z.leb_spec 0 (Z.min cap (Z.of_nat (length rem)))); [done|lia].
Qed.

Lemma py_del_batch rem cap :
  (1 ≤ cap)%Z →
  py_del (Z.min cap (Z.of_nat (length rem))) rem
  = drop (length (take (Z.to_nat (Z.min cap (Z.of_nat (length rem)))) rem)) rem.
Proof.
  intros Hcap. unfold py_del, slice_stop.
  destruct (Z.leb_spec 0 (Z.min cap (Z.of_nat (length rem)))); [|lia].
  f_equal. rewrite length_take. lia.
Qed.

(* one iteration, when the chosen device has capacity >= 1 *)
Lemma associate_step_runs s parameters cfg mapping loads fits rem u rem' m i d gpu
    poly cap cur :
  rem = u :: rem' →
  py_min loads = Ok m →
  py_index m loads = Ok i →
  mapping !! i = Some d →
  gpu_lookup d.1 d.2 s = Some gpu →
  dict_get d (resources_model s) = Some (poly, cap) →
  (1 ≤ cap)%Z →
  loads !! i = Some cur →
  let batch := take (Z.to_nat (Z.min cap (Z.of_nat (length rem)))) rem in
  runs s rem (λ l, associate_step parameters cfg l mapping (loads, fits))
    (Ok (<[i := add cur (poly_call poly u.2)]> loads,
         fits ++ (fit_of parameters cfg <$> (place d gpu (length batch) <$> batch))))
    (concat (updates_of <$> (place d gpu (length batch) <$> batch)))
    (drop (length batch) rem).
Proof.
  intros Hrem Hmin Hidx Hmap Hgpu Hmodel Hcap Hcur batch.
  assert (Hhead : head (py_take (Z.min cap (Z.of_nat (length rem))) rem) = Some u).
  { rewrite py_take_batch by done. subst rem. simpl.
    destruct (Z.to_nat _) eqn:Hn; [simpl in Hn; lia|done]. }
  assert (Hlen : length batch ≠ 0).
  { pose proof (batch_length rem cap Hcap) as Hb. subst rem; simpl in *.
    fold batch in Hb. lia. }
  destruct d as [node_id gpu_uuid]. unfold associate_step.
  eapply runs_eq.
  - eapply runs_bind_lift; [exact Hmin|].
    eapply runs_bind_lift; [exact Hidx|].
    eapply runs_bind_lookup; [exact Hmap|].
    eapply (runs_bind_read_or s rem KeyError _ _ gpu); [intros; exact Hgpu|].
    eapply (runs_bind_read_or s rem KeyError _ _ (poly, cap)); [intros; exact Hmodel|].
    eapply runs_bind_deref.
    eapply runs_bind_lookup; [exact Hhead|].
    eapply runs_bind_lookup; [exact Hcur|].
    eapply (runs_bind_eq s rem (λ _, foldM _ _ _)).
    + eapply (associate_clients_runs_eq s rem parameters cfg _ _ _ _ _
                (node_id, gpu_uuid) gpu (length batch) batch fits Hlen);
        [done|done| |].
      * symmetry. apply (batch_length rem cap Hcap).
      * by apply py_take_batch.
    + eapply runs_bind_store. apply runs_ret.
    + done.
  - done.
  - by rewrite app_nil_r.
  - by apply py_del_batch.
Qed.

Lemma StronglySorted_drop {X} (R : X → X → Prop) n (l : list X) :
  StronglySorted R l → StronglySorted R (drop n l).
Proof.
  intros Hs. revert n. induction Hs as [|x l Hs IH Hx]; intros [|n]; simpl;
    [constructor|constructor|by constructor|apply IH].
Qed.

Lemma largest_is_first (u : string * Z) rem' n :
  StronglySorted (λ a b, (b.2 ≤ a.2)%Z) (u :: rem') → n ≠ 0 →
  largest_weight (take n (u :: rem')) u.2.
Proof.
  intros Hs Hn. destruct n as [|n]; [done|]. simpl. split.
  - exists u.1. destruct u. left.
  - apply StronglySorted_inv in Hs as [_ Hall]. rewrite Forall_forall in Hall.
    intros x [->|Hx]%elem_of_cons; [lia|].
    apply Hall. apply elem_of_take in Hx as (j & Hj & _).
    by eapply list_elem_of_lookup_2.
Qed.

Section well_formed.
Context (s : Strategy T Poly SimpleCPU) (parameters : Parameters)
  (cfg : gmap string (Scalar T)).
Context (Hne : resources_model s ≠ []).
Context (Hcap : capacity_ok (resources_model s)).
Context (Hnd : NoDup (dict_keys (resources_model s))).
Context (Hgpus : ∀ d, d ∈ dict_keys (resources_model s) →
                      is_Some (gpu_lookup d.1 d.2 s)).

Lemma associate_loop_runs fuel rem loads fits :
  length rem ≤ fuel →
  StronglySorted (λ a b, (b.2 ≤ a.2)%Z) rem →
  length loads = length (resources_model s) →
  ∃ loads' out,
    greedy s loads rem loads' out ∧
    length loads' = length (resources_model s) ∧
    runs s rem
      (λ l, associate_loop fuel parameters cfg l (dict_keys (resources_model s))
              (loads, fits))
      (Ok (loads', fits ++ (fit_of parameters cfg <$> out)))
      (concat (updates_of <$> out)) [].
Proof.
  revert rem loads fits.
  induction fuel as [|fuel IH]; intros rem loads fits Hfuel Hsorted Hloads.
  - destruct rem as [|u rem']; [|simpl in Hfuel; lia].
    exists loads, []. split; [constructor|]. split; [done|].
    simpl. eapply runs_bind_deref. rewrite app_nil_r. apply runs_ret.
  - destruct rem as [|u rem'].
    { exists loads, []. split; [constructor|]. split; [done|].
      simpl. eapply runs_bind_deref. rewrite app_nil_r. apply runs_ret. }
    destruct (first_min_device loads) as (m & i & Hmin & Hidx & Hdev).
    { intros ->. simpl in Hloads. by destruct (resources_model s). }
    destruct Hdev as (cur & Hcur & Hdev).
    destruct (lookup_lt_is_Some_2 (resources_model s) i) as [[d [poly cap]] Hmodel].
    { rewrite <- Hloads. by eapply lookup_lt_Some. }
    assert (Hkey : dict_keys (resources_model s) !! i = Some d).
    { unfold dict_keys. by rewrite list_lookup_fmap, Hmodel. }
    destruct (Hgpus d) as [gpu Hgpu]; [by eapply list_elem_of_lookup_2|].
    assert (Hget : dict_get d (resources_model s) = Some (poly, cap)).
    { apply dict_get_NoDup; [done|]. by eapply list_elem_of_lookup_2. }
    assert (Hcap1 : (1 ≤ cap)%Z).
    { unfold capacity_ok in Hcap. rewrite Forall_forall in Hcap.
      apply (Hcap (d, (poly, cap))). by eapply list_elem_of_lookup_2. }
    set (rem := u :: rem') in *.
    set (batch := take (Z.to_nat (Z.min cap (Z.of_nat (length rem)))) rem).
    assert (Hblen : length batch ≠ 0 ∧ Z.to_nat (Z.min cap (Z.of_nat (length rem))) ≠ 0).
    { pose proof (batch_length rem cap Hcap1) as Hb. fold batch in Hb.
      subst rem. simpl in *. lia. }
    destruct Hblen as [Hblen Hn].
    destruct (IH (drop (length batch) rem)
                 (<[i := add cur (poly_call poly u.2)]> loads)
                 (fits ++ (fit_of parameters cfg <$> (place d gpu (length batch) <$> batch))))
      as (loads' & out & Hgreedy & Hlen' & Hruns).
    { rewrite length_drop. subst rem. simpl in *. lia. }
    { by apply StronglySorted_drop. }
    { by rewrite length_insert. }
    exists loads', ((place d gpu (length batch) <$> batch) ++ out).
    split; [|split; [done|]].
    + eapply (greedy_batch s loads rem i d poly cap gpu batch u.2 cur); try done.
      * by exists cur.
      * by apply largest_is_first.
    + rewrite (fmap_app (fit_of parameters cfg)), app_assoc.
      cbn [associate_loop]. eapply runs_bind_deref.
      eapply (runs_bind_eq s rem (λ l, associate_step _ _ l _ _)).
      * by eapply (associate_step_runs s parameters cfg _ loads fits rem u rem' m i d gpu).
      * exact Hruns.
      * by rewrite fmap_app, concat_app.
Qed.

Lemma max_from_Ok (loads : list T) : loads ≠ [] → ∃ m, py_max loads = Ok m.
Proof. destruct loads; [done|]. by eexists. Qed.

(* the whole pass: sort, greedy loop, report *)
Lemma associate_resources_runs units :
  ∃ sorted loads out makespan,
    sorted_by_weight units sorted ∧
    greedy s (replicate (length (resources_model s)) zero) sorted loads out ∧
    py_max loads = Ok makespan ∧
    runs s units (λ l, associate_resources parameters cfg l)
      (Ok (fit_of parameters cfg <$> out))
      (concat (updates_of <$> out) ++ [UPrint (PrintExpected makespan)]) [].
Proof.
  destruct (associate_loop_runs (length units) (sort_reverse snd units)
              (replicate (length (resources_model s)) zero) [])
    as (loads & out & Hgreedy & Hlen & Hruns).
  { by rewrite <- (Permutation_length (sort_reverse_perm snd units)). }
  { apply sort_reverse_sorted. }
  { by rewrite length_replicate. }
  destruct (max_from_Ok loads) as [makespan Hmax].
  { intros ->. simpl in Hlen. by destruct (resources_model s). }
  exists (sort_reverse snd units), loads, out, makespan.
  split; [|split; [done|split; [done|]]].
  { split; [apply sort_reverse_perm|]. split; [apply sort_reverse_sorted|].
    intros k. apply (sort_reverse_stable snd). }
  unfold associate_resources.
  eapply runs_bind_deref. eapply runs_bind_store.
  eapply (runs_bind_read s _ _ _ (resources_model s)); [done|].
  eapply (runs_bind_eq s _ (λ l, associate_loop _ _ _ l _ _)).
  - exact Hruns.
  - eapply runs_bind_lift; [exact Hmax|].
    eapply (runs_bind_update s _ _ (UPrint (PrintExpected makespan))); [done|].
    apply runs_ret.
  - done.
Qed.
End well_formed.
End assign_facts.

Example ex_three_rounds :
  match ex_rounds.1 with Ok fits => Some fits.*1 | _ => None end
    = Some ["c1"; "c2"; "c3"] ∧
  resources_model (self ex_rounds.2) = [(("node-a", "GPU-0"), ([3; 7]%Z, 4%Z))] ∧
  stdout ex_rounds.2 =
    [PrintMaxClients "node-a" "GPU-0" 4; PrintAggregateFit 2; PrintConfigFit 3;
     PrintExpected 213%Z] ∧
  heap ex_rounds.2 = [[]].
Proof. repeat split; vm_compute; reflexivity. Qed.

Example ex_sched_run :
  associate_resources tt ∅ 0 ex_sched_world =
  (Ok (fit_of tt ∅ <$>
         [place ("node-a", "GPU-0") ex_gpu 2 ("c2", 30%Z);
          place ("node-a", "GPU-0") ex_gpu 2 ("c4", 30%Z);
          place ("node-b", "GPU-1") ex_gpu_b 1 ("c3", 20%Z);
          place ("node-a", "GPU-0") ex_gpu 1 ("c1", 10%Z)]),
   {| self := set_client_configs_map (λ _,
        {[ "c1" := ("node-a", "GPU-0", 10%Z); "c2" := ("node-a", "GPU-0", 30%Z);
           "c3" := ("node-b", "GPU-1", 20%Z); "c4" := ("node-a", "GPU-0", 30%Z) ]})
        ex_sched_strategy;
      clients :=
        {[ "c1" := {| scheduling_strategy := Some "node-a"; num_gpu := Some (Qmake 1 1) |};
           "c2" := {| scheduling_strategy := Some "node-a"; num_gpu := Some (Qmake 1 2) |};
           "c3" := {| scheduling_strategy := Some "node-b"; num_gpu := Some (Qmake 1 1) |};
           "c4" := {| scheduling_strategy := Some "node-a"; num_gpu := Some (Qmake 1 2) |} ]};
      heap := [[]];
      stdout := [PrintExpected 45%Z] |}).
Proof. vm_compute. reflexivity. Qed.

(** ** The calibration round *)

Section calibration.
Context {T Poly SimpleCPU Parameters : Type}.
Context `{Numeric T} `{PolyLib T Poly}.
Abbreviation world := (World T Poly SimpleCPU).
Implicit Types (w : world) (parameters : Parameters) (cfg : gmap string (Scalar T)).

Lemma warm_up_pool_NoDup : NoDup warm_up_pool.
Proof. apply (bool_decide_unpack (NoDup warm_up_pool)). by vm_compute. Qed.

Lemma pop_snoc {A} (l : list A) x : pop (l ++ [x]) = Ok (x, l).
Proof.
  unfold pop. rewrite last_snoc, length_app. simpl.
  by rewrite Nat.add_sub, take_app_length.
Qed.

Lemma record_probes_fields w es :
  gpu_resources (self (foldl record_probe w es)) = gpu_resources (self w) ∧
  warm_up_steps (self (foldl record_probe w es)) = warm_up_steps (self w) ∧
  resources_model (self (foldl record_probe w es)) = resources_model (self w) ∧
  resource_poly_degree (self (foldl record_probe w es)) = resource_poly_degree (self w).
Proof.
  revert w. induction es as [|e es IH]; intros w; [done|]. simpl.
  destruct (IH (record_probe w e)) as (-> & -> & -> & ->). done.
Qed.

Lemma record_probes_configs w es :
  client_configs_map (self (foldl record_probe w es)) =
  foldl (λ m e, <[e.1 := (e.2.1.1, e.2.1.2, e.2.2)]> m) (client_configs_map (self w)) es.
Proof.
  revert w. induction es as [|e es IH]; intros w; [done|]. simpl. by rewrite IH.
Qed.

(* the probes of one device *)
Lemma calibrate_steps_run parameters cfg node_id gpu_uuid gpu steps :
  ∀ ks rest fits w, length ks = length steps →
    foldM (calibrate_step parameters cfg node_id gpu_uuid gpu)
          (rest ++ reverse ks, fits) steps w =
    (Ok (rest,
         fits ++ ((λ e, (e.1, {| fit_parameters := parameters;
                                 fit_config := probe_config cfg gpu e.2.2 |}))
                    <$> zip ks ((λ s, ((node_id, gpu_uuid), s)) <$> steps))),
     foldl record_probe w (zip ks ((λ s, ((node_id, gpu_uuid), s)) <$> steps))).
Proof.
  induction steps as [|s steps IH]; intros ks rest fits w Hlen.
  - destruct ks; [|done]. simpl. by rewrite !app_nil_r.
  - destruct ks as [|k ks]; [done|]. injection Hlen as Hlen.
    cbn [foldM]. rewrite reverse_cons, app_assoc.
    unfold bind at 1. unfold calibrate_step at 1.
    unfold bind, lift. rewrite pop_snoc. simpl.
    unfold modify. simpl. rewrite IH by done.
    rewrite <- app_assoc. done.
Qed.

Lemma product_length (devices : list Device) (steps : list Z) :
  length (devices ≫= λ d, (λ s, (d, s)) <$> steps) = length devices * length steps.
Proof.
  induction devices as [|d devices IH]; [done|].
  rewrite bind_cons, length_app, length_fmap, IH. done.
Qed.

(* the probes of every device *)
Lemma calibrate_devices_run parameters cfg devices :
  ∀ ks rest fits w,
    (∀ d, d ∈ devices → is_Some (gpu_lookup d.1 d.2 (self w))) →
    length ks = length devices * length (warm_up_steps (self w)) →
    let es := zip ks (devices ≫= λ d, (λ s, (d, s)) <$> warm_up_steps (self w)) in
    ∃ fits',
      foldM (calibrate_device parameters cfg) (rest ++ reverse ks, fits) devices w =
      (Ok (rest, fits ++ fits'), foldl record_probe w es) ∧
      Forall2 (λ fit e, fit.1 = e.1 ∧
                        fit_config fit.2 !! "local_steps" = Some (SInt e.2.2))
              fits' es.
Proof.
  induction devices as [|d devices IH]; intros ks rest fits w Hgpus Hlen es.
  - destruct ks; [|done]. exists []. simpl. rewrite !app_nil_r. split; [done|constructor].
  - set (warm := warm_up_steps (self w)) in *.
    set (n := length warm).
    assert (Hks : ks = take n ks ++ drop n ks) by by rewrite take_drop.
    assert (Hn : length (take n ks) = n).
    { rewrite length_take. simpl in Hlen. fold n in Hlen. lia. }
    destruct (Hgpus d) as [gpu Hgpu]; [left|].
    set (es1 := zip (take n ks) ((λ s, (d, s)) <$> warm)).
    destruct (record_probes_fields w es1) as (HG & HW & _ & _).
    destruct (IH (drop n ks) rest
                (fits ++ ((λ e, (e.1, {| fit_parameters := parameters;
                                         fit_config := probe_config cfg gpu e.2.2 |}))
                            <$> es1))
                (foldl record_probe w es1))
      as (fits2 & Hrun2 & Hall2).
    { intros d' Hd'. unfold gpu_lookup. rewrite HG. apply Hgpus. by right. }
    { rewrite HW, length_drop. simpl in Hlen. fold warm n in Hlen |- *. lia. }
    rewrite HW in Hrun2, Hall2. fold warm in Hrun2, Hall2.
    assert (Hes : es = es1 ++ zip (drop n ks)
                         (devices ≫= λ d, (λ s, (d, s)) <$> warm)).
    { unfold es, es1. rewrite bind_cons. rewrite Hks at 1.
      rewrite zip_with_app; [done|].
      by rewrite Hn, length_fmap. }
    subst es1. eexists. split.
    + cbn [foldM]. unfold bind at 1. unfold calibrate_device at 1.
      destruct d as [node_id gpu_uuid]. unfold bind, read_or, read.
      simpl in Hgpu. rewrite Hgpu.
      rewrite Hks at 1. rewrite reverse_app, app_assoc.
      fold warm.
      rewrite (calibrate_steps_run parameters cfg node_id gpu_uuid gpu warm
                 (take n ks) (rest ++ reverse (drop n ks)) fits w Hn).
      etrans; [exact Hrun2|]. rewrite Hes, foldl_app, <- app_assoc. done.
    + rewrite Hes. apply Forall2_app; [|done].
      apply Forall2_fmap_l. apply Forall_Forall2_diag.
      apply Forall_forall. intros e _. simpl. split; [done|].
      unfold probe_config. by rewrite lookup_insert_eq.
Qed.

Lemma insert_probes_notin (es : list (string * (Device * Z))) k
    (m : gmap string (string * string * Z)) :
  k ∉ es.*1 →
  foldl (λ m e, <[e.1 := (e.2.1.1, e.2.1.2, e.2.2)]> m) m es !! k = m !! k.
Proof.
  revert m. induction es as [|e es IH]; intros m Hk; [done|]. simpl.
  rewrite fmap_cons in Hk. apply not_elem_of_cons in Hk as [Hne Hk].
  rewrite IH by done. by rewrite lookup_insert_ne.
Qed.

Lemma insert_probes_lookup (es : list (string * (Device * Z))) e
    (m : gmap string (string * string * Z)) :
  NoDup es.*1 → e ∈ es →
  foldl (λ m e, <[e.1 := (e.2.1.1, e.2.1.2, e.2.2)]> m) m es !! e.1
  = Some (e.2.1.1, e.2.1.2, e.2.2).
Proof.
  revert m. induction es as [|e0 es IH]; intros m Hnd He.
  - by apply elem_of_nil in He.
  - rewrite fmap_cons in Hnd. apply NoDup_cons in Hnd as [Hnin Hnd]. simpl.
    apply elem_of_cons in He as [->|He].
    + rewrite insert_probes_notin by done. by rewrite lookup_insert_eq.
    + by apply IH.
Qed.

Lemma probes_recorded (fits : list (string * FitIns T Parameters))
    (es : list (string * (Device * Z))) (m : gmap string (string * string * Z)) :
  Forall2 (λ fit e, fit.1 = e.1 ∧
                    fit_config fit.2 !! "local_steps" = Some (SInt e.2.2)) fits es →
  Forall (λ e, m !! e.1 = Some (e.2.1.1, e.2.1.2, e.2.2)) es →
  probes fits m = es.*2.
Proof.
  induction 1 as [|fit e fits es [Hcid Hsteps] Hall IH]; intros Hm; [done|].
  apply Forall_cons in Hm as [He Hm].
  simpl in He. specialize (IH Hm). unfold probes in *.
  cbn [omap list_omap]. rewrite Hcid, He, Hsteps.
  rewrite fmap_cons. f_equal; [by destruct e as [k [[n u] s]]|]. exact IH.
Qed.

Lemma filter_device_same (d : Device) (steps : list Z) :
  snd <$> filter (λ p : Device * Z, p.1 = d) ((λ s, (d, s)) <$> steps) = steps.
Proof.
  induction steps as [|s steps IH]; [done|].
  rewrite fmap_cons, filter_cons_True by done. by rewrite fmap_cons, IH.
Qed.

Lemma filter_device_other (d d' : Device) (steps : list Z) :
  d' ≠ d → filter (λ p : Device * Z, p.1 = d) ((λ s, (d', s)) <$> steps) = [].
Proof.
  intros Hne. induction steps as [|s steps IH]; [done|].
  rewrite fmap_cons, filter_cons_False; [exact IH|]. simpl. congruence.
Qed.

Lemma filter_device_none (d : Device) (ds : list Device) (steps : list Z) :
  d ∉ ds →
  filter (λ p : Device * Z, p.1 = d) (ds ≫= λ d, (λ s, (d, s)) <$> steps) = [].
Proof.
  induction ds as [|d' ds IH]; intros Hd; [done|].
  apply not_elem_of_cons in Hd as [Hne Hd].
  rewrite bind_cons, filter_app, filter_device_other, IH by done. done.
Qed.

Lemma probe_sizes_product (devices : list Device) (steps : list Z) d :
  NoDup devices → d ∈ devices →
  probe_sizes d (devices ≫= λ d, (λ s, (d, s)) <$> steps) = steps.
Proof.
  unfold probe_sizes.
  induction devices as [|d' devices IH]; intros Hnd Hd.
  - by apply elem_of_nil in Hd.
  - apply NoDup_cons in Hnd as [Hnin Hnd]. rewrite bind_cons, filter_app, fmap_app.
    apply elem_of_cons in Hd as [->|Hd].
    + rewrite filter_device_same, filter_device_none by done. by rewrite app_nil_r.
    + rewrite filter_device_other, IH; [done..|]. intros ->. done.
Qed.
End calibration.

(** * The claims about capacity and the model map *)

Section model_claims.
Context {T Poly SimpleCPU TaskId Parameters Failures Aggregate : Type}.
Context `{Numeric T} `{PolyLib T Poly} `{EqDecision TaskId}.
Context (FedAvg_aggregate_fit :
  Z → list (string * FitRes TaskId) → Failures → Aggregate).

Abbreviation world := (World T Poly SimpleCPU).
Abbreviation models_of := (λ w : world, resources_model (self w)).

(** C4 (amended): models are created with capacity 1, and [capacity >= 1]
    is kept by every operation of a round provided the round-1 memory samples
    are positive and fit the device; the estimate is stored as it is. *)
Theorem capacity_invariant (op : Op SimpleCPU TaskId Parameters Failures)
    (w w' : world) r :
  capacity_ok (models_of w) →
  op_samples_fit (gpu_resources (self w)) op →
  run_op FedAvg_aggregate_fit op w = (r, w') →
  capacity_ok (models_of w') ∧
  ∀ node_id gpu_uuid,
    ∃ p, dict_get (node_id, gpu_uuid)
           (models_of (create_model node_id gpu_uuid w).2) = Some (p, 1%Z).
Proof.
  intros Hok Hfit Hrun. split; last first.
  { intros node_id gpu_uuid. rewrite create_model_spec. simpl.
    eexists. apply dict_get_set_eq. }
  destruct op as [server_round parameters cm monitors
                 |server_round results failures monitors]; simpl in *.
  - revert Hrun. apply (inv_bind (λ w, capacity_ok (models_of w))); [|intros; inv_step|done].
    destruct (decide (server_round = 1%Z)) as [->|Hr].
    + unfold configure_fit. simpl.
      repeat first [ apply request_available_resources_capacity
                   | apply (discover_device_frame (λ d _ _, capacity_ok d))
                   | inv_step ].
    + by apply (configure_fit_frame (λ d _ _, capacity_ok d)).
  - destruct (decide (server_round = 1%Z)) as [->|Hr1].
    + simpl in Hfit.
      cut (capacity_ok (models_of w') ∧ gpu_resources (self w') = gpu_resources (self w));
        [by intros []|].
      revert Hrun.
      apply (inv_bind (λ w0, capacity_ok (models_of w0) ∧
                             gpu_resources (self w0) = gpu_resources (self w)));
        [|intros; inv_step|done].
      unfold aggregate_fit. simpl.
      inv_step.
      { apply (tasks_to_cid_frame
          (λ d _ g, capacity_ok d ∧ g = gpu_resources (self w))). }
      inv_step; [|inv_step]. inv_step.
      by eapply aggregate_round1_capacity.
    + revert Hrun.
      apply (inv_bind (λ w, capacity_ok (models_of w))); [|intros; inv_step|done].
      destruct (decide (server_round = 2%Z)) as [->|Hr2].
      * unfold aggregate_fit. simpl.
        inv_step; [apply (tasks_to_cid_frame (λ d _ _, capacity_ok d))|].
        inv_step; [|inv_step]. inv_step; [inv_step; done|].
        inv_step; [apply (tasks_to_cid_frame (λ d _ _, capacity_ok d))|].
        inv_step. apply aggregate_round2_capacity.
      * by apply (aggregate_fit_frame _ (λ d _ _, capacity_ok d)).
Qed.

(** C5 (amended): a zero per-task memory sample makes the round-1 update
    raise ZeroDivisionError; the error is not caught, so aggregate_fit stops
    there, and the sample itself changes nothing (no fallback is stored). *)
Theorem zero_sample_fatal (results : list (string * FitRes TaskId))
    (failures : Failures) (monitors : list (Monitor SimpleCPU TaskId))
    (w : world) actor :
  Forall (λ r, is_Some (task_id r.2)) results →
  samples_known (gpu_resources (self w)) (dict_keys (models_of w)) monitors →
  actor ∈ monitors →
  (∀ ids, ∃ task gpu_uuid,
     task ∈ max_this_proc_mem_used_mb (aggregate_statistics actor ids) ∧
     (gpu_uuid, 0%Z) ∈ task.2) →
  (∃ w', aggregate_fit FedAvg_aggregate_fit 1 results failures monitors w =
           (Raise ZeroDivisionError, w')) ∧
  (∀ node_id all gpu_uuid gpu a (w0 : world),
     gpu_lookup node_id gpu_uuid (self w0) = Some gpu →
     dict_get gpu_uuid all = Some a →
     refine_capacity node_id all (gpu_uuid, 0%Z) w0 = (Raise ZeroDivisionError, w0)).
Proof.
  intros Hres Hknown Hactor Hzero. split; [|by intros; eapply refine_capacity_zero].
  unfold aggregate_fit. simpl.
  destruct (tasks_to_cid_ok results w Hres) as [t2c Ht2c].
  erewrite bind_ok by done.
  set (I := λ w0 : world, gpu_resources (self w0) = gpu_resources (self w) ∧
                          dict_keys (models_of w0) = dict_keys (models_of w)).
  destruct (foldM_raises I ZeroDivisionError
              (λ _ x, aggregate_round1 (dict_keys t2c) x) monitors) with (b := tt) (w := w)
    as [w' Hw'].
  - intros _ x w0 Hx HI. by eapply aggregate_round1_zero.
  - exists actor. split; [done|]. intros _ w0 HI.
    destruct (Hzero (dict_keys t2c)) as (task & gpu_uuid & ? & ?).
    by eapply aggregate_round1_zero_raises.
  - done.
  - exists w'. unfold for_. by erewrite bind_raise.
Qed.

End model_claims.

Lemma ex_samples_fit : samples_fit (gpu_resources (self ex_world1)) [ex_monitor 200 400 []].
Proof.
  intros actor ids task gpu_uuid mem Hactor Htask Hentry.
  apply list_elem_of_singleton in Hactor as ->. simpl in Htask.
  apply list_elem_of_singleton in Htask as ->. simpl in Hentry.
  apply list_elem_of_singleton in Hentry as [= -> ->].
  split; [lia|]. intros gpu a Hgpu Ha.
  vm_compute in Hgpu. vm_compute in Ha.
  injection Hgpu as <-. injection Ha as <-. simpl. lia.
Qed.

Lemma capacity_invariant_witness :
  let op := OpAggregate (Parameters := unit) 1 ex_results tt [ex_monitor 200 400 []] in
  capacity_ok (resources_model (self ex_world1)) ∧
  op_samples_fit (gpu_resources (self ex_world1)) op ∧
  capacity_ok (resources_model (self (run_op ex_aggregate op ex_world1).2)) ∧
  ∀ node_id gpu_uuid,
    ∃ p, dict_get (node_id, gpu_uuid)
           (resources_model (self (create_model node_id gpu_uuid ex_world1).2))
         = Some (p, 1%Z).
Proof.
  intros op.
  assert (H1 : capacity_ok (resources_model (self ex_world1))).
  { rewrite ex_world1_models. constructor; [simpl; lia|constructor]. }
  assert (H2 : op_samples_fit (gpu_resources (self ex_world1)) op)
    by exact ex_samples_fit.
  split; [exact H1|]. split; [exact H2|].
  exact (capacity_invariant ex_aggregate op ex_world1 _ _ H1 H2
           (surjective_pairing (run_op ex_aggregate op ex_world1))).
Defined.

(** C4, as stated, fails: with total 1000, all-process peak 1100 and task peak
    200 the estimate int(0.5) = 0 is stored as capacity 0, not clamped to 1. *)
Lemma capacity_zero_stored :
  capacity_ok (resources_model (self ex_world1)) ∧
  ∃ w', aggregate_fit ex_aggregate 1 ex_results tt [ex_monitor 200 1100 []] ex_world1
          = (Ok tt, w') ∧
        resources_model (self w') = [(("node-a", "GPU-0"), ([1; 0]%Z, 0%Z))] ∧
        ¬ capacity_ok (resources_model (self w')).
Proof.
  split; [rewrite ex_world1_models; constructor; [simpl; lia|constructor]|].
  eexists. split; [vm_compute; reflexivity|].
  split; [vm_compute; reflexivity|].
  intros Hc. apply Forall_cons in Hc as [Hc _]. vm_compute in Hc. by apply Hc.
Qed.

Lemma ex_samples_known :
  samples_known (gpu_resources (self ex_world1))
    (dict_keys (resources_model (self ex_world1))) [ex_monitor 0 400 []].
Proof.
  intros actor ids task gpu_uuid mem Hactor Htask Hentry.
  apply list_elem_of_singleton in Hactor as ->. simpl in Htask.
  apply list_elem_of_singleton in Htask as ->. simpl in Hentry.
  apply list_elem_of_singleton in Hentry as [= -> ->].
  split; [by eexists; vm_compute|]. split; [by eexists; vm_compute|].
  rewrite ex_world1_models. simpl. apply list_elem_of_singleton. done.
Qed.

Lemma zero_sample_fatal_witness :
  Forall (λ r, is_Some (task_id r.2)) ex_results ∧
  ex_monitor 0 400 [] ∈ [ex_monitor 0 400 []] ∧
  ∃ w', aggregate_fit ex_aggregate 1 ex_results tt [ex_monitor 0 400 []] ex_world1
          = (Raise ZeroDivisionError, w').
Proof.
  assert (H1 : Forall (λ r : string * FitRes nat, is_Some (task_id r.2)) ex_results).
  { repeat constructor. by eexists. }
  assert (H3 : ex_monitor 0 400 [] ∈ [ex_monitor 0 400 []]) by left.
  assert (H4 : ∀ ids : list nat, ∃ task gpu_uuid,
     task ∈ max_this_proc_mem_used_mb (aggregate_statistics (ex_monitor 0 400 []) ids) ∧
     (gpu_uuid, 0%Z) ∈ task.2).
  { intros ids. exists (0%nat, [("GPU-0", 0%Z)]), "GPU-0". split; left. }
  split; [exact H1|]. split; [exact H3|].
  exact (proj1 (zero_sample_fatal ex_aggregate ex_results tt [ex_monitor 0 400 []]
                  ex_world1 (ex_monitor 0 400 []) H1 ex_samples_known H3 H4)).
Defined.

(** C5, as stated, fails: a zero per-task sample makes aggregate_fit raise
    ZeroDivisionError; the round does not continue with a fallback. *)
Lemma zero_sample_not_recovered :
  aggregate_fit ex_aggregate 1 ex_results tt [ex_monitor 0 400 []] ex_world1
    = (Raise ZeroDivisionError, ex_world1) ∧
  ¬ ∃ a w', aggregate_fit ex_aggregate 1 ex_results tt [ex_monitor 0 400 []] ex_world1
              = (Ok a, w').
Proof.
  assert (Hrun : aggregate_fit ex_aggregate 1 ex_results tt [ex_monitor 0 400 []] ex_world1
                 = (Raise ZeroDivisionError, ex_world1)) by (vm_compute; reflexivity).
  split; [done|]. intros (a & w' & Hok). rewrite Hrun in Hok. discriminate.
Qed.

(** * The claims about the scheduling pass *)

Section scheduler_claims.
Context {T Poly SimpleCPU Parameters : Type}.
Context `{NumericOrder T} `{PolyLib T Poly}.

Abbreviation world := (World T Poly SimpleCPU).

(** C1: on a non-empty unit list and a non-empty model map with capacities
    >= 1, associate_resources sorts the units by weight descending (stably) and
    then runs the greedy pass: first device of minimum load, a batch of
    min(capacity, remaining) units from the front, load increased by the
    prediction at the largest weight of the batch, every unit of the batch
    placed on the device with share 1/len(batch), until no unit remains. *)
Theorem assign_is_greedy (w : world) (l : nat) (units : list (string * Z))
    (parameters : Parameters) (cfg : gmap string (Scalar T)) :
  heap w !! l = Some units →
  units ≠ [] →
  resources_model (self w) ≠ [] →
  capacity_ok (resources_model (self w)) →
  NoDup (dict_keys (resources_model (self w))) →
  (∀ d, d ∈ dict_keys (resources_model (self w)) →
        is_Some (gpu_lookup d.1 d.2 (self w))) →
  ∃ sorted loads out makespan,
    sorted_by_weight units sorted ∧
    greedy (self w) (replicate (length (resources_model (self w))) zero)
           sorted loads out ∧
    py_max loads = Ok makespan ∧
    associate_resources parameters cfg l w =
    (Ok (fit_of parameters cfg <$> out),
     apply_updates (concat (updates_of <$> out) ++ [UPrint (PrintExpected makespan)])
                   (with_heap (<[l := []]>) w)).
Proof.
  intros Hl _ Hne Hcap Hnd Hgpus.
  destruct (associate_resources_runs (self w) parameters cfg Hne Hcap Hnd Hgpus units)
    as (sorted & loads & out & makespan & Hsorted & Hgreedy & Hmax & Hruns).
  exists sorted, loads, out, makespan. repeat split; try done; try apply Hsorted.
  by eapply runs_world.
Qed.

(** C6: with no unit and a non-empty model map the pass returns the empty
    assignment and reports makespan 0; with units and an empty model map it
    fails with the ValueError of min() over no device (NoCapacity), and in no
    other way. *)
Theorem assign_degenerate (w : world) (l : nat) (units : list (string * Z))
    (parameters : Parameters) (cfg : gmap string (Scalar T)) :
  heap w !! l = Some units →
  (units = [] → resources_model (self w) ≠ [] →
   associate_resources parameters cfg l w = (Ok [], print (PrintExpected zero) w)) ∧
  (units ≠ [] → resources_model (self w) = [] →
   associate_resources parameters cfg l w =
   (Raise ValueError, with_heap (<[l := sort_reverse snd units]>) w)).
Proof.
  intros Hl. split.
  - intros -> Hne.
    assert (Hruns : runs (self w) [] (λ l, associate_resources parameters cfg l)
                      (Ok []) [UPrint (PrintExpected zero)] []).
    { unfold associate_resources.
      eapply runs_bind_deref. eapply runs_bind_store.
      eapply (runs_bind_read (self w) _ _ _ (resources_model (self w))); [done|].
      eapply (runs_bind_eq (self w) [] (λ l, associate_loop _ _ _ l _ _));
        [simpl; eapply runs_bind_deref; apply runs_ret| |done].
      simpl.
      eapply (runs_bind_lift (self w) [] _ _ zero).
      { destruct (resources_model (self w)) as [|e models]; [done|].
        apply py_max_zeros. }
      eapply (runs_bind_update (self w) _ _ (UPrint (PrintExpected zero))); [done|].
      apply runs_ret. }
    rewrite (runs_world _ _ _ _ _ _ w l Hruns eq_refl Hl). simpl.
    do 2 f_equal. destruct w as [s c h o]. unfold with_heap. simpl in *.
    by rewrite list_insert_id.
  - intros Hne Hempty.
    assert (Hruns : runs (self w) units (λ l, associate_resources parameters cfg l)
                      (Raise ValueError) [] (sort_reverse snd units)).
    { unfold associate_resources.
      eapply runs_bind_deref. eapply runs_bind_store.
      eapply (runs_bind_read (self w) _ _ _ []); [by intros; simpl|].
      eapply runs_bind_raise.
      destruct (sort_reverse snd units) as [|u sorted] eqn:Hs.
      { apply (f_equal length) in Hs.
        rewrite <- (Permutation_length (sort_reverse_perm snd units)) in Hs.
        by destruct units. }
      destruct units as [|u0 units]; [done|]. cbn [length associate_loop].
      eapply runs_bind_deref. eapply runs_bind_raise.
      unfold associate_step. simpl.
      eapply runs_bind_raise. apply runs_lift. }
    by rewrite (runs_world _ _ _ _ _ _ w l Hruns eq_refl Hl).
Qed.

(** C2 (amended): one device of capacity 2 and units of weights 30, 20, 10:
    the units 30 and 20 form the first batch, of duration predict(30), the
    unit 10 the second, and the reported makespan is the load of the device,
    (0 + predict(30)) + predict(10). *)
Theorem one_device_three_units (w : world) (l : nat) (d : Device) (poly : Poly)
    (gpu : SimpleGPU) (c1 c2 c3 : string)
    (parameters : Parameters) (cfg : gmap string (Scalar T)) :
  resources_model (self w) = [(d, (poly, 2%Z))] →
  gpu_lookup d.1 d.2 (self w) = Some gpu →
  heap w !! l = Some [(c1, 30%Z); (c2, 20%Z); (c3, 10%Z)] →
  let out := [place d gpu 2 (c1, 30%Z); place d gpu 2 (c2, 20%Z);
              place d gpu 1 (c3, 10%Z)] in
  associate_resources parameters cfg l w =
  (Ok (fit_of parameters cfg <$> out),
   apply_updates
     (concat (updates_of <$> out) ++
      [UPrint (PrintExpected
                 (add (add zero (poly_call poly 30%Z)) (poly_call poly 10%Z)))])
     (with_heap (<[l := []]>) w)).
Proof.
  intros Hmodels Hgpu Hl out.
  assert (Hget : dict_get d (resources_model (self w)) = Some (poly, 2%Z)).
  { rewrite Hmodels. simpl. by rewrite decide_True. }
  eapply runs_world; [|done|exact Hl].
  unfold associate_resources.
  eapply runs_bind_deref. eapply runs_bind_store.
  eapply (runs_bind_read (self w) _ _ _ [(d, (poly, 2%Z))]); [intros; exact Hmodels|].
  eapply (runs_bind_eq (self w) _ (λ l, associate_loop _ _ _ l _ _)).
  - cbn [length associate_loop]. eapply runs_bind_deref.
    change (sort_reverse snd [(c1, 30%Z); (c2, 20%Z); (c3, 10%Z)])
      with [(c1, 30%Z); (c2, 20%Z); (c3, 10%Z)].
    eapply (runs_bind_eq (self w) _ (λ l, associate_step _ _ l _ _)).
    + eapply (associate_step_runs (self w) parameters cfg [d] [zero] []
                _ (c1, 30%Z) _ zero 0 d gpu poly 2 zero);
        [done|done|apply py_index_singleton|done|done|done|done|done].
    + cbn [associate_loop]. eapply runs_bind_deref.
      change (drop _ [(c1, 30%Z); (c2, 20%Z); (c3, 10%Z)]) with [(c3, 10%Z)].
      eapply (runs_bind_eq (self w) _ (λ l, associate_step _ _ l _ _)).
      * eapply (associate_step_runs (self w) parameters cfg [d]
                  [add zero (poly_call poly 30%Z)] _
                  _ (c3, 10%Z) [] _ 0 d gpu poly 2 (add zero (poly_call poly 30%Z)));
          [done|done|apply py_index_singleton|done|done|done|done|done].
      * cbn [associate_loop]. eapply runs_bind_deref.
        change (drop _ [(c3, 10%Z)]) with (@nil (string * Z)).
        apply runs_ret.
      * done.
    + done.
  - eapply runs_bind_lift; [apply py_max_singleton|].
    eapply (runs_bind_update (self w) _ _ (UPrint _)); [done|].
    apply runs_ret.
  - done.
Qed.
End scheduler_claims.

Section idempotence_claim.
Context {T Poly SimpleCPU Parameters : Type}.
Context `{Numeric T} `{PolyLib T Poly}.

Abbreviation world := (World T Poly SimpleCPU).

(** C7 (amended): a second pass over a list object with the same contents as
    the first one had, on the same models, returns the same result and leaves
    the same assignment (the resources of every client and the recorded
    configurations); the list object of the first pass itself has been
    emptied by it. *)
Theorem assign_twice (w w1 : world) (l l2 : nat) (units : list (string * Z))
    (parameters : Parameters) (cfg : gmap string (Scalar T))
    (r : result (list (string * FitIns T Parameters))) :
  heap w !! l = Some units →
  associate_resources parameters cfg l w = (r, w1) →
  heap w1 !! l2 = Some units →
  ∃ w2, associate_resources parameters cfg l2 w1 = (r, w2) ∧
        self w2 = self w1 ∧ clients w2 = clients w1.
Proof.
  intros Hl Hrun Hl2.
  destruct (associate_resources_tracked (self w) units parameters cfg)
    as (r0 & us & v' & Hruns).
  rewrite (world_is_variant w) in Hrun, Hl.
  rewrite (runs_variant _ _ _ _ _ _ _ _ _ _ _ Hruns Hl) in Hrun.
  destruct (apply_updates_variant (self w) us (client_configs_map (self w))
              (clients w) (stdout w)) as (cm1 & c1 & o1 & H1).
  rewrite H1 in Hrun. injection Hrun as <- <-.
  pose proof (assignment_of_apply_updates us
    (variant (self w) (client_configs_map (self w)) (clients w) [] (stdout w))) as Ha1.
  rewrite H1 in Ha1. unfold assignment_of in Ha1. simpl in Ha1.
  simpl in Hl2.
  eexists. split; [by eapply runs_variant|].
  destruct (apply_updates_variant (self w) us cm1 c1 o1) as (cm2 & c2 & o2 & H2).
  rewrite H2.
  pose proof (assignment_of_apply_updates us (variant (self w) cm1 c1 [] o1)) as Ha2.
  rewrite H2 in Ha2. unfold assignment_of in Ha2. simpl in Ha2.
  rewrite Ha1, write_twice, <- Ha1 in Ha2. injection Ha2 as -> ->.
  done.
Qed.
End idempotence_claim.

Lemma assign_is_greedy_witness :
  heap ex_sched_world !! 0 = Some ex_units ∧
  ex_units ≠ [] ∧
  resources_model (self ex_sched_world) ≠ [] ∧
  capacity_ok (resources_model (self ex_sched_world)) ∧
  NoDup (dict_keys (resources_model (self ex_sched_world))) ∧
  (∀ d, d ∈ dict_keys (resources_model (self ex_sched_world)) →
        is_Some (gpu_lookup d.1 d.2 (self ex_sched_world))) ∧
  ∃ sorted loads out makespan,
    sorted_by_weight ex_units sorted ∧
    greedy (self ex_sched_world)
           (replicate (length (resources_model (self ex_sched_world))) zero)
           sorted loads out ∧
    py_max loads = Ok makespan ∧
    associate_resources tt ∅ 0 ex_sched_world =
    (Ok (fit_of tt ∅ <$> out),
     apply_updates (concat (updates_of <$> out) ++ [UPrint (PrintExpected makespan)])
                   (with_heap (<[0 := []]>) ex_sched_world)).
Proof.
  assert (H1 : heap ex_sched_world !! 0 = Some ex_units) by reflexivity.
  assert (H2 : ex_units ≠ []) by discriminate.
  assert (H3 : resources_model (self ex_sched_world) ≠ []) by discriminate.
  assert (H4 : capacity_ok (resources_model (self ex_sched_world))).
  { repeat (constructor; [simpl; lia|]). constructor. }
  assert (H5 : NoDup (dict_keys (resources_model (self ex_sched_world)))).
  { simpl. apply NoDup_cons. split; [|apply NoDup_singleton].
    intros Hin%list_elem_of_singleton. discriminate. }
  assert (H6 : ∀ d, d ∈ dict_keys (resources_model (self ex_sched_world)) →
                    is_Some (gpu_lookup d.1 d.2 (self ex_sched_world))).
  { intros d Hd. simpl in Hd.
    apply elem_of_cons in Hd as [->|Hd]; [by eexists; vm_compute|].
    apply list_elem_of_singleton in Hd as ->. by eexists; vm_compute. }
  repeat (split; [assumption|]).
  exact (assign_is_greedy ex_sched_world 0 ex_units tt ∅ H1 H2 H3 H4 H5 H6).
Defined.

Lemma one_device_three_units_witness :
  resources_model (self (ex_single_world ex_three_units))
    = [(("node-a", "GPU-0"), ([0; 1]%Z, 2%Z))] ∧
  gpu_lookup "node-a" "GPU-0" (self (ex_single_world ex_three_units)) = Some ex_gpu ∧
  heap (ex_single_world ex_three_units) !! 0
    = Some [("c1", 30%Z); ("c2", 20%Z); ("c3", 10%Z)] ∧
  associate_resources tt ∅ 0 (ex_single_world ex_three_units) =
  (Ok (fit_of tt ∅ <$>
         [place ("node-a", "GPU-0") ex_gpu 2 ("c1", 30%Z);
          place ("node-a", "GPU-0") ex_gpu 2 ("c2", 20%Z);
          place ("node-a", "GPU-0") ex_gpu 1 ("c3", 10%Z)]),
   apply_updates
     (concat (updates_of <$>
         [place ("node-a", "GPU-0") ex_gpu 2 ("c1", 30%Z);
          place ("node-a", "GPU-0") ex_gpu 2 ("c2", 20%Z);
          place ("node-a", "GPU-0") ex_gpu 1 ("c3", 10%Z)]) ++
      [UPrint (PrintExpected (0 + 30 + 10)%Z)])
     (with_heap (<[0 := []]>) (ex_single_world ex_three_units))).
Proof.
  assert (H1 : resources_model (self (ex_single_world ex_three_units))
               = [(("node-a", "GPU-0"), ([0; 1]%Z, 2%Z))]) by reflexivity.
  assert (H2 : gpu_lookup "node-a" "GPU-0" (self (ex_single_world ex_three_units))
               = Some ex_gpu) by (vm_compute; reflexivity).
  assert (H3 : heap (ex_single_world ex_three_units) !! 0
               = Some [("c1", 30%Z); ("c2", 20%Z); ("c3", 10%Z)]) by reflexivity.
  repeat (split; [assumption|]).
  exact (one_device_three_units (ex_single_world ex_three_units) 0
           ("node-a", "GPU-0") [0; 1]%Z ex_gpu "c1" "c2" "c3" tt ∅ H1 H2 H3).
Defined.

(** C2, as stated, fails: the reported makespan is predict(30) + predict(10),
    here 40, and not max(predict(30), predict(10)) = 30. *)
Lemma makespan_is_sum_not_max :
  stdout (associate_resources tt ∅ 0 (ex_single_world ex_three_units)).2
    = [PrintExpected 40%Z] ∧
  40%Z ≠ Z.max (poly_call (Poly := list Z) [0; 1]%Z 30%Z)
               (poly_call (Poly := list Z) [0; 1]%Z 10%Z).
Proof. split; [vm_compute; reflexivity|]. vm_compute. discriminate. Qed.

Lemma assign_degenerate_witness :
  (heap (ex_single_world []) !! 0 = Some [] ∧
   associate_resources tt ∅ 0 (ex_single_world []) =
   (Ok [], print (PrintExpected 0%Z) (ex_single_world []))) ∧
  (heap ex_no_device_world !! 0 = Some ex_three_units ∧
   associate_resources tt ∅ 0 ex_no_device_world =
   (Raise ValueError, with_heap (<[0 := sort_reverse snd ex_three_units]>)
                        ex_no_device_world)).
Proof.
  assert (H1 : heap (ex_single_world []) !! 0 = Some []) by reflexivity.
  assert (H2 : heap ex_no_device_world !! 0 = Some ex_three_units) by reflexivity.
  split; (split; [assumption|]).
  - refine (proj1 (assign_degenerate (ex_single_world []) 0 [] tt ∅ H1) eq_refl _).
    discriminate.
  - refine (proj2 (assign_degenerate ex_no_device_world 0 ex_three_units tt ∅ H2)
              _ eq_refl).
    discriminate.
Defined.

Lemma assign_twice_witness :
  let run1 := associate_resources tt ∅ 0 ex_twice_world in
  heap ex_twice_world !! 0 = Some ex_three_units ∧
  heap run1.2 !! 1 = Some ex_three_units ∧
  ∃ w2, associate_resources tt ∅ 1 run1.2 = (run1.1, w2) ∧
        self w2 = self run1.2 ∧ clients w2 = clients run1.2.
Proof.
  intros run1.
  assert (H1 : heap ex_twice_world !! 0 = Some ex_three_units) by reflexivity.
  assert (H2 : heap run1.2 !! 1 = Some ex_three_units) by (vm_compute; reflexivity).
  repeat (split; [assumption|]).
  exact (assign_twice ex_twice_world run1.2 0 1 ex_three_units tt ∅ run1.1 H1
           (surjective_pairing run1) H2).
Defined.

(** C7, as stated, fails: the pass sorts and consumes the list object it is
    given, so a second call with the same list object finds it empty and
    returns the empty assignment. *)
Lemma assign_twice_same_list :
  let run1 := associate_resources tt ∅ 0 (ex_single_world ex_three_units) in
  let run2 := associate_resources tt ∅ 0 run1.2 in
  run1.1 = Ok (fit_of tt ∅ <$>
                 [place ("node-a", "GPU-0") ex_gpu 2 ("c1", 30%Z);
                  place ("node-a", "GPU-0") ex_gpu 2 ("c2", 20%Z);
                  place ("node-a", "GPU-0") ex_gpu 1 ("c3", 10%Z)]) ∧
  heap run1.2 !! 0 = Some [] ∧
  run2.1 = Ok [] ∧
  run1.1 ≠ run2.1.
Proof.
  intros run1 run2.
  assert (H1 : run1.1 = Ok (fit_of tt ∅ <$>
                 [place ("node-a", "GPU-0") ex_gpu 2 ("c1", 30%Z);
                  place ("node-a", "GPU-0") ex_gpu 2 ("c2", 20%Z);
                  place ("node-a", "GPU-0") ex_gpu 1 ("c3", 10%Z)]))
    by (vm_compute; reflexivity).
  assert (H2 : run2.1 = Ok []) by (vm_compute; reflexivity).
  split; [done|]. split; [vm_compute; reflexivity|]. split; [done|].
  rewrite H1, H2. discriminate.
Qed.

(** * The claims about construction and calibration *)

Section calibration_claims.
Context {T Poly SimpleCPU TaskId Parameters Failures Aggregate : Type}.
Context `{Numeric T} `{PolyLib T Poly} `{EqDecision TaskId}.
Context (FedAvg_aggregate_fit :
  Z → list (string * FitRes TaskId) → Failures → Aggregate).

Abbreviation world := (World T Poly SimpleCPU).
Abbreviation models_of := (λ w : world, resources_model (self w)).

(** C10: the constructor succeeds exactly for degrees up to 5; from degree 6
    on, drawing degree + 1 sizes without replacement from the six-element
    pool 5, 10, ..., 30 raises ValueError, although MAX_POLY_DEG is 15. *)
Theorem constructor_degree_bound (on_fit : option (Z → gmap string (Scalar T)))
    (nfc : nat → nat * nat) (profs : gmap string (gmap string Z))
    (degree : nat) (perm : list Z) :
  (∀ s : Strategy T Poly SimpleCPU,
     init on_fit nfc profs degree perm = Ok s → degree ≤ 5) ∧
  (6 ≤ degree →
   init (Poly := Poly) (SimpleCPU := SimpleCPU) on_fit nfc profs degree perm
   = Raise ValueError) ∧
  (degree ≤ 5 →
   ∃ s : Strategy T Poly SimpleCPU,
     init on_fit nfc profs degree perm = Ok s ∧
     warm_up_steps s = take (degree + 1) perm) ∧
  warm_up_pool = [5; 10; 15; 20; 25; 30]%Z ∧
  MAX_POLY_DEG = 15%Z.
Proof.
  unfold init, choice. simpl length.
  repeat split.
  - intros s. case_decide; [lia|done].
  - intros Hd. case_decide; [lia|done].
  - intros Hd. case_decide; [|lia]. by eexists.
Qed.

(** C8: in round 2 every device gets exactly D + 1 probes, of pairwise
    distinct sizes, the sizes drawn by the constructor; no operation of any
    round writes these sizes again. *)
Theorem calibration_probes (w : world) (parameters : Parameters)
    (cm : ClientManager) (monitors : list (Monitor SimpleCPU TaskId))
    (on_fit : option (Z → gmap string (Scalar T))) (nfc : nat → nat * nat)
    (profs : gmap string (gmap string Z)) (perm : list Z)
    (s0 : Strategy T Poly SimpleCPU) :
  Permutation perm warm_up_pool →
  init on_fit nfc profs (resource_poly_degree (self w)) perm = Ok s0 →
  warm_up_steps (self w) = warm_up_steps s0 →
  NoDup (dict_keys (models_of w)) →
  (∀ d, d ∈ dict_keys (models_of w) → is_Some (gpu_lookup d.1 d.2 (self w))) →
  let n := (resource_poly_degree (self w) + 1) * length (models_of w) in
  NoDup (sample cm n n) →
  length (sample cm n n) = n →
  ∃ fits w',
    configure_fit 2 parameters cm monitors w = (Ok fits, w') ∧
    (∀ d, d ∈ dict_keys (models_of w) →
          probe_sizes d (probes fits (client_configs_map (self w')))
          = warm_up_steps (self w)) ∧
    length (warm_up_steps (self w)) = resource_poly_degree (self w) + 1 ∧
    NoDup (warm_up_steps (self w)) ∧
    (∀ (op : Op SimpleCPU TaskId Parameters Failures) r w1,
       run_op FedAvg_aggregate_fit op w = (r, w1) →
       warm_up_steps (self w1) = warm_up_steps (self w)).
Proof.
  intros Hperm Hinit Hwarm Hnd Hgpus n Hcs Hlen.
  assert (Hsteps : warm_up_steps (self w)
                   = take (resource_poly_degree (self w) + 1) perm
                   ∧ resource_poly_degree (self w) + 1 ≤ 6).
  { unfold init, choice in Hinit. simpl length in Hinit.
    case_decide; [|done]. injection Hinit as <-. by rewrite Hwarm. }
  destruct Hsteps as [Hsteps Hdeg].
  assert (Hwlen : length (warm_up_steps (self w)) = resource_poly_degree (self w) + 1).
  { rewrite Hsteps, length_take, (Permutation_length Hperm). simpl. lia. }
  assert (Hwnd : NoDup (warm_up_steps (self w))).
  { rewrite Hsteps. eapply sublist_NoDup; [|apply sublist_take].
    rewrite Hperm. apply warm_up_pool_NoDup. }
  set (es := zip (reverse (sample cm n n))
                 (dict_keys (models_of w) ≫= λ d, (λ s, (d, s)) <$> warm_up_steps (self w))).
  destruct (calibrate_devices_run parameters
              match on_fit_config_fn (self w) with Some f => f 2%Z | None => ∅ end
              (dict_keys (models_of w)) (reverse (sample cm n n)) [] [] w Hgpus)
    as (fits & Hrun & Hall).
  { rewrite length_reverse, Hlen, Hwlen. unfold n, dict_keys.
    rewrite length_fmap. lia. }
  fold es in Hrun, Hall. rewrite reverse_involutive in Hrun. simpl in Hrun.
  exists fits, (foldl record_probe w es).
  split; [|split; [|split; [done|split; [done|]]]].
  - unfold configure_fit, bind, read. simpl. fold n.
    unfold bind in Hrun. by rewrite Hrun.
  - intros d Hd.
    assert (Hlen2 : length (dict_keys (models_of w) ≫=
                              λ d, (λ s, (d, s)) <$> warm_up_steps (self w))
                    = length (reverse (sample cm n n))).
    { rewrite product_length, length_reverse, Hlen, Hwlen. unfold n, dict_keys.
      rewrite length_fmap. lia. }
    rewrite (probes_recorded fits es).
    + unfold es. rewrite snd_zip by lia. by apply probe_sizes_product.
    + done.
    + rewrite record_probes_configs. apply Forall_forall. intros e He.
      apply insert_probes_lookup; [|done].
      unfold es. rewrite fst_zip by lia. by rewrite reverse_Permutation.
  - intros op r w1 Hop.
    by eapply (inv_run (λ w0 : world, warm_up_steps (self w0) = warm_up_steps (self w))
                 _ w r w1 (run_op_warm_up _ _ op)).
Qed.
End calibration_claims.

Lemma constructor_degree_bound_witness :
  6 ≤ 6 ∧
  init (T := Z) (Poly := list Z) (SimpleCPU := unit)
       None (λ n, (n, n)) ex_profiles 6 ex_perm = Raise ValueError.
Proof.
  assert (H1 : 6 ≤ 6) by lia.
  split; [exact H1|].
  exact (proj1 (proj2 (constructor_degree_bound (T := Z) (Poly := list Z)
                         (SimpleCPU := unit) None (λ n, (n, n)) ex_profiles 6 ex_perm))
               H1).
Defined.

Lemma calibration_probes_witness :
  let n := (resource_poly_degree (self ex_sched_world) + 1)
           * length (resources_model (self ex_sched_world)) in
  Permutation ex_perm warm_up_pool ∧
  init None (λ n, (n, n)) ex_profiles (resource_poly_degree (self ex_sched_world)) ex_perm
    = Ok ex_strategy ∧
  warm_up_steps (self ex_sched_world) = warm_up_steps ex_strategy ∧
  NoDup (dict_keys (resources_model (self ex_sched_world))) ∧
  (∀ d, d ∈ dict_keys (resources_model (self ex_sched_world)) →
        is_Some (gpu_lookup d.1 d.2 (self ex_sched_world))) ∧
  NoDup (sample ex_client_manager4 n n) ∧
  length (sample ex_client_manager4 n n) = n ∧
  ∃ fits w',
    configure_fit (TaskId := nat) 2 tt ex_client_manager4 [] ex_sched_world = (Ok fits, w') ∧
    (∀ d, d ∈ dict_keys (resources_model (self ex_sched_world)) →
          probe_sizes d (probes fits (client_configs_map (self w')))
          = warm_up_steps (self ex_sched_world)) ∧
    length (warm_up_steps (self ex_sched_world))
      = resource_poly_degree (self ex_sched_world) + 1 ∧
    NoDup (warm_up_steps (self ex_sched_world)) ∧
    (∀ (op : Op unit nat unit unit) r w1,
       run_op ex_aggregate op ex_sched_world = (r, w1) →
       warm_up_steps (self w1) = warm_up_steps (self ex_sched_world)).
Proof.
  intros n.
  assert (H1 : Permutation ex_perm warm_up_pool).
  { apply (bool_decide_unpack (ex_perm ≡ₚ warm_up_pool)). by vm_compute. }
  assert (H2 : init None (λ n, (n, n)) ex_profiles
                 (resource_poly_degree (self ex_sched_world)) ex_perm = Ok ex_strategy)
    by reflexivity.
  assert (H3 : warm_up_steps (self ex_sched_world) = warm_up_steps ex_strategy)
    by reflexivity.
  assert (H4 : NoDup (dict_keys (resources_model (self ex_sched_world)))).
  { simpl. apply NoDup_cons. split; [|apply NoDup_singleton].
    intros Hin%list_elem_of_singleton. discriminate. }
  assert (H5 : ∀ d, d ∈ dict_keys (resources_model (self ex_sched_world)) →
                    is_Some (gpu_lookup d.1 d.2 (self ex_sched_world))).
  { intros d Hd. simpl in Hd.
    apply elem_of_cons in Hd as [->|Hd]; [by eexists; vm_compute|].
    apply list_elem_of_singleton in Hd as ->. by eexists; vm_compute. }
  assert (H6 : NoDup (sample ex_client_manager4 n n)).
  { apply (bool_decide_unpack (NoDup (sample ex_client_manager4 n n))). by vm_compute. }
  assert (H7 : length (sample ex_client_manager4 n n) = n) by reflexivity.
  repeat (split; [assumption|]).
  exact (calibration_probes ex_aggregate ex_sched_world tt ex_client_manager4 []
           None (λ n, (n, n)) ex_profiles ex_perm ex_strategy H1 H2 H3 H4 H5 H6 H7).
Defined.

(** * Further properties of the code *)

(** ** Ordered dictionaries *)

Section dict_more.
Context {K V : Type} `{EqDecision K}.
Implicit Types (d : list (K * V)) (k : K) (v : V).

Lemma dict_get_None_notin d k : dict_get k d = None ↔ k ∉ dict_keys d.
Proof.
  unfold dict_keys. induction d as [|[k' v'] d IH]; simpl.
  - split; [intros _ ?%elem_of_nil; done|done].
  - destruct (decide (k = k')) as [->|Hne].
    + split; [done|]. intros Hnin. exfalso. apply Hnin. left.
    + rewrite IH, not_elem_of_cons. split; [by intros ?|by intros [_ ?]].
Qed.

Lemma dict_get_None_notin_inv d k : dict_get k d ≠ None → k ∈ dict_keys d.
Proof.
  intros Hget. destruct (decide (k ∈ dict_keys d)) as [|Hnin]; [done|].
  by apply dict_get_None_notin in Hnin.
Qed.

Lemma dict_keys_set_new d k v :
  dict_get k d = None → dict_keys (dict_set k v d) = dict_keys d ++ [k].
Proof.
  unfold dict_keys. induction d as [|[k' v'] d IH]; simpl; [done|].
  destruct (decide (k = k')) as [->|Hne]; simpl; [done|].
  intros Hget. f_equal. by apply IH.
Qed.

Lemma dict_set_NoDup d k v :
  NoDup (dict_keys d) → NoDup (dict_keys (dict_set k v d)).
Proof.
  intros Hnd. destruct (dict_get k d) as [v0|] eqn:Hget.
  - by erewrite dict_keys_set_in.
  - rewrite dict_keys_set_new by done.
    apply NoDup_app. split; [done|]. split; [|apply NoDup_singleton].
    intros x Hx ->%list_elem_of_singleton. by apply dict_get_None_notin in Hget.
Qed.
End dict_more.

(** ** The model map and the telemetry of a round *)

Section round_extras.
Context {T Poly SimpleCPU TaskId Parameters Failures Aggregate : Type}.
Context `{Numeric T} `{PolyLib T Poly} `{EqDecision TaskId}.
Context (FedAvg_aggregate_fit :
  Z → list (string * FitRes TaskId) → Failures → Aggregate).

Abbreviation world := (World T Poly SimpleCPU).
Abbreviation models_of := (λ w : world, resources_model (self w)).

(* a result without task id stops the first loop of aggregate_fit *)
Lemma tasks_to_cid_missing (results : list (string * FitRes TaskId)) (w : world) :
  (∃ r, r ∈ results ∧ task_id r.2 = None) →
  tasks_to_cid results w = (Raise KeyError, w).
Proof.
  unfold tasks_to_cid. generalize (@nil (TaskId * string)) as acc.
  induction results as [|[client fit_res] results IH]; intros acc (r & Hr & Hnone).
  - by apply elem_of_nil in Hr.
  - simpl. unfold bind at 1.
    destruct (task_id fit_res) as [tid|] eqn:Htid; simpl; [|done].
    apply IH. apply elem_of_cons in Hr as [->|Hr]; [simpl in Hnone; congruence|].
    by exists r.
Qed.

(** X2: in every round, a result whose metrics lack the monitoring task id
    makes aggregate_fit raise KeyError before anything is written: no model
    is updated, nothing is printed, FedAvg is not reached. *)
Theorem aggregate_fit_missing_task_id (w : world) (server_round : Z)
    (results : list (string * FitRes TaskId)) (failures : Failures)
    (monitors : list (Monitor SimpleCPU TaskId)) :
  (∃ r, r ∈ results ∧ task_id r.2 = None) →
  aggregate_fit FedAvg_aggregate_fit server_round results failures monitors w
  = (Raise KeyError, w).
Proof.
  intros Hmiss. unfold aggregate_fit.
  by rewrite (bind_raise _ _ w w KeyError (tasks_to_cid_missing results w Hmiss)).
Qed.

(** X3: from round 3 on, aggregate_fit only delegates: when every result
    carries a task id it returns the aggregate of FedAvg and leaves the
    strategy, the clients and the output untouched, whatever the monitors
    report. *)
Theorem aggregate_fit_steady (w : world) (server_round : Z)
    (results : list (string * FitRes TaskId)) (failures : Failures)
    (monitors : list (Monitor SimpleCPU TaskId)) :
  server_round ≠ 1%Z → server_round ≠ 2%Z →
  Forall (λ r, is_Some (task_id r.2)) results →
  aggregate_fit FedAvg_aggregate_fit server_round results failures monitors w
  = (Ok (FedAvg_aggregate_fit server_round results failures), w).
Proof.
  intros H1%Z.eqb_neq H2%Z.eqb_neq Hall.
  destruct (tasks_to_cid_ok results w Hall) as [t2c Ht2c].
  unfold aggregate_fit. rewrite (bind_ok _ _ w w t2c Ht2c).
  by rewrite H1, H2.
Qed.

(** X4: round 1 of aggregate_fit changes the model of a device only if a
    memory sample names it: a device that no monitor reports under its own
    node keeps its polynomial and its capacity, whether the call returns or
    raises. *)
Theorem round1_unsampled_device_kept (w w' : world)
    (results : list (string * FitRes TaskId)) (failures : Failures)
    (monitors : list (Monitor SimpleCPU TaskId)) (r : result Aggregate)
    (d : Device) :
  (∀ actor ids task gpu_uuid mem,
     actor ∈ monitors →
     task ∈ max_this_proc_mem_used_mb (aggregate_statistics actor ids) →
     (gpu_uuid, mem) ∈ task.2 →
     (name actor, gpu_uuid) ≠ d) →
  aggregate_fit FedAvg_aggregate_fit 1 results failures monitors w = (r, w') →
  dict_get d (models_of w') = dict_get d (models_of w).
Proof.
  intros Hother Hrun.
  eapply (inv_run (λ w0 : world, dict_get d (models_of w0) = dict_get d (models_of w)));
    [|reflexivity|exact Hrun].
  unfold aggregate_fit, aggregate_round1. simpl.
  inv_step; [apply (tasks_to_cid_frame
                      (λ m _ _, dict_get d m = dict_get d (models_of w)))|].
  inv_step; [|inv_step]. inv_step. inv_step. inv_step.
  destruct x1 as [gpu_uuid mem]. apply refine_capacity_inv_with.
  intros w0 gpu a0 poly t Hw0 _ _ _ _ n. simpl.
  rewrite dict_get_set_ne; [done|]. by eapply Hother.
Qed.
End round_extras.

Lemma aggregate_fit_missing_task_id_witness :
  let results := [("c1", {| task_id := Some 0%nat |}); ("c2", {| task_id := None |})] in
  (∃ r, r ∈ results ∧ task_id r.2 = None) ∧
  aggregate_fit ex_aggregate 1 results tt [ex_monitor 200 400 []] ex_world1
  = (Raise KeyError, ex_world1).
Proof.
  intros results.
  assert (H1 : ∃ r, r ∈ results ∧ task_id r.2 = None).
  { exists ("c2", {| task_id := None |}). split; [|reflexivity].
    right. left. }
  split; [exact H1|].
  exact (aggregate_fit_missing_task_id ex_aggregate ex_world1 1 results tt
           [ex_monitor 200 400 []] H1).
Defined.

Lemma aggregate_fit_steady_witness :
  3%Z ≠ 1%Z ∧ 3%Z ≠ 2%Z ∧
  Forall (λ r : string * FitRes nat, is_Some (task_id r.2)) ex_results2 ∧
  aggregate_fit ex_aggregate 3 ex_results2 tt [ex_monitor 200 400 []] ex_world1
  = (Ok (ex_aggregate 3 ex_results2 tt), ex_world1).
Proof.
  assert (H1 : 3%Z ≠ 1%Z) by lia.
  assert (H2 : 3%Z ≠ 2%Z) by lia.
  assert (H3 : Forall (λ r : string * FitRes nat, is_Some (task_id r.2)) ex_results2).
  { repeat (constructor; [by eexists|]). constructor. }
  repeat (split; [assumption|]).
  exact (aggregate_fit_steady ex_aggregate ex_world1 3 ex_results2 tt
           [ex_monitor 200 400 []] H1 H2 H3).
Defined.

Lemma round1_unsampled_device_kept_witness :
  let run := aggregate_fit ex_aggregate 1 ex_results tt [ex_monitor 200 400 []]
               ex_sched_world in
  (∀ (actor : Monitor unit nat) ids task gpu_uuid (mem : Z),
     actor ∈ [ex_monitor 200 400 []] →
     task ∈ max_this_proc_mem_used_mb (aggregate_statistics actor ids) →
     (gpu_uuid, mem) ∈ task.2 →
     (name actor, gpu_uuid) ≠ ("node-b", "GPU-1")) ∧
  dict_get ("node-b", "GPU-1") (resources_model (self run.2))
  = dict_get ("node-b", "GPU-1") (resources_model (self ex_sched_world)).
Proof.
  intros run.
  assert (H1 : ∀ (actor : Monitor unit nat) ids task gpu_uuid (mem : Z),
     actor ∈ [ex_monitor 200 400 []] →
     task ∈ max_this_proc_mem_used_mb (aggregate_statistics actor ids) →
     (gpu_uuid, mem) ∈ task.2 →
     (name actor, gpu_uuid) ≠ ("node-b", "GPU-1")).
  { intros actor ids task gpu_uuid mem ->%list_elem_of_singleton _ _. simpl.
    discriminate. }
  split; [exact H1|].
  exact (round1_unsampled_device_kept ex_aggregate ex_sched_world run.2 ex_results tt
           [ex_monitor 200 400 []] run.1 ("node-b", "GPU-1") H1
           (surjective_pairing run)).
Defined.

(** ** What a scheduling pass guarantees *)

Section sched_extras.
Context {T Poly SimpleCPU Parameters : Type}.
Context `{NumericOrder T} `{PolyLib T Poly}.

Abbreviation world := (World T Poly SimpleCPU).
Implicit Types (s : Strategy T Poly SimpleCPU) (parameters : Parameters)
  (cfg : gmap string (Scalar T)).

Lemma take_drop_length {A} n (l : list A) :
  take n l ++ drop (length (take n l)) l = l.
Proof.
  rewrite length_take. destruct (decide (n ≤ length l)).
  - rewrite Nat.min_l by done. apply take_drop.
  - rewrite Nat.min_r by lia. rewrite drop_all, take_ge by lia. apply app_nil_r.
Qed.

(* the placements are the units, in the order of the list *)
Lemma greedy_units s loads rem loads' out :
  greedy s loads rem loads' out → (λ p, (pl_cid p, pl_weight p)) <$> out = rem.
Proof.
  induction 1 as [|loads rem i d poly cap gpu batch wt cur loads' out
                   Hne Hmin Hmodel Hgpu Hbatch Hlw Hcur Hg IH]; [done|].
  rewrite fmap_app, IH.
  change (map (place d gpu (length batch)) batch)
    with (place d gpu (length batch) <$> batch).
  rewrite <- list_fmap_compose.
  rewrite (list_fmap_ext _ id batch) by (by intros ? [] ?).
  rewrite list_fmap_id, Hbatch. apply take_drop_length.
Qed.





End sched_extras.

Section sched_theorems.
Context {T Poly SimpleCPU Parameters : Type}.
Context `{NumericOrder T} `{PolyLib T Poly}.

Abbreviation world := (World T Poly SimpleCPU).
Implicit Types (s : Strategy T Poly SimpleCPU) (parameters : Parameters)
  (cfg : gmap string (Scalar T)).

(** X5: on a model map with capacities >= 1 the pass returns exactly one
    FitIns per unit, for every unit, in the order of the sorted list: by
    weight descending, ties in their original order.  No unit is dropped or
    served twice. *)
Theorem schedule_lists_every_unit (w : world) (l : nat) (units : list (string * Z))
    parameters cfg :
  heap w !! l = Some units →
  resources_model (self w) ≠ [] →
  capacity_ok (resources_model (self w)) →
  NoDup (dict_keys (resources_model (self w))) →
  (∀ d, d ∈ dict_keys (resources_model (self w)) →
        is_Some (gpu_lookup d.1 d.2 (self w))) →
  ∃ fits w' sorted,
    associate_resources parameters cfg l w = (Ok fits, w') ∧
    sorted_by_weight units sorted ∧
    fits.*1 = sorted.*1 ∧
    Permutation fits.*1 units.*1 ∧
    length fits = length units.
Proof.
  intros Hl Hne Hcap Hnd Hgpus.
  destruct (associate_resources_runs (self w) parameters cfg Hne Hcap Hnd Hgpus units)
    as (sorted & loads & out & makespan & Hsorted & Hgreedy & Hmax & Hruns).
  assert (Hfits : (fit_of parameters cfg <$> out).*1 = sorted.*1).
  { rewrite <- (greedy_units _ _ _ _ _ Hgreedy), <- !list_fmap_compose.
    by apply list_fmap_ext. }
  eexists _, _, sorted. split; [by eapply runs_world|].
  split; [done|]. split; [done|]. destruct Hsorted as (Hperm & _ & _). split.
  - by rewrite Hfits, Hperm.
  - apply (f_equal length) in Hfits. rewrite !length_fmap in Hfits.
    by rewrite length_fmap, Hfits, Hperm.
Qed.


Lemma py_truediv_1_nonzero n : n ≠ 0%Z → ∃ q, py_truediv_1 n = Ok q.
Proof.
  intros Hn. unfold py_truediv_1. apply Z.eqb_neq in Hn. rewrite Hn. by eexists.
Qed.

(* a batch with a share other than 1/0 is assigned without error *)
Lemma associate_clients_ok s v parameters cfg node_id gpu_uuid n these :
  n ≠ 0%Z → ∀ fits, ∃ fits' us,
    runs s v
      (λ _, foldM (associate_client parameters cfg node_id gpu_uuid n) fits these)
      (Ok fits') us v.
Proof.
  intros Hn. destruct (py_truediv_1_nonzero n Hn) as [q Hq].
  induction these as [|[client num_steps] these IH]; intros fits; cbn [foldM].
  - eexists _, _. apply runs_ret.
  - destruct (IH (fits ++ [(client, {| fit_parameters := parameters;
                                       fit_config := cfg |})]))
      as (fits' & us & Hruns).
    eexists fits', _.
    eapply (runs_bind s v (λ _, associate_client _ _ _ _ _ _ _)
              (λ _ b, foldM _ b these)); [|exact Hruns].
    unfold associate_client.
    apply (runs_bind_update s v _ (USched client node_id) (λ _ _, _)); [done|].
    apply (runs_bind_lift s v _ (λ _ _, _) _ _ _ _ Hq).
    apply (runs_bind_update s v _ (UGpu client q) (λ _ _, _)); [done|].
    apply (runs_bind_update s v _
             (UConf client (node_id, gpu_uuid, num_steps)) (λ _ _, _)); [done|].
    apply runs_ret.
Qed.

Section nonpositive.
Context (s : Strategy T Poly SimpleCPU) (parameters : Parameters)
  (cfg : gmap string (Scalar T)).
Context (Hne : resources_model s ≠ []).
Context (Hcap : Forall (λ e, (e.2.2 ≤ 0)%Z) (resources_model s)).
Context (Hnd : NoDup (dict_keys (resources_model s))).
Context (Hgpus : ∀ d, d ∈ dict_keys (resources_model s) →
                      is_Some (gpu_lookup d.1 d.2 s)).

(* an iteration on a device of capacity <= 0: an empty batch raises; a
   negative capacity slices from the end and leaves units behind *)
Lemma associate_step_nonpositive (v : list (string * Z)) loads
    (fits : list (string * FitIns T Parameters)) :
  v ≠ [] → length loads = length (resources_model s) →
  tracked_with s v
    (λ l, associate_step parameters cfg l (dict_keys (resources_model s)) (loads, fits))
    (λ r v', r = Raise IndexError ∨
             ∃ st, r = Ok st ∧ length st.1 = length loads ∧
                   v' ≠ [] ∧ length v' < length v).
Proof.
  intros Hv Hloads.
  destruct (first_min_device loads) as (m & i & Hmin & Hidx & (cur & Hcur & _)).
  { intros ->. simpl in Hloads. by destruct (resources_model s). }
  destruct (lookup_lt_is_Some_2 (resources_model s) i) as [[d [poly cap]] Hmodel].
  { rewrite <- Hloads. by eapply lookup_lt_Some. }
  assert (Hkey : dict_keys (resources_model s) !! i = Some d).
  { unfold dict_keys. by rewrite list_lookup_fmap, Hmodel. }
  destruct (Hgpus d) as [gpu Hgpu]; [by eapply list_elem_of_lookup_2|].
  assert (Hget : dict_get d (resources_model s) = Some (poly, cap)).
  { apply dict_get_NoDup; [done|]. by eapply list_elem_of_lookup_2. }
  assert (Hcap0 : (cap ≤ 0)%Z).
  { rewrite Forall_forall in Hcap.
    apply (Hcap (d, (poly, cap))). by eapply list_elem_of_lookup_2. }
  destruct d as [node_id gpu_uuid].
  destruct (head (py_take (Z.min cap (Z.of_nat (length v))) v))
    as [first|] eqn:Hhead.
  - assert (Hneg : (cap < 0)%Z).
    { destruct (decide (cap = 0%Z)) as [->|]; [|lia].
      unfold py_take, slice_stop in Hhead.
      replace (Z.min 0 (Z.of_nat (length v))) with 0%Z in Hhead by lia.
      simpl in Hhead. first [done|by rewrite take_0 in Hhead]. }
    destruct (associate_clients_ok s v parameters
                (<["gpu_id" := SInt (gpu_id gpu)]> cfg) node_id gpu_uuid
                (Z.min cap (Z.of_nat (length v)))
                (py_take (Z.min cap (Z.of_nat (length v))) v)) with fits
      as (fits' & us & Hclients); [lia|].
    eapply (tracked_with_intro _ _ _
              (Ok (<[i := add cur (poly_call poly first.2)]> loads, fits')) us
              (py_del (Z.min cap (Z.of_nat (length v))) v)).
    + unfold associate_step.
      eapply runs_bind_lift; [exact Hmin|].
      eapply runs_bind_lift; [exact Hidx|].
      eapply runs_bind_lookup; [exact Hkey|].
      eapply (runs_bind_read_or s v KeyError _ _ gpu); [intros; exact Hgpu|].
      eapply (runs_bind_read_or s v KeyError _ _ (poly, cap)); [intros; exact Hget|].
      eapply runs_bind_deref.
      eapply runs_bind_lookup; [exact Hhead|].
      eapply runs_bind_lookup; [exact Hcur|].
      eapply (runs_bind_eq s v (λ _, foldM _ _ _)); [exact Hclients| |by rewrite app_nil_r].
      eapply runs_bind_store. apply runs_ret.
    + right. eexists. split; [done|]. simpl. rewrite length_insert.
      split; [done|]. split; [|by eapply py_del_shorter].
      intros Hnil. apply (f_equal length) in Hnil.
      assert (Hpos : 0 < length v) by (destruct v; [done|simpl; lia]).
      unfold py_del, slice_stop in Hnil. rewrite length_drop in Hnil.
      destruct (Z.leb_spec 0 (Z.min cap (Z.of_nat (length v))));
        cbn [length] in Hnil; lia.
  - eapply (tracked_with_intro _ _ _ (Raise IndexError) [] v); [|by left].
    unfold associate_step.
    eapply runs_bind_lift; [exact Hmin|].
    eapply runs_bind_lift; [exact Hidx|].
    eapply runs_bind_lookup; [exact Hkey|].
    eapply (runs_bind_read_or s v KeyError _ _ gpu); [intros; exact Hgpu|].
    eapply (runs_bind_read_or s v KeyError _ _ (poly, cap)); [intros; exact Hget|].
    eapply runs_bind_deref.
    eapply runs_bind_raise. by apply runs_lookup_none.
Qed.

Lemma associate_loop_nonpositive fuel :
  ∀ (v : list (string * Z)) loads (fits : list (string * FitIns T Parameters)),
    length v ≤ fuel → v ≠ [] → length loads = length (resources_model s) →
    tracked_with s v
      (λ l, associate_loop fuel parameters cfg l (dict_keys (resources_model s))
              (loads, fits))
      (λ r _, r = Raise IndexError).
Proof.
  induction fuel as [|fuel IH]; intros v loads fits Hfuel Hv Hloads.
  - destruct v; [done|simpl in Hfuel; lia].
  - destruct v as [|u v0]; [done|]. cbn [associate_loop].
    destruct (associate_step_nonpositive (u :: v0) loads fits Hv Hloads)
      as (r1 & us1 & v1 & Hstep & [->|(st & -> & Hlen & Hv1 & Hshort)]).
    + eapply tracked_with_intro;
        [eapply runs_bind_deref; by eapply runs_bind_raise|done].
    + destruct st as [loads1 fits1].
      destruct (IH v1 loads1 fits1) as (r2 & us2 & v2 & Hloop & ->);
        [simpl in *; lia|done|simpl in *; congruence|].
      eapply tracked_with_intro; [|done]. eapply runs_bind_deref.
      by eapply (runs_bind s (u :: v0) (λ l, associate_step _ _ l _ _)
                   (λ l st', associate_loop fuel _ _ l _ st')).
Qed.
End nonpositive.

(** X7: when no device has a capacity of at least 1 (round 1 stores 0 for a
    device that other processes fill), a pass over a non-empty list never
    yields an assignment: a capacity of 0 slices an empty batch at once, a
    negative one slices from the end until the batch is empty, and reading
    the first unit of the empty batch raises IndexError. *)
Theorem nonpositive_capacity_raises (w : world) (l : nat) (units : list (string * Z))
    parameters cfg :
  heap w !! l = Some units →
  units ≠ [] →
  resources_model (self w) ≠ [] →
  Forall (λ e, (e.2.2 ≤ 0)%Z) (resources_model (self w)) →
  NoDup (dict_keys (resources_model (self w))) →
  (∀ d, d ∈ dict_keys (resources_model (self w)) →
        is_Some (gpu_lookup d.1 d.2 (self w))) →
  (associate_resources parameters cfg l w).1 = Raise IndexError.
Proof.
  intros Hl Hunits Hne Hcap Hnd Hgpus.
  destruct (associate_loop_nonpositive (self w) parameters cfg Hne Hcap Hnd Hgpus
              (length units) (sort_reverse snd units)
              (replicate (length (resources_model (self w))) zero) [])
    as (r & us & v' & Hloop & ->).
  { by rewrite <- (Permutation_length (sort_reverse_perm snd units)). }
  { intros Hnil. apply (f_equal length) in Hnil.
    rewrite <- (Permutation_length (sort_reverse_perm snd units)) in Hnil.
    by destruct units. }
  { by rewrite length_replicate. }
  assert (Hruns : runs (self w) units (λ l, associate_resources parameters cfg l)
                    (Raise IndexError) us v').
  { unfold associate_resources.
    eapply runs_bind_deref. eapply runs_bind_store.
    eapply (runs_bind_read (self w) _ _ _ (resources_model (self w))); [done|].
    by eapply runs_bind_raise. }
  by rewrite (runs_world _ _ _ _ _ _ w l Hruns eq_refl Hl).
Qed.
End sched_theorems.

Lemma schedule_lists_every_unit_witness :
  heap ex_sched_world !! 0 = Some ex_units ∧
  resources_model (self ex_sched_world) ≠ [] ∧
  capacity_ok (resources_model (self ex_sched_world)) ∧
  NoDup (dict_keys (resources_model (self ex_sched_world))) ∧
  (∀ d, d ∈ dict_keys (resources_model (self ex_sched_world)) →
        is_Some (gpu_lookup d.1 d.2 (self ex_sched_world))) ∧
  ∃ fits w' sorted,
    associate_resources tt ∅ 0 ex_sched_world = (Ok fits, w') ∧
    sorted_by_weight ex_units sorted ∧
    fits.*1 = sorted.*1 ∧
    Permutation fits.*1 ex_units.*1 ∧
    length fits = length ex_units.
Proof.
  assert (H1 : heap ex_sched_world !! 0 = Some ex_units) by reflexivity.
  assert (H3 : resources_model (self ex_sched_world) ≠ []) by discriminate.
  assert (H4 : capacity_ok (resources_model (self ex_sched_world))).
  { repeat (constructor; [simpl; lia|]). constructor. }
  assert (H5 : NoDup (dict_keys (resources_model (self ex_sched_world)))).
  { apply (bool_decide_unpack
             (NoDup (dict_keys (resources_model (self ex_sched_world))))).
    by vm_compute. }
  assert (H6 : ∀ d, d ∈ dict_keys (resources_model (self ex_sched_world)) →
                    is_Some (gpu_lookup d.1 d.2 (self ex_sched_world))).
  { intros d Hd. simpl in Hd.
    apply elem_of_cons in Hd as [->|Hd]; [by eexists; vm_compute|].
    apply list_elem_of_singleton in Hd as ->. by eexists; vm_compute. }
  repeat (split; [assumption|]).
  exact (schedule_lists_every_unit ex_sched_world 0 ex_units tt ∅ H1 H3 H4 H5 H6).
Defined.


Lemma nonpositive_capacity_raises_witness :
  heap ex_zero_world !! 0 = Some ex_three_units ∧
  ex_three_units ≠ [] ∧
  resources_model (self ex_zero_world) ≠ [] ∧
  Forall (λ e : Device * (list Z * Z), (e.2.2 ≤ 0)%Z)
         (resources_model (self ex_zero_world)) ∧
  NoDup (dict_keys (resources_model (self ex_zero_world))) ∧
  (∀ d, d ∈ dict_keys (resources_model (self ex_zero_world)) →
        is_Some (gpu_lookup d.1 d.2 (self ex_zero_world))) ∧
  (associate_resources tt ∅ 0 ex_zero_world).1 = Raise IndexError.
Proof.
  assert (H1 : heap ex_zero_world !! 0 = Some ex_three_units) by reflexivity.
  assert (H2 : ex_three_units ≠ []) by discriminate.
  assert (H3 : resources_model (self ex_zero_world) ≠ []) by discriminate.
  assert (H4 : Forall (λ e : Device * (list Z * Z), (e.2.2 ≤ 0)%Z)
                      (resources_model (self ex_zero_world))).
  { repeat (constructor; [simpl; lia|]). constructor. }
  assert (H5 : NoDup (dict_keys (resources_model (self ex_zero_world)))).
  { simpl. apply NoDup_singleton. }
  assert (H6 : ∀ d, d ∈ dict_keys (resources_model (self ex_zero_world)) →
                    is_Some (gpu_lookup d.1 d.2 (self ex_zero_world))).
  { intros d Hd. simpl in Hd.
    apply list_elem_of_singleton in Hd as ->. by eexists; vm_compute. }
  repeat (split; [assumption|]).
  exact (nonpositive_capacity_raises ex_zero_world 0 ex_three_units tt ∅
           H1 H2 H3 H4 H5 H6).
Defined.

Lemma associate_resources_total_witness :
  heap ex_zero_world !! 0 = Some ex_three_units ∧
  (associate_resources tt ∅ 0 ex_zero_world).1 ≠ Diverge.
Proof.
  assert (H1 : heap ex_zero_world !! 0 = Some ex_three_units) by reflexivity.
  split; [exact H1|].
  exact (associate_resources_total tt ∅ ex_zero_world 0 ex_three_units H1).
Defined.

(** ** configure_fit from round 3 on *)

Section configure_extras.
Context {T Poly SimpleCPU TaskId Parameters : Type}.
Context `{NumericOrder T} `{PolyLib T Poly}.

Abbreviation world := (World T Poly SimpleCPU).

(* the list comprehension over the sampled clients *)
Lemma train_weights_fold (clients : list string) (w : world) acc :
  foldM (λ acc client,
           weight <- read_or (W := world) KeyError
             (λ w, profiles (self w) !! "train" ≫= (λ p, p !! client));;
           ret (acc ++ [(client, weight)]))
        acc clients w
  = match train_weights (profiles (self w)) clients with
    | Some units => (Ok (acc ++ units), w)
    | None => (Raise KeyError, w)
    end.
Proof.
  revert acc. induction clients as [|client clients IH]; intros acc; simpl.
  - by rewrite app_nil_r.
  - unfold bind at 1 2, read_or at 1.
    destruct (profiles (self w) !! "train" ≫= (λ p, p !! client)) as [weight|];
      simpl; [|done].
    unfold ret at 1. rewrite IH.
    destruct (train_weights (profiles (self w)) clients) as [units|]; [|done].
    by rewrite <- app_assoc.
Qed.

(** X9: from round 3 on, configure_fit prints its banner, pairs every sampled
    client with its entry of profiles["train"] and schedules these units on a
    list object of its own: on a model map with capacities >= 1 the result is
    the greedy assignment of the units sorted by weight, and the fresh list it
    allocated is left empty. *)
Theorem configure_fit_steady (w : world) (server_round : Z) (parameters : Parameters)
    (cm : ClientManager) (monitors : list (Monitor SimpleCPU TaskId))
    (units : list (string * Z)) :
  server_round ≠ 1%Z → server_round ≠ 2%Z →
  (let n := num_fit_clients (self w) (num_available cm) in
   train_weights (profiles (self w)) (sample cm n.1 n.2) = Some units) →
  resources_model (self w) ≠ [] →
  capacity_ok (resources_model (self w)) →
  NoDup (dict_keys (resources_model (self w))) →
  (∀ d, d ∈ dict_keys (resources_model (self w)) →
        is_Some (gpu_lookup d.1 d.2 (self w))) →
  let config := match on_fit_config_fn (self w) with
                | Some f => f server_round
                | None => ∅
                end in
  ∃ sorted loads out makespan,
    sorted_by_weight units sorted ∧
    greedy (self w) (replicate (length (resources_model (self w))) zero)
           sorted loads out ∧
    py_max loads = Ok makespan ∧
    configure_fit server_round parameters cm monitors w =
    (Ok (fit_of parameters config <$> out),
     apply_updates (concat (updates_of <$> out) ++ [UPrint (PrintExpected makespan)])
       (with_heap (λ h, h ++ [[]]) (print (PrintConfigFit server_round) w))).
Proof.
  intros Hr1%Z.eqb_neq Hr2%Z.eqb_neq Hunits Hne Hcap Hnd Hgpus config.
  destruct (associate_resources_runs (self w) parameters config Hne Hcap Hnd Hgpus units)
    as (sorted & loads & out & makespan & Hsorted & Hgreedy & Hmax & Hruns).
  exists sorted, loads, out, makespan. repeat split; try done; try apply Hsorted.
  unfold configure_fit. rewrite Hr1, Hr2.
  unfold bind at 1, read at 1. fold config.
  unfold bind at 1, modify at 1.
  unfold bind at 1, read at 1. simpl in Hunits |- *.
  destruct (num_fit_clients (self w) (num_available cm)) as [n mn].
  unfold bind at 1. rewrite train_weights_fold. simpl in Hunits |- *.
  rewrite Hunits.
  unfold bind, alloc.
  rewrite (runs_world _ _ _ _ _ _
             (with_heap (λ h, h ++ [units]) (print (PrintConfigFit server_round) w))
             (length (heap (print (PrintConfigFit server_round) w))) Hruns eq_refl).
  - do 2 f_equal. unfold with_heap, print. simpl. f_equal.
    rewrite insert_app_r_alt by lia. by rewrite Nat.sub_diag.
  - simpl. by rewrite lookup_app_r, Nat.sub_diag by lia.
Qed.

(* the comprehension fails exactly when a client has no weight *)
Lemma train_weights_None profs clients :
  train_weights profs clients = None ↔
  ∃ c, c ∈ clients ∧ profs !! "train" ≫= (λ p, p !! c) = None.
Proof.
  induction clients as [|client clients IH]; simpl.
  - split; [done|]. by intros (c & ?%elem_of_nil & _).
  - destruct (profs !! "train" ≫= (λ p, p !! client)) as [weight|] eqn:Hc.
    + destruct (train_weights profs clients) as [units|].
      * split; [done|]. intros (c & [->|Hin]%elem_of_cons & Hnone); [congruence|].
        destruct IH as [_ IH]. by discriminate IH; exists c.
      * split; [|done]. intros _. destruct IH as [IH _].
        destruct (IH eq_refl) as (c & Hin & Hnone). exists c. split; [by right|done].
    + split; [|done]. intros _. exists client. split; [left|done].
Qed.

(** X10: from round 3 on, a sampled client without an entry in
    profiles["train"] (or profiles without the key "train") makes configure_fit
    raise KeyError after the banner has been printed: nothing is scheduled, no
    client or strategy field is written. *)
Theorem configure_fit_missing_profile (w : world) (server_round : Z)
    (parameters : Parameters) (cm : ClientManager)
    (monitors : list (Monitor SimpleCPU TaskId)) :
  server_round ≠ 1%Z → server_round ≠ 2%Z →
  (let n := num_fit_clients (self w) (num_available cm) in
   ∃ c, c ∈ sample cm n.1 n.2 ∧
        profiles (self w) !! "train" ≫= (λ p, p !! c) = None) →
  configure_fit server_round parameters cm monitors w =
  (Raise KeyError, print (PrintConfigFit server_round) w).
Proof.
  intros Hr1%Z.eqb_neq Hr2%Z.eqb_neq Hunits.
  apply train_weights_None in Hunits.
  unfold configure_fit. rewrite Hr1, Hr2.
  unfold bind at 1, read at 1.
  unfold bind at 1, modify at 1.
  unfold bind at 1, read at 1. simpl in Hunits |- *.
  destruct (num_fit_clients (self w) (num_available cm)) as [n mn].
  unfold bind at 1. rewrite train_weights_fold. simpl in Hunits |- *.
  by rewrite Hunits.
Qed.
End configure_extras.

Lemma configure_fit_steady_witness :
  let w := ex_single_world [] in
  3%Z ≠ 1%Z ∧ 3%Z ≠ 2%Z ∧
  (let n := num_fit_clients (self w) (num_available ex_client_manager) in
   train_weights (profiles (self w)) (sample ex_client_manager n.1 n.2)
   = Some ex_three_units) ∧
  resources_model (self w) ≠ [] ∧
  capacity_ok (resources_model (self w)) ∧
  NoDup (dict_keys (resources_model (self w))) ∧
  (∀ d, d ∈ dict_keys (resources_model (self w)) →
        is_Some (gpu_lookup d.1 d.2 (self w))) ∧
  ∃ sorted loads out makespan,
    sorted_by_weight ex_three_units sorted ∧
    greedy (self w) (replicate (length (resources_model (self w))) zero)
           sorted loads out ∧
    py_max loads = Ok makespan ∧
    configure_fit (TaskId := nat) 3 tt ex_client_manager [] w =
    (Ok (fit_of tt ∅ <$> out),
     apply_updates (concat (updates_of <$> out) ++ [UPrint (PrintExpected makespan)])
       (with_heap (λ h, h ++ [[]]) (print (PrintConfigFit 3) w))).
Proof.
  intros w.
  assert (H1 : 3%Z ≠ 1%Z) by lia.
  assert (H2 : 3%Z ≠ 2%Z) by lia.
  assert (H3 : let n := num_fit_clients (self w) (num_available ex_client_manager) in
               train_weights (profiles (self w)) (sample ex_client_manager n.1 n.2)
               = Some ex_three_units) by (vm_compute; reflexivity).
  assert (H4 : resources_model (self w) ≠ []) by discriminate.
  assert (H5 : capacity_ok (resources_model (self w))).
  { repeat (constructor; [simpl; lia|]). constructor. }
  assert (H6 : NoDup (dict_keys (resources_model (self w)))).
  { simpl. apply NoDup_singleton. }
  assert (H7 : ∀ d, d ∈ dict_keys (resources_model (self w)) →
                    is_Some (gpu_lookup d.1 d.2 (self w))).
  { intros d Hd. simpl in Hd.
    apply list_elem_of_singleton in Hd as ->. by eexists; vm_compute. }
  repeat (split; [assumption|]).
  exact (configure_fit_steady (TaskId := nat) w 3 tt ex_client_manager [] ex_three_units
           H1 H2 H3 H4 H5 H6 H7).
Defined.

Lemma configure_fit_missing_profile_witness :
  let w := ex_single_world [] in
  3%Z ≠ 1%Z ∧ 3%Z ≠ 2%Z ∧
  (let n := num_fit_clients (self w) (num_available ex_client_manager4) in
   ∃ c, c ∈ sample ex_client_manager4 n.1 n.2 ∧
        profiles (self w) !! "train" ≫= (λ p, p !! c) = None) ∧
  configure_fit (TaskId := nat) 3 tt ex_client_manager4 [] w =
  (Raise KeyError, print (PrintConfigFit 3) w).
Proof.
  intros w.
  assert (H1 : 3%Z ≠ 1%Z) by lia.
  assert (H2 : 3%Z ≠ 2%Z) by lia.
  assert (H3 : let n := num_fit_clients (self w) (num_available ex_client_manager4) in
               ∃ c, c ∈ sample ex_client_manager4 n.1 n.2 ∧
                    profiles (self w) !! "train" ≫= (λ p, p !! c) = None).
  { exists "c4". split; [|vm_compute; reflexivity].
    simpl. do 3 right. left. }
  repeat (split; [assumption|]).
  exact (configure_fit_missing_profile (TaskId := nat) w 3 tt ex_client_manager4 []
           H1 H2 H3).
Defined.

(** ** Discovery (round 1 of configure_fit) *)

Section dict_fold.
Context {K V : Type} `{EqDecision K}.
Implicit Types (d : list (K * V)) (k : K) (v : V).

Lemma dict_keys_set_elem d k k' v :
  k' ∈ dict_keys (dict_set k v d) ↔ k' ∈ dict_keys d ∨ k' = k.
Proof.
  destruct (dict_get k d) as [v0|] eqn:Hget.
  - erewrite dict_keys_set_in by done. split; [by left|].
    intros [?| ->]; [done|]. apply dict_get_None_notin_inv. by rewrite Hget.
  - rewrite dict_keys_set_new by done.
    rewrite elem_of_app, list_elem_of_singleton. done.
Qed.

Lemma foldl_dict_set_get d (ks : list K) v k :
  dict_get k (foldl (λ d k, dict_set k v d) d ks)
  = if decide (k ∈ ks) then Some v else dict_get k d.
Proof.
  revert d. induction ks as [|k0 ks IH]; intros d; cbn [foldl].
  - rewrite decide_False; [done|]. by intros ?%elem_of_nil.
  - rewrite IH. destruct (decide (k ∈ ks)) as [Hin|Hnin].
    + rewrite decide_True; [done|]. by right.
    + destruct (decide (k = k0)) as [->|Hne].
      * rewrite decide_True by left. apply dict_get_set_eq.
      * rewrite decide_False; [by apply dict_get_set_ne|].
        by intros [?|?]%elem_of_cons.
Qed.

Lemma foldl_dict_set_keys d (ks : list K) v k :
  k ∈ dict_keys (foldl (λ d k, dict_set k v d) d ks) ↔ k ∈ dict_keys d ∨ k ∈ ks.
Proof.
  revert d. induction ks as [|k0 ks IH]; intros d; cbn [foldl].
  - split; [by left|]. by intros [?|?%elem_of_nil].
  - rewrite IH, dict_keys_set_elem, elem_of_cons. tauto.
Qed.

Lemma foldl_dict_set_NoDup d (ks : list K) v :
  NoDup (dict_keys d) → NoDup (dict_keys (foldl (λ d k, dict_set k v d) d ks)).
Proof.
  revert d. induction ks as [|k0 ks IH]; intros d Hnd; [done|]. simpl.
  by apply IH, dict_set_NoDup.
Qed.

Lemma dict_set_length d k v : length (dict_set k v d) ≤ S (length d).
Proof.
  induction d as [|[k' v'] d IH]; simpl; [done|].
  destruct (decide (k = k')); simpl; lia.
Qed.

Lemma foldl_dict_set_length d (ks : list K) v :
  length (foldl (λ d k, dict_set k v d) d ks) ≤ length d + length ks.
Proof.
  revert d. induction ks as [|k0 ks IH]; intros d; simpl; [lia|].
  etrans; [apply IH|]. pose proof (dict_set_length d k0 v). lia.
Qed.
End dict_fold.

Section discovery.
Context {T Poly SimpleCPU TaskId Parameters : Type}.
Context `{Numeric T} `{PolyLib T Poly}.

Abbreviation world := (World T Poly SimpleCPU).
Abbreviation models_of := (λ w : world, resources_model (self w)).
Implicit Types (s : Strategy T Poly SimpleCPU) (actor : Monitor SimpleCPU TaskId)
  (monitors : list (Monitor SimpleCPU TaskId)).

(* the inner loop of request_available_resources never raises *)
Lemma store_resources_spec node_id (entries : list (string * NodeResource SimpleCPU)) :
  ∀ w : world, is_Some (gpu_resources (self w) !! node_id) →
    for_ entries (λ '(k, v),
      match v with
      | IsGPU g =>
          gpus <- read_or (W := world) KeyError
                    (λ w, gpu_resources (self w) !! node_id);;
          do modify (with_self (set_gpu_resources (<[node_id := <[k := g]> gpus]>)));;
          create_model node_id (uuid g)
      | IsCPU c => modify (with_self (set_cpu_resources (<[node_id := c]>)))
      | IsOther => ret tt
      end) w
    = (Ok tt, with_self (λ s, foldl (store_resource node_id) s entries) w).
Proof.
  unfold for_.
  induction entries as [|[k [g|c|]] entries IH]; intros w [gm Hgm]; cbn [foldM foldl].
  - by destruct w.
  - unfold bind at 1 2 3, read_or. rewrite Hgm. unfold modify at 1.
    rewrite create_model_spec. rewrite IH.
    + assert (Hs : store_resource (T := T) (Poly := Poly) node_id (self w) (k, IsGPU g)
                   = set_resources_model
                       (dict_set (node_id, uuid g)
                          (Polynomial (one :: replicate (resource_poly_degree (self w)) zero),
                           1%Z))
                       (set_gpu_resources (<[node_id := <[k := g]> gm]>) (self w))).
      { unfold store_resource, initial_model, set_gpu_resources. simpl.
        by rewrite Hgm. }
      f_equal. unfold with_self. cbn [self clients heap stdout]. by rewrite Hs.
    + simpl. rewrite lookup_insert_eq. by eexists.
  - unfold bind at 1, modify at 1. rewrite IH; [done|]. simpl. by eexists.
  - unfold bind at 1, ret at 1. rewrite IH; [done|]. by eexists.
Qed.

Lemma request_available_resources_spec monitors (w : world) :
  request_available_resources monitors w
  = (Ok tt, with_self (λ s, foldl store_monitor s monitors) w).
Proof.
  unfold request_available_resources. unfold for_ at 1. revert w.
  induction monitors as [|actor monitors IH]; intros w; cbn [foldM foldl].
  - by destruct w.
  - unfold bind at 1 2, modify at 1. rewrite store_resources_spec.
    + rewrite IH. done.
    + simpl. rewrite lookup_insert_eq. by eexists.
Qed.

(* the fields discovery does not write *)
Lemma store_resources_fields node_id (entries : list (string * NodeResource SimpleCPU)) s :
  let s' := foldl (store_resource node_id) s entries in
  resource_poly_degree s' = resource_poly_degree s ∧
  warm_up_steps s' = warm_up_steps s ∧
  client_configs_map s' = client_configs_map s ∧
  profiles s' = profiles s.
Proof.
  revert s. induction entries as [|[k [g|c|]] entries IH]; intros s; simpl; [done|..];
    destruct (IH (store_resource node_id s (k, IsGPU g))) as (-> & -> & -> & ->)
    || destruct (IH (store_resource node_id s (k, IsCPU c))) as (-> & -> & -> & ->)
    || destruct (IH (store_resource node_id s (k, IsOther))) as (-> & -> & -> & ->);
    done.
Qed.

Lemma store_monitors_fields monitors s :
  let s' := foldl store_monitor s monitors in
  resource_poly_degree s' = resource_poly_degree s ∧
  warm_up_steps s' = warm_up_steps s ∧
  client_configs_map s' = client_configs_map s ∧
  profiles s' = profiles s.
Proof.
  revert s. induction monitors as [|actor monitors IH]; intros s; simpl; [done|].
  destruct (IH (store_monitor s actor)) as (-> & -> & -> & ->).
  apply (store_resources_fields (name actor) (get_resources actor)
           (set_gpu_resources (<[name actor := ∅]>) s)).
Qed.

(* the model map after discovery *)
Lemma store_resources_models node_id (entries : list (string * NodeResource SimpleCPU)) s :
  resources_model (foldl (store_resource node_id) s entries)
  = foldl (λ d k, dict_set k (initial_model (resource_poly_degree s)) d)
          (resources_model s)
          (omap (λ kv, match kv.2 with
                       | IsGPU g => Some (node_id, uuid g)
                       | _ => None
                       end) entries).
Proof.
  revert s. induction entries as [|[k [g|c|]] entries IH]; intros s; simpl; [done|..];
    by rewrite IH.
Qed.

Lemma store_monitors_models monitors s :
  resources_model (foldl store_monitor s monitors)
  = foldl (λ d k, dict_set k (initial_model (resource_poly_degree s)) d)
          (resources_model s) (monitors ≫= reported_gpus).
Proof.
  revert s. induction monitors as [|actor monitors IH]; intros s; [done|].
  cbn [foldl]. rewrite IH, bind_cons, foldl_app.
  assert (Hd : resource_poly_degree (store_monitor s actor) = resource_poly_degree s).
  { apply (store_resources_fields (name actor) (get_resources actor)
             (set_gpu_resources (<[name actor := ∅]>) s)). }
  assert (Hm : resources_model (store_monitor s actor)
               = foldl (λ d k, dict_set k (initial_model (resource_poly_degree s)) d)
                       (resources_model s) (reported_gpus actor)).
  { unfold store_monitor. by rewrite store_resources_models. }
  by rewrite Hd, Hm.
Qed.

(* the inventory after discovery *)
Lemma store_resources_gpus node_id (entries : list (string * NodeResource SimpleCPU)) s :
  let s' := foldl (store_resource node_id) s entries in
  (∀ n u, n ≠ node_id → gpu_lookup n u s' = gpu_lookup n u s) ∧
  (∀ u, is_Some (gpu_lookup node_id u s) → is_Some (gpu_lookup node_id u s')) ∧
  (∀ k g, (k, IsGPU g) ∈ entries → is_Some (gpu_lookup node_id k s')).
Proof.
  revert s. induction entries as [|[k v] entries IH]; intros s; cbn [foldl].
  - repeat split; try done. by intros k g ?%elem_of_nil.
  - destruct (IH (store_resource node_id s (k, v))) as (IH1 & IH2 & IH3).
    assert (Hother : ∀ n u, n ≠ node_id →
              gpu_lookup n u (store_resource node_id s (k, v)) = gpu_lookup n u s).
    { intros n u Hn. unfold store_resource, gpu_lookup. destruct v; simpl; [|done..].
      by rewrite lookup_insert_ne. }
    assert (Hkeep : ∀ u, is_Some (gpu_lookup node_id u s) →
              is_Some (gpu_lookup node_id u (store_resource node_id s (k, v)))).
    { intros u. unfold store_resource, gpu_lookup. destruct v; simpl; [|done..].
      rewrite lookup_insert_eq. simpl.
      destruct (gpu_resources s !! node_id) as [gm|]; simpl; [|by intros [? ?]].
      destruct (decide (k = u)) as [->|Hne].
      - rewrite lookup_insert_eq. by eexists.
      - by rewrite lookup_insert_ne. }
    repeat split.
    + intros n u Hn. by rewrite IH1, Hother.
    + intros u Hu. by apply IH2, Hkeep.
    + intros k' g [[= -> <-]|Hin]%elem_of_cons; [|by eapply IH3].
      apply IH2. unfold store_resource, gpu_lookup. simpl.
      rewrite lookup_insert_eq. simpl. rewrite lookup_insert_eq. by eexists.
Qed.

Lemma store_monitor_gpus actor s :
  (∀ n u, n ≠ name actor →
          gpu_lookup n u (store_monitor s actor) = gpu_lookup n u s) ∧
  (∀ k g, (k, IsGPU g) ∈ get_resources actor →
          is_Some (gpu_lookup (name actor) k (store_monitor s actor))).
Proof.
  destruct (store_resources_gpus (name actor) (get_resources actor)
              (set_gpu_resources (<[name actor := ∅]>) s)) as (H1' & _ & H3').
  split; [|exact H3'].
  intros n u Hn. unfold store_monitor. rewrite H1' by done.
  unfold gpu_lookup. simpl. by rewrite lookup_insert_ne.
Qed.

Lemma store_monitors_gpus monitors s actor k g :
  NoDup (name <$> monitors) →
  actor ∈ monitors → (k, IsGPU g) ∈ get_resources actor →
  is_Some (gpu_lookup (name actor) k (foldl store_monitor s monitors)).
Proof.
  revert s. induction monitors as [|a monitors IH]; intros s Hnd Hactor Hk.
  - by apply elem_of_nil in Hactor.
  - rewrite fmap_cons in Hnd. apply NoDup_cons in Hnd as [Hnin Hnd]. cbn [foldl].
    apply elem_of_cons in Hactor as [->|Hactor]; [|by apply IH].
    assert (Hlater : ∀ (ms : list (Monitor SimpleCPU TaskId)) s1,
              name a ∉ name <$> ms →
              gpu_lookup (name a) k (foldl store_monitor s1 ms)
              = gpu_lookup (name a) k s1).
    { clear. induction ms as [|b ms IHms]; intros s1 Hb; [done|].
      rewrite fmap_cons in Hb. apply not_elem_of_cons in Hb as [Hne Hb].
      cbn [foldl]. rewrite IHms by done.
      by apply (store_monitor_gpus b s1). }
    rewrite Hlater by done. by eapply (store_monitor_gpus a s).
Qed.

(** X11: request_available_resources never raises.  Afterwards every GPU
    reported by a monitor has the initial model (the polynomial with
    coefficients 1, 0, ..., 0 of length degree + 1, capacity 1), also when it
    had a fitted model before; the model of any other device is unchanged; the
    clients, the recorded configurations, the calibration sizes and the output
    are untouched. *)
Theorem discovery_models (w : world) monitors :
  ∃ w',
    request_available_resources monitors w = (Ok tt, w') ∧
    (∀ d, d ∈ monitors ≫= reported_gpus →
          dict_get d (models_of w')
          = Some (Polynomial (one :: replicate (resource_poly_degree (self w)) zero),
                  1%Z)) ∧
    (∀ d, d ∉ monitors ≫= reported_gpus →
          dict_get d (models_of w') = dict_get d (models_of w)) ∧
    (∀ d, d ∈ dict_keys (models_of w') ↔
          d ∈ dict_keys (models_of w) ∨ d ∈ monitors ≫= reported_gpus) ∧
    resource_poly_degree (self w') = resource_poly_degree (self w) ∧
    warm_up_steps (self w') = warm_up_steps (self w) ∧
    client_configs_map (self w') = client_configs_map (self w) ∧
    clients w' = clients w ∧ heap w' = heap w ∧ stdout w' = stdout w.
Proof.
  eexists. split; [apply request_available_resources_spec|].
  destruct (store_monitors_fields monitors (self w)) as (Hd & Hw & Hc & _).
  cbn [with_self self clients heap stdout].
  rewrite store_monitors_models.
  repeat split; try done.
  - intros d Hin. by rewrite foldl_dict_set_get, decide_True.
  - intros d Hnin. by rewrite foldl_dict_set_get, decide_False.
  - by intros ?%foldl_dict_set_keys.
  - intros ?. by apply foldl_dict_set_keys.
Qed.

(* one probe per device, the clients popped from the end of the sample *)
Lemma discover_devices_run (parameters : Parameters) cfg (devices : list Device) :
  ∀ ks rest (fits : list (string * FitIns T Parameters)) (w : world),
    (∀ d, d ∈ devices → is_Some (gpu_lookup d.1 d.2 (self w))) →
    length ks = length devices →
    let es := zip ks ((λ d, (d, 20%Z)) <$> devices) in
    ∃ fits',
      foldM (discover_device parameters cfg) (rest ++ reverse ks, fits) devices w =
      (Ok (rest, fits ++ fits'), foldl record_probe w es) ∧
      Forall2 (λ fit e, fit.1 = e.1 ∧
                        fit_config fit.2 !! "local_steps" = Some (SInt e.2.2))
              fits' es.
Proof.
  induction devices as [|[node_id gpu_uuid] devices IH];
    intros ks rest fits w Hgpus Hlen es.
  - destruct ks; [|done]. exists []. simpl. rewrite !app_nil_r.
    split; [done|constructor].
  - destruct ks as [|k ks]; [done|]. injection Hlen as Hlen.
    destruct (Hgpus (node_id, gpu_uuid)) as [gpu Hgpu]; [left|]. simpl in Hgpu.
    destruct (IH ks rest
                (fits ++ [(k, {| fit_parameters := parameters;
                                 fit_config := probe_config cfg gpu 20 |})])
                (record_probe w (k, ((node_id, gpu_uuid), 20%Z))))
      as (fits2 & Hrun2 & Hall2); [|done|].
    { intros d Hd. unfold gpu_lookup. simpl. apply Hgpus. by right. }
    exists ((k, {| fit_parameters := parameters;
                   fit_config := probe_config cfg gpu 20 |}) :: fits2).
    split.
    + cbn [foldM]. rewrite reverse_cons, app_assoc.
      unfold bind at 1. unfold discover_device at 1.
      unfold bind, read_or, lift. rewrite Hgpu, pop_snoc. simpl.
      unfold modify. simpl. etrans; [exact Hrun2|].
      by rewrite <- app_assoc.
    + subst es. rewrite fmap_cons. simpl. constructor; [|done].
      simpl. split; [done|]. unfold probe_config. by rewrite lookup_insert_eq.
Qed.

(** X12: round 1 on a fresh strategy.  When the monitors have distinct names
    and report every GPU under its uuid, and the client manager returns the
    number of distinct clients it is asked for, configure_fit(1) succeeds; the
    model map then holds exactly the reported GPUs, each once, each with the
    constant polynomial 1 of the configured degree and capacity exactly 1, and
    with an entry in the inventory; and exactly one probe of 20 local steps
    has been dispatched to every device, in the order of the model map. *)
Theorem discovery_round (w : world) (parameters : Parameters) (cm : ClientManager)
    monitors :
  resources_model (self w) = [] →
  NoDup (name <$> monitors) →
  (∀ actor k g, actor ∈ monitors → (k, IsGPU g) ∈ get_resources actor →
                k = uuid g) →
  (∀ n, n ≤ length (monitors ≫= reported_gpus) →
        NoDup (sample cm n n) ∧ length (sample cm n n) = n) →
  ∃ fits w',
    configure_fit 1 parameters cm monitors w = (Ok fits, w') ∧
    NoDup (dict_keys (models_of w')) ∧
    (∀ d, d ∈ dict_keys (models_of w') ↔ d ∈ monitors ≫= reported_gpus) ∧
    (∀ d, d ∈ dict_keys (models_of w') → is_Some (gpu_lookup d.1 d.2 (self w'))) ∧
    (∀ d, d ∈ dict_keys (models_of w') →
          dict_get d (models_of w')
          = Some (Polynomial (one :: replicate (resource_poly_degree (self w)) zero),
                  1%Z)) ∧
    probes fits (client_configs_map (self w'))
    = (λ d, (d, 20%Z)) <$> dict_keys (models_of w').
Proof.
  intros Hfresh Hnames Hkeyed Hsample.
  set (w1 := with_self (λ s, foldl store_monitor s monitors) w).
  assert (Hmodels : models_of w1
            = foldl (λ d k, dict_set k (initial_model (resource_poly_degree (self w))) d)
                    [] (monitors ≫= reported_gpus)).
  { unfold w1. cbn [with_self self]. by rewrite store_monitors_models, Hfresh. }
  assert (Hnd : NoDup (dict_keys (models_of w1))).
  { rewrite Hmodels. apply foldl_dict_set_NoDup. constructor. }
  assert (Hkeys : ∀ d, d ∈ dict_keys (models_of w1) ↔ d ∈ monitors ≫= reported_gpus).
  { intros d. rewrite Hmodels, foldl_dict_set_keys. split; [|by right].
    by intros [?%elem_of_nil|?]. }
  assert (Hcov : ∀ d, d ∈ dict_keys (models_of w1) →
                      is_Some (gpu_lookup d.1 d.2 (self w1))).
  { intros d Hd. apply Hkeys in Hd.
    apply list_elem_of_bind in Hd as (actor & Hd & Hactor).
    apply list_elem_of_omap in Hd as ([k v] & Hkv & Hd). simpl in Hd.
    destruct v as [g| |]; [|done..]. injection Hd as <-.
    rewrite <- (Hkeyed actor k g Hactor Hkv).
    by eapply store_monitors_gpus. }
  assert (Hcap : ∀ d, d ∈ dict_keys (models_of w1) →
            dict_get d (models_of w1)
            = Some (Polynomial (one :: replicate (resource_poly_degree (self w)) zero),
                    1%Z)).
  { intros d Hd. apply Hkeys in Hd.
    rewrite Hmodels, foldl_dict_set_get. by rewrite decide_True. }
  set (n := length (models_of w1)).
  destruct (Hsample n) as [Hcs Hlen].
  { unfold n. rewrite Hmodels.
    etrans; [apply foldl_dict_set_length|]. simpl. lia. }
  set (cfg := match on_fit_config_fn (self w) with
              | Some f => f 1%Z
              | None => ∅
              end).
  destruct (discover_devices_run parameters cfg (dict_keys (models_of w1))
              (reverse (sample cm n n)) [] [] w1 Hcov)
    as (fits & Hrun & Hall).
  { rewrite length_reverse, Hlen. unfold n, dict_keys. by rewrite length_fmap. }
  rewrite reverse_involutive in Hrun. cbn [app] in Hrun.
  set (es := zip (reverse (sample cm n n))
                 ((λ d, (d, 20%Z)) <$> dict_keys (models_of w1))) in *.
  destruct (record_probes_fields w1 es) as (HG & _ & HM & _).
  assert (Hlen2 : length ((λ d, (d, 20%Z)) <$> dict_keys (models_of w1))
                  = length (reverse (sample cm n n))).
  { rewrite length_reverse, Hlen, length_fmap. unfold n, dict_keys.
    by rewrite length_fmap. }
  exists fits, (foldl record_probe w1 es).
  split; [|split; [|split; [|split; [|split]]]].
  - unfold configure_fit. change (1 =? 1)%Z with true. cbv iota.
    unfold bind at 1, read at 1. fold cfg.
    unfold bind at 1. rewrite request_available_resources_spec. fold w1.
    unfold bind at 1, read at 1. fold n.
    unfold bind at 1. by rewrite Hrun.
  - by rewrite HM.
  - intros d. by rewrite HM.
  - intros d. rewrite HM. unfold gpu_lookup. rewrite HG. apply Hcov.
  - intros d. rewrite HM. apply Hcap.
  - rewrite HM. rewrite (probes_recorded fits es); [| done |].
    + unfold es. by rewrite snd_zip by lia.
    + rewrite record_probes_configs. apply Forall_forall. intros e He.
      apply insert_probes_lookup; [|done].
      unfold es. rewrite fst_zip by lia. by rewrite reverse_Permutation.
Qed.
End discovery.

Lemma discovery_round_witness :
  resources_model (self ex_world0) = [] ∧
  NoDup (name <$> [ex_monitor 200 400 []]) ∧
  (∀ (actor : Monitor unit nat) k g,
     actor ∈ [ex_monitor 200 400 []] → (k, IsGPU g) ∈ get_resources actor →
     k = uuid g) ∧
  (∀ n, n ≤ length ([ex_monitor 200 400 []] ≫= reported_gpus) →
        NoDup (sample ex_client_manager n n) ∧
        length (sample ex_client_manager n n) = n) ∧
  ∃ fits w',
    configure_fit 1 tt ex_client_manager [ex_monitor 200 400 []] ex_world0
    = (Ok fits, w') ∧
    NoDup (dict_keys (resources_model (self w'))) ∧
    (∀ d, d ∈ dict_keys (resources_model (self w')) ↔
          d ∈ [ex_monitor 200 400 []] ≫= reported_gpus) ∧
    (∀ d, d ∈ dict_keys (resources_model (self w')) →
          is_Some (gpu_lookup d.1 d.2 (self w'))) ∧
    (∀ d, d ∈ dict_keys (resources_model (self w')) →
          dict_get d (resources_model (self w'))
          = Some (Polynomial (one :: replicate
                                (resource_poly_degree (self ex_world0)) zero),
                  1%Z)) ∧
    probes fits (client_configs_map (self w'))
    = (λ d, (d, 20%Z)) <$> dict_keys (resources_model (self w')).
Proof.
  assert (H1 : resources_model (self ex_world0) = []) by reflexivity.
  assert (H2 : NoDup (name <$> [ex_monitor 200 400 []])).
  { simpl. apply NoDup_singleton. }
  assert (H3 : ∀ (actor : Monitor unit nat) k g,
             actor ∈ [ex_monitor 200 400 []] → (k, IsGPU g) ∈ get_resources actor →
             k = uuid g).
  { intros actor k g ->%list_elem_of_singleton Hin. simpl in Hin.
    apply elem_of_cons in Hin as [[= -> ->]|Hin]; [reflexivity|].
    apply list_elem_of_singleton in Hin. discriminate. }
  assert (H4 : ∀ n, n ≤ length ([ex_monitor 200 400 []] ≫= reported_gpus) →
             NoDup (sample ex_client_manager n n) ∧
             length (sample ex_client_manager n n) = n).
  { intros n Hn. change (n ≤ 1) in Hn.
    destruct n as [|[|n]]; [| |lia]; (split; [|reflexivity]); simpl.
    - constructor.
    - apply NoDup_singleton. }
  repeat (split; [assumption|]).
  exact (discovery_round ex_world0 tt ex_client_manager [ex_monitor 200 400 []]
           H1 H2 H3 H4).
Defined.

(** ** Calibration with too few clients *)

Section short_sample.
Context {T Poly SimpleCPU TaskId Parameters : Type}.
Context `{Numeric T} `{PolyLib T Poly}.

Abbreviation world := (World T Poly SimpleCPU).
Implicit Types (w : world) (parameters : Parameters) (cfg : gmap string (Scalar T)).

Lemma pop_nil {A} : pop (@nil A) = Raise IndexError.
Proof. done. Qed.

(* the probes of one device, when the clients run out *)
Lemma calibrate_steps_short parameters cfg node_id gpu_uuid gpu steps :
  ∀ cs (fits : list (string * FitIns T Parameters)) w,
    length cs < length steps →
    ∃ w', foldM (calibrate_step parameters cfg node_id gpu_uuid gpu)
                (cs, fits) steps w = (Raise IndexError, w').
Proof.
  induction steps as [|s steps IH]; intros cs fits w Hlen; [simpl in Hlen; lia|].
  cbn [foldM]. unfold bind at 1. unfold calibrate_step at 1.
  destruct cs as [|k cs _] using rev_ind.
  - exists w. unfold bind, lift. by rewrite pop_nil.
  - unfold bind, lift. rewrite pop_snoc. simpl. unfold modify. simpl.
    apply IH. rewrite length_app in Hlen. simpl in Hlen. lia.
Qed.

Lemma calibrate_devices_short parameters cfg devices :
  ∀ cs (fits : list (string * FitIns T Parameters)) w,
    (∀ d, d ∈ devices → is_Some (gpu_lookup d.1 d.2 (self w))) →
    length cs < length devices * length (warm_up_steps (self w)) →
    ∃ w', foldM (calibrate_device parameters cfg) (cs, fits) devices w
          = (Raise IndexError, w').
Proof.
  induction devices as [|[node_id gpu_uuid] devices IH]; intros cs fits w Hgpus Hlen;
    [simpl in Hlen; lia|].
  destruct (Hgpus (node_id, gpu_uuid)) as [gpu Hgpu]; [left|]. simpl in Hgpu.
  set (warm := warm_up_steps (self w)) in *.
  cbn [foldM]. unfold bind at 1. unfold calibrate_device at 1.
  unfold bind at 1 2, read_or, read. rewrite Hgpu. fold warm.
  destruct (decide (length cs < length warm)) as [Hshort|Hlong].
  - destruct (calibrate_steps_short parameters cfg node_id gpu_uuid gpu warm
                cs fits w Hshort) as [w' ->]. by exists w'.
  - set (m := length cs - length warm).
    assert (Hcs : cs = take m cs ++ reverse (reverse (drop m cs))).
    { by rewrite reverse_involutive, take_drop. }
    assert (Hks : length (reverse (drop m cs)) = length warm).
    { rewrite length_reverse, length_drop. unfold m. lia. }
    rewrite Hcs.
    rewrite (calibrate_steps_run parameters cfg node_id gpu_uuid gpu warm
               (reverse (drop m cs)) (take m cs) fits w Hks).
    set (es := zip (reverse (drop m cs)) ((λ s, ((node_id, gpu_uuid), s)) <$> warm)).
    destruct (record_probes_fields w es) as (HG & HW & _ & _).
    apply IH.
    + intros d Hd. unfold gpu_lookup. rewrite HG. apply Hgpus. by right.
    + rewrite HW. fold warm. rewrite length_take. simpl in Hlen. unfold m.
      lia.
Qed.

(** X13: round 2 asks the client manager for (degree + 1) * len(models)
    clients and pops one per probe.  When the inventory knows every modelled
    device and sample() returns fewer clients than asked for (an empty list,
    for instance), configure_fit(2) raises the IndexError of pop() on an empty
    list. *)
Theorem calibration_short_sample (w : world) parameters (cm : ClientManager)
    (monitors : list (Monitor SimpleCPU TaskId)) :
  (∀ d, d ∈ dict_keys (resources_model (self w)) →
        is_Some (gpu_lookup d.1 d.2 (self w))) →
  length (warm_up_steps (self w)) = resource_poly_degree (self w) + 1 →
  let n := (resource_poly_degree (self w) + 1) * length (resources_model (self w)) in
  length (sample cm n n) < n →
  ∃ w', configure_fit 2 parameters cm monitors w = (Raise IndexError, w').
Proof.
  intros Hgpus Hwarm n Hshort.
  destruct (calibrate_devices_short parameters
              match on_fit_config_fn (self w) with Some f => f 2%Z | None => ∅ end
              (dict_keys (resources_model (self w))) (sample cm n n) [] w Hgpus)
    as [w' Hrun].
  { rewrite Hwarm. unfold dict_keys. rewrite length_fmap, Nat.mul_comm. exact Hshort. }
  exists w'. unfold configure_fit, bind, read. simpl. fold n.
  unfold bind in Hrun. by rewrite Hrun.
Qed.
End short_sample.

Lemma calibration_short_sample_witness :
  let n := (resource_poly_degree (self ex_sched_world) + 1)
           * length (resources_model (self ex_sched_world)) in
  (∀ d, d ∈ dict_keys (resources_model (self ex_sched_world)) →
        is_Some (gpu_lookup d.1 d.2 (self ex_sched_world))) ∧
  length (warm_up_steps (self ex_sched_world))
  = resource_poly_degree (self ex_sched_world) + 1 ∧
  length (sample ex_client_manager n n) < n ∧
  ∃ w', configure_fit (TaskId := nat) 2 tt ex_client_manager [] ex_sched_world
        = (Raise IndexError, w').
Proof.
  intros n.
  assert (H1 : ∀ d, d ∈ dict_keys (resources_model (self ex_sched_world)) →
                    is_Some (gpu_lookup d.1 d.2 (self ex_sched_world))).
  { intros d Hd. simpl in Hd.
    apply elem_of_cons in Hd as [->|Hd]; [by eexists; vm_compute|].
    apply list_elem_of_singleton in Hd as ->. by eexists; vm_compute. }
  assert (H2 : length (warm_up_steps (self ex_sched_world))
               = resource_poly_degree (self ex_sched_world) + 1) by reflexivity.
  assert (H3 : length (sample ex_client_manager n n) < n) by (vm_compute; lia).
  repeat (split; [assumption|]).
  exact (calibration_short_sample (TaskId := nat) ex_sched_world tt ex_client_manager []
           H1 H2 H3).
Defined.

(** ** The timing samples of round 2 *)

Section samples.
Context {T Poly SimpleCPU TaskId Parameters Failures Aggregate : Type}.
Context `{Numeric T} `{PolyLib T Poly} `{EqDecision TaskId}.
Context (FedAvg_aggregate_fit :
  Z → list (string * FitRes TaskId) → Failures → Aggregate).

Abbreviation world := (World T Poly SimpleCPU).
Abbreviation models_of := (λ w : world, resources_model (self w)).

Lemma tasks_to_cid_spec (results : list (string * FitRes TaskId)) (w : world) :
  Forall (λ r, is_Some (task_id r.2)) results →
  tasks_to_cid results w = (Ok (task_map results), w).
Proof.
  unfold tasks_to_cid, task_map. generalize (@nil (TaskId * string)) as acc.
  induction results as [|[client fit_res] results IH]; intros acc Hall; [done|].
  apply Forall_cons in Hall as [[tid Htid] Hall]. simpl in Htid.
  cbn [foldM foldl]. unfold bind at 1. simpl. rewrite Htid. simpl. by apply IH.
Qed.

Lemma dd_get_append {X} (d d' : Device) (x : X) (m : list (Device * list X)) :
  dd_get d (dd_append d' x m)
  = if decide (d = d') then dd_get d m ++ [x] else dd_get d m.
Proof.
  unfold dd_get, dd_append. destruct (decide (d = d')) as [->|Hne].
  - by rewrite dict_get_set_eq.
  - by rewrite dict_get_set_ne.
Qed.

(* what the loop over the training times has collected when it ends *)
Lemma collect_samples_inv (t2c : list (TaskId * string)) (times : list (TaskId * Z)) :
  ∀ x0 y0 x y (w w' : world),
    foldM (collect_sample t2c) (x0, y0) times w = (Ok (x, y), w') →
    w' = w ∧
    ∀ d, dd_get d x
         = dd_get d x0
           ++ (device_samples (T := T) t2c (client_configs_map (self w)) d times).*1 ∧
         dd_get d y
         = dd_get d y0
           ++ (device_samples (T := T) t2c (client_configs_map (self w)) d times).*2.
Proof.
  induction times as [|[task ns] times IH]; intros x0 y0 x y w w'.
  - intros [= <- <- <-]. split; [done|]. intros d. simpl. by rewrite !app_nil_r.
  - cbn [foldM]. unfold bind at 1. unfold collect_sample at 1.
    unfold bind, lookup_or, read_or. unfold device_samples. cbn [omap list_omap].
    simpl.
    destruct (dict_get task t2c) as [cid|]; simpl; [|done].
    destruct (client_configs_map (self w) !! cid) as [[[node_id gpu_uuid] steps]|];
      simpl; [|done].
    intros Hrun. apply IH in Hrun as [-> Hrun]. split; [done|].
    intros d. destruct (Hrun d) as [-> ->]. rewrite !dd_get_append.
    destruct (decide (d = (node_id, gpu_uuid))) as [->|Hne].
    + rewrite decide_True by done. simpl. by rewrite <- !app_assoc.
    + rewrite decide_False by done. done.
Qed.

Lemma collect_samples_ok (t2c : list (TaskId * string)) (times : list (TaskId * Z))
    (w : world) :
  (∀ e, e ∈ times →
        is_Some (dict_get e.1 t2c ≫= (λ cid, client_configs_map (self w) !! cid))) →
  ∀ xy, ∃ xy', foldM (collect_sample t2c) xy times w = (Ok xy', w).
Proof.
  induction times as [|[task ns] times IH]; intros Hall [x0 y0].
  - by eexists.
  - cbn [foldM]. unfold bind at 1. unfold collect_sample at 1.
    unfold bind, lookup_or, read_or.
    destruct (Hall (task, ns)) as [rec Hrec]; [left|]. simpl in Hrec.
    destruct (dict_get task t2c) as [cid|]; simpl in *; [|done].
    rewrite Hrec. destruct rec as [[node_id gpu_uuid] steps]. simpl.
    apply IH. intros e He. apply Hall. by right.
Qed.

Lemma dict_set_middle {K V} `{EqDecision K} (pre post : list (K * V)) k v v0 :
  k ∉ dict_keys pre →
  dict_set k v (pre ++ (k, v0) :: post) = pre ++ (k, v) :: post.
Proof.
  unfold dict_keys. induction pre as [|[k' v'] pre IH]; intros Hnin; simpl.
  - by rewrite decide_True.
  - rewrite fmap_cons in Hnin. apply not_elem_of_cons in Hnin as [Hne Hnin].
    rewrite decide_False by done. by rewrite IH.
Qed.

(* the loop over the model map, when every fit succeeds *)
Lemma refit_models_spec x y (newfit : Device → Poly) :
  ∀ post pre (w : world),
    models_of w = pre ++ post →
    NoDup (dict_keys (pre ++ post)) →
    (∀ e, e ∈ post →
          poly_fit (dd_get e.1 x) (dd_get e.1 y) (resource_poly_degree (self w))
          = Ok (newfit e.1)) →
    for_ post (refit_model x y) w
    = (Ok tt,
       with_self (set_resources_model
         (λ _, pre ++ ((λ e, (e.1, (newfit e.1, e.2.2))) <$> post))) w).
Proof.
  unfold for_.
  induction post as [|[k [m c]] post IH]; intros pre w Hmodels Hnd Hfit.
  - simpl. rewrite app_nil_r in *. unfold ret. f_equal.
    destruct w as [[] ? ? ?]. simpl in *. by subst.
  - cbn [foldM]. unfold bind at 1. unfold refit_model at 1.
    pose proof (Hfit (k, (m, c))) as Hk. cbn [fst] in Hk.
    unfold bind, read, lift. rewrite Hk by left. simpl.
    unfold modify.
    rewrite (IH (pre ++ [(k, (newfit k, c))])).
    + simpl. by rewrite <- app_assoc.
    + simpl. rewrite Hmodels, <- app_assoc. simpl. apply dict_set_middle.
      unfold dict_keys in Hnd. rewrite fmap_app, fmap_cons in Hnd.
      apply NoDup_app in Hnd as (_ & Hnd & _). intros Hin.
      apply (Hnd k Hin). left.
    + rewrite <- app_assoc. simpl. unfold dict_keys in *.
      by rewrite fmap_app, fmap_cons in *.
    + intros e He. simpl. apply Hfit. by right.
Qed.

(* one monitor's report, when the fit succeeds for every device *)
Lemma aggregate_round2_spec t2c (actor : Monitor SimpleCPU TaskId)
    (fit : Device → Poly) (w1 : world) :
  NoDup (dict_keys (models_of w1)) →
  let times := training_times_ns (aggregate_statistics actor (dict_keys t2c)) in
  let samples := λ d,
    device_samples (T := T) t2c (client_configs_map (self w1)) d times in
  (∀ e, e ∈ times →
        is_Some (dict_get e.1 t2c ≫= (λ cid, client_configs_map (self w1) !! cid))) →
  (∀ d, d ∈ dict_keys (models_of w1) →
        poly_fit (samples d).*1 (samples d).*2 (resource_poly_degree (self w1))
        = Ok (fit d)) →
  aggregate_round2 t2c actor w1
  = (Ok tt,
     with_self (set_resources_model
       (λ models, (λ e, (e.1, (fit e.1, e.2.2))) <$> models)) w1).
Proof.
  intros Hnd times samples Hknown Hfit.
  destruct (collect_samples_ok t2c times w1 Hknown ([], [])) as [[x y] Hcollect].
  destruct (collect_samples_inv t2c times [] [] x y w1 w1 Hcollect) as [_ Hxy].
  assert (Hrefit : for_ (models_of w1) (refit_model x y) w1
            = (Ok tt,
               with_self (set_resources_model
                 (λ _, [] ++ ((λ e, (e.1, (fit e.1, e.2.2))) <$> models_of w1))) w1)).
  { apply refit_models_spec; [done|done|].
    intros e He. destruct (Hxy e.1) as [-> ->]. simpl.
    apply Hfit. unfold dict_keys. apply list_elem_of_fmap. by exists e. }
  unfold aggregate_round2. fold times.
  rewrite (bind_ok _ _ _ _ _ Hcollect). unfold bind at 1, read at 1.
  exact Hrefit.
Qed.

(* the loop over the monitors: every report refits every model, so the
   polynomials of the last report are the ones that stay *)
Lemma aggregate_rounds2_spec t2c (fit : Monitor SimpleCPU TaskId → Device → Poly)
    (C0 : gmap string (string * string * Z)) (K0 : list Device) (D0 : nat) :
  NoDup K0 →
  ∀ (monitors : list (Monitor SimpleCPU TaskId)) (w1 : world),
    client_configs_map (self w1) = C0 →
    dict_keys (models_of w1) = K0 →
    resource_poly_degree (self w1) = D0 →
    (∀ actor e, actor ∈ monitors →
       e ∈ training_times_ns (aggregate_statistics actor (dict_keys t2c)) →
       is_Some (dict_get e.1 t2c ≫= (λ cid, C0 !! cid))) →
    (∀ actor d, actor ∈ monitors → d ∈ K0 →
       let samples := device_samples (T := T) t2c C0 d
         (training_times_ns (aggregate_statistics actor (dict_keys t2c))) in
       poly_fit samples.*1 samples.*2 D0 = Ok (fit actor d)) →
    for_ monitors (aggregate_round2 t2c) w1
    = (Ok tt,
       match last monitors with
       | Some actor =>
           with_self (set_resources_model
             (λ models, (λ e, (e.1, (fit actor e.1, e.2.2))) <$> models)) w1
       | None => w1
       end).
Proof.
  intros Hnd. induction monitors as [|a monitors IH];
    intros w1 HC HK HD Hknown Hfit; [done|].
  unfold for_. cbn [foldM].
  assert (Hnd1 : NoDup (dict_keys (models_of w1))) by (by rewrite HK).
  assert (Hknown1 : ∀ e,
            e ∈ training_times_ns (aggregate_statistics a (dict_keys t2c)) →
            is_Some (dict_get e.1 t2c ≫=
                       (λ cid, client_configs_map (self w1) !! cid))).
  { intros e He. rewrite HC. apply (Hknown a); [left|done]. }
  assert (Hfit1 : ∀ d, d ∈ dict_keys (models_of w1) →
            poly_fit
              (device_samples (T := T) t2c (client_configs_map (self w1)) d
                 (training_times_ns (aggregate_statistics a (dict_keys t2c)))).*1
              (device_samples (T := T) t2c (client_configs_map (self w1)) d
                 (training_times_ns (aggregate_statistics a (dict_keys t2c)))).*2
              (resource_poly_degree (self w1))
            = Ok (fit a d)).
  { intros d Hd. rewrite HC, HD. apply (Hfit a); [left|by rewrite <- HK]. }
  rewrite (bind_ok _ _ w1 _ tt
             (aggregate_round2_spec t2c a (fit a) w1 Hnd1 Hknown1 Hfit1)).
  set (w2 := with_self (set_resources_model
               (λ models, (λ e, (e.1, (fit a e.1, e.2.2))) <$> models)) w1).
  assert (HK2 : dict_keys (models_of w2) = K0).
  { rewrite <- HK. unfold w2, dict_keys. simpl. by rewrite <- list_fmap_compose. }
  specialize (IH w2 HC HK2 HD).
  unfold for_ in IH. rewrite IH.
  - rewrite last_cons. destruct (last monitors) as [b|]; [|done].
    f_equal. unfold w2, with_self, set_resources_model. simpl. do 2 f_equal.
    by rewrite <- list_fmap_compose.
  - intros actor e Hactor. apply Hknown. by right.
  - intros actor d Hactor. apply Hfit. by right.
Qed.

(** X14: round 2 of aggregate_fit.  When every result carries a task id,
    every reported training time belongs to a client with a recorded
    configuration, and the fit succeeds on every monitor's samples of every
    device, the call returns the aggregate of FedAvg, prints its banner, and
    leaves for every device the polynomial fitted, with degree D, on the
    samples of that device in the report of the last monitor: the (local
    steps, seconds) pairs of the clients that were configured on it, in the
    order of the report.  The fits from the reports of earlier monitors are
    overwritten; capacities and the device order are kept. *)
Theorem round2_refit (w : world) (results : list (string * FitRes TaskId))
    (failures : Failures) (monitors : list (Monitor SimpleCPU TaskId))
    (last_actor : Monitor SimpleCPU TaskId)
    (newfit : Monitor SimpleCPU TaskId → Device → Poly) :
  Forall (λ r, is_Some (task_id r.2)) results →
  NoDup (dict_keys (models_of w)) →
  let t2c := task_map results in
  let times := λ actor : Monitor SimpleCPU TaskId,
    training_times_ns (aggregate_statistics actor (dict_keys t2c)) in
  let samples := λ actor d,
    device_samples (T := T) t2c (client_configs_map (self w)) d (times actor) in
  (∀ actor e, actor ∈ monitors ++ [last_actor] → e ∈ times actor →
     is_Some (dict_get e.1 t2c ≫= (λ cid, client_configs_map (self w) !! cid))) →
  (∀ actor d, actor ∈ monitors ++ [last_actor] → d ∈ dict_keys (models_of w) →
     poly_fit (samples actor d).*1 (samples actor d).*2
              (resource_poly_degree (self w))
     = Ok (newfit actor d)) →
  aggregate_fit FedAvg_aggregate_fit 2 results failures (monitors ++ [last_actor]) w =
  (Ok (FedAvg_aggregate_fit 2 results failures),
   print (PrintAggregateFit 2)
     (with_self (set_resources_model
        (λ models, (λ e, (e.1, (newfit last_actor e.1, e.2.2))) <$> models)) w)).
Proof.
  intros Hids Hnd t2c times samples Hknown Hfit.
  set (w1 := print (T := T) (PrintAggregateFit 2) w).
  pose proof (aggregate_rounds2_spec t2c newfit (client_configs_map (self w))
                (dict_keys (models_of w)) (resource_poly_degree (self w)) Hnd
                (monitors ++ [last_actor]) w1 eq_refl eq_refl eq_refl Hknown Hfit)
    as Hloop.
  rewrite last_snoc in Hloop.
  subst t2c times samples.
  unfold aggregate_fit.
  rewrite (bind_ok _ _ w w _ (tasks_to_cid_spec results w Hids)).
  change (2 =? 1)%Z with false. change (2 =? 2)%Z with true. cbv iota.
  unfold bind at 1 2, modify at 1. fold w1.
  rewrite (bind_ok _ _ w1 w1 _ (tasks_to_cid_spec results w1 Hids)).
  rewrite Hloop. unfold ret. done.
Qed.

Lemma bind_Ok_inv {W A B} (m : M (W := W) A) (k : A → M B) w b w' :
  bind m k w = (Ok b, w') → ∃ a w1, m w = (Ok a, w1) ∧ k a w1 = (Ok b, w').
Proof.
  unfold bind. destruct (m w) as [[a|e|] w1]; [|done..]. intros Hk. by exists a, w1.
Qed.

(* a loop that ends normally ran every body normally, from a world that
   satisfies what the bodies keep *)
Lemma foldM_Ok_all_inv {W A B} (I : W → Prop) (f : B → A → M B) (l : list A)
    (b b' : B) (w w' : W) x :
  (∀ b x, x ∈ l → inv I (f b x)) → I w →
  foldM f b l w = (Ok b', w') → x ∈ l →
  ∃ b1 w1 b2 w2, I w1 ∧ f b1 x w1 = (Ok b2, w2).
Proof.
  revert b w. induction l as [|y l IH]; intros b w Hinv HI Hrun Hx.
  - by apply elem_of_nil in Hx.
  - simpl in Hrun. unfold bind in Hrun.
    destruct (f b y w) as [[b1|e|] w1] eqn:Hf; try done.
    apply elem_of_cons in Hx as [->|Hx]; [by eauto 10|].
    eapply (IH b1 w1); [|by eapply (Hinv b y); [left|..]|done|done].
    intros b0 z Hz. apply Hinv. by right.
Qed.

Lemma tasks_to_cid_inv (results : list (string * FitRes TaskId)) (w w' : world) t :
  tasks_to_cid results w = (Ok t, w') → t = task_map results ∧ w' = w.
Proof.
  unfold tasks_to_cid, task_map. generalize (@nil (TaskId * string)) as acc.
  induction results as [|[client fit_res] results IH]; intros acc.
  - by intros [= <- <-].
  - cbn [foldM foldl]. unfold bind at 1. simpl.
    destruct (task_id fit_res) as [tid|]; simpl; [|done]. apply IH.
Qed.

(* round 2 keeps the recorded configurations and the modelled devices *)
Lemma aggregate_round2_keeps C0 (d : Device) t2c (actor : Monitor SimpleCPU TaskId) :
  inv (λ w : world, client_configs_map (self w) = C0 ∧ d ∈ dict_keys (models_of w))
      (aggregate_round2 t2c actor).
Proof.
  unfold aggregate_round2. inv_step.
  { inv_step. unfold collect_sample. repeat inv_step. }
  inv_step; [inv_step|]. inv_step.
  match goal with |- inv _ (refit_model _ _ ?e) => destruct e as [k [m c]] end.
  apply refit_model_inv_with. intros w m' [Hc Hd]. simpl. split; [done|].
  apply dict_keys_set_elem. by left.
Qed.

(** X15: round 2 refits every device of the model map from every monitor's
    report.  If some monitor's report holds no training time of a client
    configured on a modelled device (the device of another node, say) and the
    polynomial library rejects an empty sample, aggregate_fit(2) does not
    return: the round ends in an exception. *)
Theorem round2_missing_samples (w : world) (results : list (string * FitRes TaskId))
    (failures : Failures) (monitors : list (Monitor SimpleCPU TaskId))
    (actor : Monitor SimpleCPU TaskId) (d : Device) :
  actor ∈ monitors →
  d ∈ dict_keys (models_of w) →
  (let t2c := task_map results in
   device_samples (T := T) t2c (client_configs_map (self w)) d
     (training_times_ns (aggregate_statistics actor (dict_keys t2c))) = []) →
  (∀ deg p, poly_fit (T := T) (Poly := Poly) [] [] deg ≠ Ok p) →
  ∀ r w', aggregate_fit FedAvg_aggregate_fit 2 results failures monitors w = (r, w') →
          ∀ a, r ≠ Ok a.
Proof.
  intros Hactor Hd Hnone Hempty r w' Hrun a ->.
  unfold aggregate_fit in Hrun.
  apply bind_Ok_inv in Hrun as (t0 & w0 & Ht0 & Hrun).
  apply tasks_to_cid_inv in Ht0 as [_ ->].
  apply bind_Ok_inv in Hrun as (u & w2 & Hrun & _).
  change (2 =? 1)%Z with false in Hrun. change (2 =? 2)%Z with true in Hrun.
  cbv iota in Hrun.
  apply bind_Ok_inv in Hrun as ([] & w1 & [= <-] & Hrun).
  apply bind_Ok_inv in Hrun as (t2c & w1' & Ht2c & Hrun).
  apply tasks_to_cid_inv in Ht2c as [-> ->].
  unfold for_ in Hrun.
  destruct (foldM_Ok_all_inv
              (λ w0 : world, client_configs_map (self w0) = client_configs_map (self w)
                             ∧ d ∈ dict_keys (models_of w0))
              _ _ _ _ (print (PrintAggregateFit 2) w) _ actor
              (λ _ x _, aggregate_round2_keeps _ d (task_map results) x)
              (conj eq_refl Hd) Hrun Hactor)
    as ([] & w3 & [] & w4 & [Hc3 Hd3] & Hround).
  unfold aggregate_round2 in Hround.
  apply bind_Ok_inv in Hround as ([x y] & w5 & Hcollect & Hround).
  apply collect_samples_inv in Hcollect as [-> Hxy].
  apply bind_Ok_inv in Hround as (items & w6 & [= <- <-] & Hround).
  apply list_elem_of_fmap in Hd3 as ([k [m c]] & -> & Hitem).
  destruct (foldM_Ok_all _ _ _ _ _ _ (k, (m, c)) Hround Hitem)
    as ([] & w7 & [] & w8 & Hfit).
  unfold refit_model in Hfit.
  apply bind_Ok_inv in Hfit as (deg & w9 & _ & Hfit).
  apply bind_Ok_inv in Hfit as (p & w10 & Hfit & _).
  destruct (Hxy k) as [Hx Hy]. rewrite Hc3 in Hx, Hy. simpl in Hnone.
  cbn [fst snd] in Hfit. rewrite Hx, Hy, Hnone in Hfit. simpl in Hfit.
  unfold lift in Hfit. injection Hfit as Hfit _. by eapply Hempty.
Qed.
End samples.

Lemma round2_refit_witness :
  let first := ex_monitor 200 400 [(1%nat, 1000000000%Z); (2%nat, 2000000000%Z)] in
  let actor := ex_monitor 200 400 [(1%nat, 3000000000%Z); (2%nat, 7000000000%Z)] in
  let newfit := λ (a : Monitor unit nat) (_ : Device),
    (λ e : nat * Z, Z.quot e.2 1000000000) <$> training_times_ns (aggregate_statistics a []) in
  let t2c := task_map ex_results2 in
  let times := λ actor : Monitor unit nat,
    training_times_ns (aggregate_statistics actor (dict_keys t2c)) in
  let samples := λ actor d,
    device_samples (T := Z) t2c (client_configs_map (self ex_world2)) d (times actor) in
  Forall (λ r : string * FitRes nat, is_Some (task_id r.2)) ex_results2 ∧
  NoDup (dict_keys (resources_model (self ex_world2))) ∧
  (∀ a e, a ∈ [first] ++ [actor] → e ∈ times a →
     is_Some (dict_get e.1 t2c ≫=
                (λ cid, client_configs_map (self ex_world2) !! cid))) ∧
  (∀ a d, a ∈ [first] ++ [actor] → d ∈ dict_keys (resources_model (self ex_world2)) →
     poly_fit (samples a d).*1 (samples a d).*2
              (resource_poly_degree (self ex_world2))
     = Ok (newfit a d)) ∧
  aggregate_fit ex_aggregate 2 ex_results2 tt ([first] ++ [actor]) ex_world2 =
  (Ok (ex_aggregate 2 ex_results2 tt),
   print (PrintAggregateFit 2)
     (with_self (set_resources_model
        (λ models, (λ e, (e.1, (newfit actor e.1, e.2.2))) <$> models)) ex_world2)).
Proof.
  intros first actor newfit t2c times samples.
  assert (Hkeys : dict_keys (resources_model (self ex_world2)) = [("node-a", "GPU-0")])
    by (vm_compute; reflexivity).
  assert (H1 : Forall (λ r : string * FitRes nat, is_Some (task_id r.2)) ex_results2).
  { repeat (constructor; [by eexists|]). constructor. }
  assert (H2 : NoDup (dict_keys (resources_model (self ex_world2)))).
  { rewrite Hkeys. apply NoDup_singleton. }
  assert (H3 : ∀ a e, a ∈ [first] ++ [actor] → e ∈ times a →
             is_Some (dict_get e.1 t2c ≫=
                        (λ cid, client_configs_map (self ex_world2) !! cid))).
  { intros a e [->| ->%list_elem_of_singleton]%elem_of_cons He;
      unfold times in He; simpl in He;
      (apply elem_of_cons in He as [->|He]; [by eexists; vm_compute|]);
      apply list_elem_of_singleton in He as ->; by eexists; vm_compute. }
  assert (H4 : ∀ a d, a ∈ [first] ++ [actor] →
             d ∈ dict_keys (resources_model (self ex_world2)) →
             poly_fit (samples a d).*1 (samples a d).*2
                      (resource_poly_degree (self ex_world2))
             = Ok (newfit a d)).
  { intros a d Ha Hd. rewrite Hkeys in Hd.
    apply list_elem_of_singleton in Hd as ->.
    apply elem_of_cons in Ha as [->| ->%list_elem_of_singleton];
      vm_compute; reflexivity. }
  repeat (split; [assumption|]).
  exact (round2_refit ex_aggregate ex_world2 ex_results2 tt [first] actor newfit
           H1 H2 H3 H4).
Defined.

Lemma round2_missing_samples_witness :
  let actor := ex_monitor 200 400 [] in
  let d : Device := ("node-b", "GPU-1") in
  let run := aggregate_fit ex_aggregate 2 ex_results2 tt [actor] ex_sched_world in
  actor ∈ [actor] ∧
  d ∈ dict_keys (resources_model (self ex_sched_world)) ∧
  (let t2c := task_map ex_results2 in
   device_samples (T := Z) t2c (client_configs_map (self ex_sched_world)) d
     (training_times_ns (aggregate_statistics actor (dict_keys t2c))) = []) ∧
  (∀ deg p, poly_fit (T := Z) (Poly := list Z) [] [] deg ≠ Ok p) ∧
  ∀ a, run.1 ≠ Ok a.
Proof.
  intros actor d run.
  assert (H1 : actor ∈ [actor]) by left.
  assert (H2 : d ∈ dict_keys (resources_model (self ex_sched_world))).
  { simpl. right. left. }
  assert (H3 : let t2c := task_map ex_results2 in
               device_samples (T := Z) t2c (client_configs_map (self ex_sched_world)) d
                 (training_times_ns (aggregate_statistics actor (dict_keys t2c))) = [])
    by reflexivity.
  assert (H4 : ∀ deg p, poly_fit (T := Z) (Poly := list Z) [] [] deg ≠ Ok p)
    by (intros deg p; simpl; discriminate).
  repeat (split; [assumption|]).
  exact (round2_missing_samples ex_aggregate ex_sched_world ex_results2 tt [actor]
           actor d H1 H2 H3 H4 run.1 run.2 (surjective_pairing run)).
Defined.

(** ** generate_client_priority *)

(** X16: generate_client_priority pairs every client, in order, with its
    entry of the properties dictionary; it raises KeyError, and only then,
    when some client has no entry. *)
Theorem generate_client_priority_spec {V} (clients : list string)
    (properties : gmap string V) :
  match generate_client_priority clients properties with
  | Ok weighted_clients =>
      weighted_clients.*1 = clients ∧
      Forall (λ e, properties !! e.1 = Some e.2) weighted_clients
  | Raise e => e = KeyError ∧ ∃ x, x ∈ clients ∧ properties !! x = None
  | Diverge => False
  end.
Proof.
  induction clients as [|x clients IH]; simpl; [by split|].
  destruct (properties !! x) as [p|] eqn:Hx.
  - destruct (generate_client_priority clients properties) as [l|e|]; [| |done].
    + destruct IH as [<- Hall]. split; [done|]. by constructor.
    + destruct IH as [-> (y & Hy & Hnone)]. split; [done|].
      exists y. split; [by right|done].
  - split; [done|]. exists x. split; [left|done].
Qed.

(** ** Rounds 3, 4, ... are repeatable *)

Section repeat.
Context {T Poly SimpleCPU TaskId Parameters : Type}.
Context `{NumericOrder T} `{PolyLib T Poly}.

Abbreviation world := (World T Poly SimpleCPU).

(* a steady-state round from any world that reads as [s] *)
Lemma configure_fit_steady_variant (s : Strategy T Poly SimpleCPU) cm0 c0 h0 o0
    (server_round : Z) (parameters : Parameters) (cmgr : ClientManager)
    (monitors : list (Monitor SimpleCPU TaskId)) units fits us :
  server_round ≠ 1%Z → server_round ≠ 2%Z →
  (let n := num_fit_clients s (num_available cmgr) in
   train_weights (profiles s) (sample cmgr n.1 n.2) = Some units) →
  runs s units
    (λ l, associate_resources parameters
            match on_fit_config_fn s with Some f => f server_round | None => ∅ end l)
    (Ok fits) us [] →
  configure_fit server_round parameters cmgr monitors (variant s cm0 c0 h0 o0)
  = (Ok fits,
     apply_updates us
       (variant s cm0 c0 (h0 ++ [[]]) (o0 ++ [PrintConfigFit server_round]))).
Proof.
  intros Hr1%Z.eqb_neq Hr2%Z.eqb_neq Hunits Hruns.
  unfold configure_fit. rewrite Hr1, Hr2.
  unfold bind at 1, read at 1.
  unfold bind at 1, modify at 1.
  unfold bind at 1, read at 1. simpl in Hunits |- *.
  destruct (num_fit_clients s (num_available cmgr)) as [n mn].
  unfold bind at 1. rewrite train_weights_fold. simpl in Hunits |- *.
  rewrite Hunits. unfold bind, alloc. simpl.
  pose proof (runs_variant _ _ _ _ _ _ cm0 c0 (h0 ++ [units])
                (o0 ++ [PrintConfigFit server_round]) (length h0) Hruns) as Hv.
  unfold variant in Hv |- *. unfold with_heap, print. simpl.
  rewrite Hv by (by rewrite lookup_app_r, Nat.sub_diag by lia).
  do 2 f_equal. f_equal. rewrite insert_app_r_alt by lia. by rewrite Nat.sub_diag.
Qed.

(** X17: configure_fit builds a new list of units in every round, so the
    steady-state rounds are repeatable: two successive rounds (3 or later)
    with the same sample, the same profiles and the same fit configuration
    return the same assignment, and the second one leaves the resources of
    every client, the recorded configurations and the model map as the first
    one left them. *)
Theorem steady_rounds_repeat (w : world) (r1 r2 : Z) (parameters : Parameters)
    (cmgr : ClientManager) (monitors : list (Monitor SimpleCPU TaskId))
    (units : list (string * Z)) :
  r1 ≠ 1%Z → r1 ≠ 2%Z → r2 ≠ 1%Z → r2 ≠ 2%Z →
  (∀ f, on_fit_config_fn (self w) = Some f → f r1 = f r2) →
  (let n := num_fit_clients (self w) (num_available cmgr) in
   train_weights (profiles (self w)) (sample cmgr n.1 n.2) = Some units) →
  resources_model (self w) ≠ [] →
  capacity_ok (resources_model (self w)) →
  NoDup (dict_keys (resources_model (self w))) →
  (∀ d, d ∈ dict_keys (resources_model (self w)) →
        is_Some (gpu_lookup d.1 d.2 (self w))) →
  ∃ fits w1 w2,
    configure_fit r1 parameters cmgr monitors w = (Ok fits, w1) ∧
    configure_fit r2 parameters cmgr monitors w1 = (Ok fits, w2) ∧
    length fits = length units ∧
    clients w2 = clients w1 ∧
    client_configs_map (self w2) = client_configs_map (self w1) ∧
    resources_model (self w2) = resources_model (self w).
Proof.
  intros Hr1 Hr1' Hr2 Hr2' Hcfg Hunits Hne Hcap Hnd Hgpus.
  set (cfg := match on_fit_config_fn (self w) with
              | Some f => f r1
              | None => ∅
              end).
  assert (Hcfg2 : match on_fit_config_fn (self w) with
                  | Some f => f r2
                  | None => ∅
                  end = cfg).
  { unfold cfg. destruct (on_fit_config_fn (self w)) as [f|] eqn:Hf; [|done].
    symmetry. by apply Hcfg. }
  destruct (associate_resources_runs (self w) parameters cfg Hne Hcap Hnd Hgpus units)
    as (sorted & loads & out & makespan & Hsorted & Hgreedy & Hmax & Hruns).
  set (us := concat (updates_of <$> out) ++ [UPrint (PrintExpected makespan)]) in *.
  destruct (apply_updates_variant (self w) us (client_configs_map (self w))
              (clients w) (stdout w ++ [PrintConfigFit r1]))
    as (cm1 & c1 & o1 & Hw1).
  destruct (apply_updates_variant (self w) us cm1 c1 (o1 ++ [PrintConfigFit r2]))
    as (cm2 & c2 & o2 & Hw2).
  exists (fit_of parameters cfg <$> out),
         (variant (self w) cm1 c1 (heap w ++ [[]]) o1),
         (variant (self w) cm2 c2 ((heap w ++ [[]]) ++ [[]]) o2).
  split; [|split; [|split]].
  - rewrite (world_is_variant w) at 1. rewrite <- Hw1.
    eapply configure_fit_steady_variant; [done|done|exact Hunits|exact Hruns].
  - rewrite <- Hw2.
    eapply configure_fit_steady_variant; [done|done|exact Hunits|].
    rewrite Hcfg2. exact Hruns.
  - rewrite length_fmap.
    rewrite <- (length_fmap (λ p : Placement, (pl_cid p, pl_weight p)) out).
    rewrite (greedy_units _ _ _ _ _ Hgreedy).
    destruct Hsorted as (Hperm & _). by rewrite Hperm.
  - pose proof (assignment_of_apply_updates us
      (variant (self w) (client_configs_map (self w)) (clients w) []
               (stdout w ++ [PrintConfigFit r1]))) as Ha1.
    rewrite Hw1 in Ha1. unfold assignment_of in Ha1. simpl in Ha1.
    pose proof (assignment_of_apply_updates us
      (variant (self w) cm1 c1 [] (o1 ++ [PrintConfigFit r2]))) as Ha2.
    rewrite Hw2 in Ha2. unfold assignment_of in Ha2. simpl in Ha2.
    rewrite Ha1, write_twice, <- Ha1 in Ha2. injection Ha2 as -> ->.
    done.
Qed.
End repeat.

Lemma steady_rounds_repeat_witness :
  let w := ex_single_world [] in
  3%Z ≠ 1%Z ∧ 3%Z ≠ 2%Z ∧ 4%Z ≠ 1%Z ∧ 4%Z ≠ 2%Z ∧
  (∀ f, on_fit_config_fn (self w) = Some f → f 3%Z = f 4%Z) ∧
  (let n := num_fit_clients (self w) (num_available ex_client_manager) in
   train_weights (profiles (self w)) (sample ex_client_manager n.1 n.2)
   = Some ex_three_units) ∧
  resources_model (self w) ≠ [] ∧
  capacity_ok (resources_model (self w)) ∧
  NoDup (dict_keys (resources_model (self w))) ∧
  (∀ d, d ∈ dict_keys (resources_model (self w)) →
        is_Some (gpu_lookup d.1 d.2 (self w))) ∧
  ∃ fits w1 w2,
    configure_fit (TaskId := nat) 3 tt ex_client_manager [] w = (Ok fits, w1) ∧
    configure_fit (TaskId := nat) 4 tt ex_client_manager [] w1 = (Ok fits, w2) ∧
    length fits = length ex_three_units ∧
    clients w2 = clients w1 ∧
    client_configs_map (self w2) = client_configs_map (self w1) ∧
    resources_model (self w2) = resources_model (self w).
Proof.
  intros w.
  assert (H1 : 3%Z ≠ 1%Z) by lia.
  assert (H2 : 3%Z ≠ 2%Z) by lia.
  assert (H3 : 4%Z ≠ 1%Z) by lia.
  assert (H4 : 4%Z ≠ 2%Z) by lia.
  assert (H5 : ∀ f, on_fit_config_fn (self w) = Some f → f 3%Z = f 4%Z)
    by (intros f; discriminate).
  assert (H6 : let n := num_fit_clients (self w) (num_available ex_client_manager) in
               train_weights (profiles (self w)) (sample ex_client_manager n.1 n.2)
               = Some ex_three_units) by (vm_compute; reflexivity).
  assert (H7 : resources_model (self w) ≠ []) by discriminate.
  assert (H8 : capacity_ok (resources_model (self w))).
  { repeat (constructor; [simpl; lia|]). constructor. }
  assert (H9 : NoDup (dict_keys (resources_model (self w)))).
  { simpl. apply NoDup_singleton. }
  assert (H10 : ∀ d, d ∈ dict_keys (resources_model (self w)) →
                     is_Some (gpu_lookup d.1 d.2 (self w))).
  { intros d Hd. simpl in Hd.
    apply list_elem_of_singleton in Hd as ->. by eexists; vm_compute. }
  repeat (split; [assumption|]).
  exact (steady_rounds_repeat (TaskId := nat) w 3 4 tt ex_client_manager []
           ex_three_units H1 H2 H3 H4 H5 H6 H7 H8 H9 H10).
Defined.

(** * Binary64 arithmetic on whole numbers *)

Section binary64.
Local Open Scope Z_scope.

Lemma digits2_pos_bounds (p : positive) :
  2 ^ (Z.pos (digits2_pos p) - 1) ≤ Z.pos p < 2 ^ Z.pos (digits2_pos p).
Proof.
  induction p as [p IH|p IH|]; cbn [digits2_pos].
  - rewrite Pos2Z.inj_succ. replace (Z.succ (Z.pos (digits2_pos p)) - 1)
      with (Z.succ (Z.pos (digits2_pos p) - 1)) by lia.
    rewrite !Z.pow_succ_r by lia. lia.
  - rewrite Pos2Z.inj_succ. replace (Z.succ (Z.pos (digits2_pos p)) - 1)
      with (Z.succ (Z.pos (digits2_pos p) - 1)) by lia.
    rewrite !Z.pow_succ_r by lia. lia.
  - simpl. lia.
Qed.

Lemma digits2_pos_unique (p : positive) (d : Z) :
  2 ^ (d - 1) ≤ Z.pos p < 2 ^ d → Z.pos (digits2_pos p) = d.
Proof.
  intros [Hlo Hhi]. pose proof (digits2_pos_bounds p) as [Hlo' Hhi'].
  assert (0 ≤ d).
  { destruct (Z.le_gt_cases 0 d) as [?|Hneg]; [done|].
    rewrite Z.pow_neg_r in Hhi by done. lia. }
  assert (d - 1 < Z.pos (digits2_pos p)).
  { apply (Z.pow_lt_mono_r_iff 2); lia. }
  assert (Z.pos (digits2_pos p) - 1 < d).
  { apply (Z.pow_lt_mono_r_iff 2); lia. }
  lia.
Qed.

Lemma iter_pos_nat {A} (f : A → A) (p : positive) (x : A) :
  SpecFloat.iter_pos f p x = Nat.iter (Pos.to_nat p) f x.
Proof.
  revert x. induction p as [p IH|p IH|]; intros x; cbn [SpecFloat.iter_pos].
  - rewrite !IH, Pos2Nat.inj_xI.
    replace (S (2 * Pos.to_nat p)) with (Pos.to_nat p + (Pos.to_nat p + 1))%nat by lia.
    rewrite !Nat.iter_add. done.
  - rewrite !IH, Pos2Nat.inj_xO.
    replace (2 * Pos.to_nat p)%nat with (Pos.to_nat p + Pos.to_nat p)%nat by lia.
    by rewrite Nat.iter_add.
  - done.
Qed.

(* shifting out zero bits loses nothing *)
Lemma shr_exact (k : nat) (m : Z) :
  0 < m →
  Nat.iter k shr_1 {| shr_m := m * 2 ^ Z.of_nat k; shr_r := false; shr_s := false |}
  = {| shr_m := m; shr_r := false; shr_s := false |}.
Proof.
  revert m. induction k as [|k IH]; intros m Hm.
  - simpl. by rewrite Z.mul_1_r.
  - rewrite Nat2Z.inj_succ, Z.pow_succ_r by lia.
    replace (m * (2 * 2 ^ Z.of_nat k)) with (2 * m * 2 ^ Z.of_nat k) by lia.
    rewrite Nat.iter_succ, IH by lia.
    destruct m as [|p|p]; [lia| |lia]. done.
Qed.

Lemma shr_record_of_loc_m m l : shr_m (shr_record_of_loc m l) = m.
Proof. by destruct l as [|[]]. Qed.

Lemma loc_of_shr_record_of_loc m l : loc_of_shr_record (shr_record_of_loc m l) = l.
Proof. by destruct l as [|[]]. Qed.

Lemma fexp_normal (d : Z) : -1021 ≤ d → fexp 53 1024 d = d - 53.
Proof. intros Hd. unfold fexp, emin. lia. Qed.

Lemma shr_fexp_53 (p : positive) (e : Z) (l : location) :
  Z.pos (digits2_pos p) = 53 → -1074 ≤ e →
  shr_fexp 53 1024 (Z.pos p) e l = (shr_record_of_loc (Z.pos p) l, e).
Proof.
  intros Hd He. unfold shr_fexp, shr. cbn [Zdigits2]. rewrite Hd.
  rewrite fexp_normal by lia. by replace (53 + e - 53 - e) with 0 by lia.
Qed.

Lemma shr_fexp_54 (p : positive) (e : Z) (l : location) :
  Z.pos (digits2_pos p) = 54 → -1074 ≤ e →
  shr_fexp 53 1024 (Z.pos p) e l = (shr_1 (shr_record_of_loc (Z.pos p) l), e + 1).
Proof.
  intros Hd He. unfold shr_fexp, shr. cbn [Zdigits2]. rewrite Hd.
  rewrite fexp_normal by lia. by replace (54 + e - 53 - e) with 1 by lia.
Qed.

(* the second normalisation of binary_round_aux keeps a mantissa of 53 digits *)
Lemma round_stage2_53 (s : bool) (p : positive) (e : Z) :
  Z.pos (digits2_pos p) = 53 → -1074 ≤ e ≤ 971 →
  (let '(mrs, e2) := shr_fexp 53 1024 (Z.pos p) e loc_Exact in
   match shr_m mrs with
   | 0 => S754_zero s
   | Z.pos m => if e2 <=? 1024 - 53 then S754_finite s m e2 else S754_infinity s
   | Z.neg _ => S754_nan
   end) = S754_finite s p e.
Proof.
  intros Hd He. rewrite shr_fexp_53 by lia. cbn [shr_record_of_loc shr_m].
  destruct (e <=? 1024 - 53) eqn:Hle; [done|lia].
Qed.

(* ... and renormalises 2^53 *)
Lemma round_stage2 (s : bool) (U e : Z) :
  2 ^ 52 ≤ U ≤ 2 ^ 53 → -1074 ≤ e ≤ 900 →
  ∃ m k,
    (let '(mrs, e2) := shr_fexp 53 1024 U e loc_Exact in
     match shr_m mrs with
     | 0 => S754_zero s
     | Z.pos m => if e2 <=? 1024 - 53 then S754_finite s m e2 else S754_infinity s
     | Z.neg _ => S754_nan
     end) = S754_finite s m (e + k) ∧
    0 ≤ k ∧ Z.pos m * 2 ^ k = U.
Proof.
  intros HU He. destruct U as [|pu|pu]; [lia| |lia].
  destruct (Z.eq_dec (Z.pos pu) (2 ^ 53)) as [Heq|Hne].
  - assert (pu = 9007199254740992%positive) as -> by lia. clear Heq HU.
    exists (4503599627370496%positive), 1.
    split; [|done]. rewrite shr_fexp_54 by first [by vm_compute|lia].
    cbn [shr_record_of_loc shr_1 shr_m orb].
    destruct (e + 1 <=? 1024 - 53) eqn:Hle; [done|lia].
  - assert (Hd : Z.pos (digits2_pos pu) = 53).
    { apply digits2_pos_unique. lia. }
    exists pu, 0. split; [|lia].
    rewrite Z.add_0_r. apply round_stage2_53; lia.
Qed.

(* one shift followed by rounding to nearest even *)
Lemma shr_1_round (p : positive) (l : location) :
  let mrs := shr_1 (shr_record_of_loc (Z.pos p) l) in
  let U := round_nearest_even (shr_m mrs) (loc_of_shr_record mrs) in
  2 * U = Z.pos p ∨
  (2 * U = Z.pos p + 1 ∧ Z.odd (Z.pos p) = true) ∨
  (2 * U = Z.pos p - 1 ∧ Z.odd (Z.pos p) = true).
Proof.
  destruct p as [p|p|], l as [|[]]; cbn; try (destruct p; cbn); lia.
Qed.

(** Rounding a quotient of two 53-digit mantissas: in units of the last
    place of [q] the result is [q], [q + 1], or [q - 1] for an odd [q]. *)
Lemma round_aux_spec (s : bool) (q e : Z) (l : location) :
  2 ^ 52 ≤ q < 2 ^ 54 → -1074 ≤ e ≤ 800 →
  ∃ m k W,
    binary_round_aux 53 1024 s q e l = S754_finite s m (e + k) ∧
    0 ≤ k ∧ Z.pos m * 2 ^ k = W ∧
    (W = q ∨ W = q + 1 ∨ (W = q - 1 ∧ Z.odd q = true)).
Proof.
  intros Hq He. destruct q as [|pq|pq]; [lia| |lia].
  unfold binary_round_aux.
  destruct (Z.lt_ge_cases (Z.pos pq) (2 ^ 53)) as [Hlt|Hge].
  - rewrite shr_fexp_53 by (first [apply digits2_pos_unique|idtac]; lia).
    rewrite shr_record_of_loc_m, loc_of_shr_record_of_loc.
    set (U := round_nearest_even (Z.pos pq) l).
    assert (HU : U = Z.pos pq ∨ U = Z.pos pq + 1).
    { unfold U. destruct l as [|[]]; cbn [round_nearest_even]; auto.
      destruct (Z.even _); auto. }
    destruct (round_stage2 s U e) as (m & k & Hres & Hk & Hm); [lia|lia|].
    exists m, k, U. split; [exact Hres|]. split; [done|]. split; [done|].
    destruct HU; auto.
  - rewrite shr_fexp_54 by (first [apply digits2_pos_unique|idtac]; lia).
    pose proof (shr_1_round pq l) as HU. cbv zeta in HU.
    set (mrs := shr_1 (shr_record_of_loc (Z.pos pq) l)) in *.
    set (U := round_nearest_even (shr_m mrs) (loc_of_shr_record mrs)) in *.
    destruct (round_stage2 s U (e + 1)) as (m & k & Hres & Hk & Hm); [lia|lia|].
    exists m, (k + 1), (2 * U). split.
    { replace (e + (k + 1)) with (e + 1 + k) by lia. exact Hres. }
    split; [lia|]. split.
    { rewrite Z.pow_add_r by lia. lia. }
    destruct HU as [HU|[[HU ?]|[HU ?]]]; [left|right; left|right; right]; auto with lia.
Qed.

Lemma digits2_pos_53 (p : positive) : Z.pos p < 2 ^ 53 → 1 ≤ Z.pos (digits2_pos p) ≤ 53.
Proof.
  intros Hp. pose proof (digits2_pos_bounds p) as [Hlo _]. split; [lia|].
  assert (Z.pos (digits2_pos p) - 1 < 53); [|lia].
  apply (Z.pow_lt_mono_r_iff 2); lia.
Qed.

Lemma iter_xO (m d : positive) : Z.pos (Pos.iter xO m d) = Z.pos m * 2 ^ Z.pos d.
Proof.
  induction d as [|d IH] using Pos.peano_ind.
  - simpl. lia.
  - rewrite Pos.iter_succ, Pos2Z.inj_succ, Z.pow_succ_r by lia.
    rewrite Pos2Z.inj_xO, IH. lia.
Qed.

Lemma shl_align_fst (m : positive) (e e' : Z) :
  e' ≤ e → Z.pos (shl_align m e e').1 = Z.pos m * 2 ^ (e - e').
Proof.
  intros He. unfold shl_align. destruct (e' - e) as [|d|d] eqn:Hd; [|lia|].
  - replace (e - e') with 0 by lia. simpl. lia.
  - cbn [fst]. rewrite iter_xO. f_equal. f_equal. lia.
Qed.

(* the scaled mantissa of a whole number has 53 digits *)
Lemma canon_digits (p : positive) :
  Z.pos p < 2 ^ 53 →
  let d := Z.pos (digits2_pos p) in
  2 ^ 52 ≤ Z.pos p * 2 ^ (53 - d) < 2 ^ 53.
Proof.
  intros Hp d. pose proof (digits2_pos_bounds p) as [Hlo Hhi].
  pose proof (digits2_pos_53 p Hp) as Hd. fold d in Hlo, Hhi, Hd.
  assert (H52 : 2 ^ 52 = 2 ^ (d - 1) * 2 ^ (53 - d)).
  { rewrite <- Z.pow_add_r by lia. f_equal. lia. }
  assert (H53 : 2 ^ 53 = 2 ^ d * 2 ^ (53 - d)).
  { rewrite <- Z.pow_add_r by lia. f_equal. lia. }
  assert (0 < 2 ^ (53 - d)) by (apply Z.pow_pos_nonneg; lia).
  rewrite H52, H53. nia.
Qed.

Lemma binary_round_int (s : bool) (pm n : positive) (e : Z) :
  Z.pos pm = Z.pos n * 2 ^ (- e) → -52 ≤ e ≤ 0 → Z.pos n < 2 ^ 53 →
  binary_round 53 1024 s pm e = canon s n.
Proof.
  intros Hpm He Hn.
  pose proof (digits2_pos_bounds n) as [Hlo Hhi].
  pose proof (digits2_pos_53 n Hn) as Hd.
  pose proof (canon_digits n Hn) as Hc. cbv zeta in Hc.
  unfold canon. set (d := Z.pos (digits2_pos n)) in *.
  assert (0 < 2 ^ (- e)) by (apply Z.pow_pos_nonneg; lia).
  assert (Hdm : Z.pos (digits2_pos pm) = d - e).
  { apply digits2_pos_unique. rewrite Hpm.
    replace (d - e - 1) with (d - 1 + - e) by lia.
    replace (d - e) with (d + - e) by lia.
    rewrite !Z.pow_add_r by lia. nia. }
  set (c := Z.to_pos (Z.pos n * 2 ^ (53 - d))).
  assert (Hcz : Z.pos c = Z.pos n * 2 ^ (53 - d)).
  { unfold c. rewrite Z2Pos.id; lia. }
  assert (Hcd : Z.pos (digits2_pos c) = 53).
  { apply digits2_pos_unique. rewrite Hcz. lia. }
  unfold binary_round. rewrite Hdm.
  replace (d - e + e) with d by lia. rewrite fexp_normal by lia.
  unfold shl_align. destruct (d - 53 - e) as [|k|k] eqn:Hk.
  - assert (pm = c) as ->.
    { apply Pos2Z.inj. rewrite Hpm, Hcz. f_equal. f_equal. lia. }
    replace e with (d - 53) by lia.
    unfold binary_round_aux. rewrite shr_fexp_53 by lia.
    cbn [shr_record_of_loc shr_m loc_of_shr_record round_nearest_even].
    apply round_stage2_53; [done|lia].
  - (* more than 53 digits: the low bits are zero *)
    unfold binary_round_aux, shr_fexp. cbn [Zdigits2]. rewrite Hdm.
    replace (d - e + e) with d by lia. rewrite fexp_normal by lia.
    rewrite Hk. unfold shr. rewrite iter_pos_nat.
    assert (Hsplit : Z.pos pm = Z.pos c * 2 ^ Z.of_nat (Pos.to_nat k)).
    { rewrite positive_nat_Z, Hpm, Hcz, <- Z.mul_assoc, <- Z.pow_add_r by lia.
      f_equal. f_equal. lia. }
    cbn [shr_record_of_loc]. rewrite Hsplit, shr_exact by lia.
    cbn [shr_m loc_of_shr_record round_nearest_even].
    replace (e + Z.pos k) with (d - 53) by lia.
    apply round_stage2_53; [done|lia].
  - assert (Pos.iter xO pm k = c) as ->.
    { apply Pos2Z.inj. rewrite iter_xO, Hpm, Hcz, <- Z.mul_assoc, <- Z.pow_add_r by lia.
      f_equal. f_equal. lia. }
    unfold binary_round_aux. rewrite shr_fexp_53 by lia.
    cbn [shr_record_of_loc shr_m loc_of_shr_record round_nearest_even].
    apply round_stage2_53; [done|lia].
Qed.

Lemma normalize_int (n e : Z) :
  Z.abs n < 2 ^ 53 → -52 ≤ e ≤ 0 →
  binary_normalize 53 1024 (n * 2 ^ (- e)) e false = Z2SF n.
Proof.
  intros Hn He. assert (0 < 2 ^ (- e)) by (apply Z.pow_pos_nonneg; lia).
  destruct n as [|p|p]; [done| |].
  - destruct (Z.pos p * 2 ^ (- e)) as [|pm|pm] eqn:Hpm; [lia| |lia].
    cbn [binary_normalize Z2SF]. apply binary_round_int; [done|lia|lia].
  - destruct (Z.neg p * 2 ^ (- e)) as [|pm|pm] eqn:Hpm; [lia|lia|].
    cbn [binary_normalize Z2SF]. apply binary_round_int; [lia|lia|lia].
Qed.

(** [float(n)] is exact below 2^53. *)
Lemma b64_of_Z_exact (n : Z) : Z.abs n < 2 ^ 53 → b64_of_Z n = Z2SF n.
Proof.
  intros Hn. unfold b64_of_Z.
  rewrite <- (normalize_int n 0) by lia. f_equal. simpl. lia.
Qed.

(* the aligned mantissa of a whole number *)
Lemma canon_aligned (p : positive) (ez : Z) :
  Z.pos p < 2 ^ 53 → ez ≤ Z.pos (digits2_pos p) - 53 →
  Z.pos (shl_align (Z.to_pos (Z.pos p * 2 ^ (53 - Z.pos (digits2_pos p))))
                   (Z.pos (digits2_pos p) - 53) ez).1
  = Z.pos p * 2 ^ (- ez).
Proof.
  intros Hp Hez. pose proof (digits2_pos_53 p Hp) as Hd.
  pose proof (canon_digits p Hp) as Hc. cbv zeta in Hc.
  rewrite shl_align_fst by done. rewrite Z2Pos.id by lia.
  rewrite <- Z.mul_assoc, <- Z.pow_add_r by lia. f_equal. f_equal. lia.
Qed.

Lemma Z2SF_finite_plus (sx sy : bool) (a b : positive) :
  Z.pos a < 2 ^ 53 → Z.pos b < 2 ^ 53 →
  Z.abs (cond_Zopp sx (Z.pos a) + cond_Zopp sy (Z.pos b)) < 2 ^ 53 →
  b64_add (canon sx a) (canon sy b)
  = Z2SF (cond_Zopp sx (Z.pos a) + cond_Zopp sy (Z.pos b)).
Proof.
  intros Ha Hb Hab. pose proof (digits2_pos_53 a Ha). pose proof (digits2_pos_53 b Hb).
  unfold b64_add, canon, SFadd.
  set (ez := Z.min (Z.pos (digits2_pos a) - 53) (Z.pos (digits2_pos b) - 53)).
  cbv zeta. rewrite !canon_aligned by lia.
  rewrite <- (normalize_int _ ez) by lia. f_equal.
  destruct sx, sy; cbn [cond_Zopp]; lia.
Qed.

Lemma Z2SF_finite_minus (sx sy : bool) (a b : positive) :
  Z.pos a < 2 ^ 53 → Z.pos b < 2 ^ 53 →
  Z.abs (cond_Zopp sx (Z.pos a) - cond_Zopp sy (Z.pos b)) < 2 ^ 53 →
  b64_sub (canon sx a) (canon sy b)
  = Z2SF (cond_Zopp sx (Z.pos a) - cond_Zopp sy (Z.pos b)).
Proof.
  intros Ha Hb Hab. pose proof (digits2_pos_53 a Ha). pose proof (digits2_pos_53 b Hb).
  unfold b64_sub, canon, SFsub.
  set (ez := Z.min (Z.pos (digits2_pos a) - 53) (Z.pos (digits2_pos b) - 53)).
  cbv zeta. rewrite !canon_aligned by lia.
  rewrite <- (normalize_int _ ez) by lia. f_equal.
  destruct sx, sy; cbn [cond_Zopp]; lia.
Qed.

(** Sums and differences of whole numbers are exact while they stay below
    2^53. *)
Lemma b64_add_exact (a b : Z) :
  Z.abs a < 2 ^ 53 → Z.abs b < 2 ^ 53 → Z.abs (a + b) < 2 ^ 53 →
  b64_add (Z2SF a) (Z2SF b) = Z2SF (a + b).
Proof.
  intros Ha Hb Hab.
  destruct a as [|a|a], b as [|b|b]; try done.
  - apply (Z2SF_finite_plus false false); cbn [cond_Zopp]; lia.
  - apply (Z2SF_finite_plus false true); cbn [cond_Zopp]; lia.
  - apply (Z2SF_finite_plus true false); cbn [cond_Zopp]; lia.
  - apply (Z2SF_finite_plus true true); cbn [cond_Zopp]; lia.
Qed.

Lemma b64_sub_exact (a b : Z) :
  Z.abs a < 2 ^ 53 → Z.abs b < 2 ^ 53 → Z.abs (a - b) < 2 ^ 53 →
  b64_sub (Z2SF a) (Z2SF b) = Z2SF (a - b).
Proof.
  intros Ha Hb Hab.
  destruct a as [|a|a], b as [|b|b]; try done.
  - apply (Z2SF_finite_minus false false); cbn [cond_Zopp]; lia.
  - apply (Z2SF_finite_minus false true); cbn [cond_Zopp]; lia.
  - apply (Z2SF_finite_minus true false); cbn [cond_Zopp]; lia.
  - apply (Z2SF_finite_minus true true); cbn [cond_Zopp]; lia.
Qed.

(** *** Division *)

Lemma div_core (mx my : positive) (ex ey : Z) :
  Z.pos (digits2_pos mx) = 53 → Z.pos (digits2_pos my) = 53 →
  -52 ≤ ex ≤ 0 → -52 ≤ ey ≤ 0 →
  SFdiv_core_binary 53 1024 (Z.pos mx) ex (Z.pos my) ey
  = ((Z.pos mx * 2 ^ 53) `div` Z.pos my, ex - ey - 53,
     new_location (Z.pos my) ((Z.pos mx * 2 ^ 53) `mod` Z.pos my)).
Proof.
  intros Hdx Hdy Hex Hey. unfold SFdiv_core_binary. cbn [Zdigits2].
  rewrite Hdx, Hdy.
  replace (53 + ex - (53 + ey)) with (ex - ey) by lia.
  rewrite fexp_normal by lia.
  replace (Z.min (ex - ey - 53) (ex - ey)) with (ex - ey - 53) by lia.
  replace (ex - ey - (ex - ey - 53)) with 53 by lia.
  cbv zeta. cbv iota. rewrite Z.shiftl_mul_pow2 by lia.
  unfold Z.div, Z.modulo.
  by destruct (Z.div_eucl (Z.pos mx * 2 ^ 53) (Z.pos my)) as [q r].
Qed.

(* [int()] of a double whose mantissa was renormalised by [k] places *)
Lemma b64_trunc_scale (s : bool) (m : positive) (e k W : Z) :
  Z.pos m * 2 ^ k = W → 0 ≤ k → e < 0 →
  b64_trunc s m (e + k) = cond_Zopp s (W `div` 2 ^ (- e)).
Proof.
  intros HW Hk He. unfold b64_trunc. f_equal. subst W.
  destruct (0 <=? e + k) eqn:Hle.
  - apply Z.leb_le in Hle.
    replace (2 ^ k) with (2 ^ (e + k) * 2 ^ (- e)).
    + rewrite Z.mul_assoc, Z.div_mul; [done|]. apply Z.pow_nonzero; lia.
    + rewrite <- Z.pow_add_r by lia. f_equal. lia.
  - apply Z.leb_gt in Hle.
    replace (2 ^ (- e)) with (2 ^ (- (e + k)) * 2 ^ k).
    + rewrite Z.div_mul_cancel_r; [done|apply Z.pow_nonzero; lia..].
    + rewrite <- Z.pow_add_r by lia. f_equal. lia.
Qed.

(* the quotient of the scaled mantissas truncates like the quotient of the
   whole numbers, whichever way it was rounded *)
Lemma quotient_trunc (N P t q W : Z) :
  0 < N → 0 < P → 1 ≤ t → P < 2 ^ t →
  q = (N * 2 ^ t) `div` P →
  W = q ∨ W = q + 1 ∨ (W = q - 1 ∧ Z.odd q = true) →
  W `div` 2 ^ t = N `div` P.
Proof.
  intros HN HP Ht HPt Hq HW.
  assert (Hpow : 0 < 2 ^ t) by (apply Z.pow_pos_nonneg; lia).
  pose proof (Z.div_mod N P ltac:(lia)) as Hdm.
  pose proof (Z.mod_pos_bound N P HP) as Hr.
  set (Q := N `div` P) in *. set (r := N `mod` P) in *.
  set (u := (r * 2 ^ t) `div` P).
  assert (Hqu : q = Q * 2 ^ t + u).
  { rewrite Hq, Hdm. unfold u.
    replace ((P * Q + r) * 2 ^ t) with (Q * 2 ^ t * P + r * 2 ^ t) by lia.
    rewrite Z.div_add_l by lia. done. }
  assert (Hu0 : 0 ≤ u) by (apply Z.div_pos; nia).
  assert (Hu1 : u < 2 ^ t - 1).
  { apply Z.div_lt_upper_bound; [lia|]. nia. }
  assert (Hodd : Z.odd q = true → 1 ≤ u).
  { intros Ho. destruct (Z.eq_dec u 0) as [Hz|]; [|lia].
    rewrite Hqu, Hz, Z.add_0_r in Ho.
    replace t with (Z.succ (t - 1)) in Ho by lia.
    rewrite Z.pow_succ_r in Ho by lia.
    replace (Q * (2 * 2 ^ (t - 1))) with (0 + 2 * (Q * 2 ^ (t - 1))) in Ho by lia.
    rewrite Z.odd_add_mul_2 in Ho. done. }
  symmetry. apply (Z.div_unique_pos _ _ _ (W - Q * 2 ^ t)); [|lia].
  destruct HW as [->|[->|[-> Ho]]]; [lia|lia|]. specialize (Hodd Ho). lia.
Qed.

(** [int(n / p)] on whole numbers below 2^53: the rounded quotient truncates
    to the integer quotient. *)
Lemma div_canon (sx sy : bool) (N P : positive) :
  Z.pos N < 2 ^ 53 → Z.pos P < 2 ^ 53 →
  py_int_float (b64_div (canon sx N) (canon sy P))
  = Ok (cond_Zopp (xorb sx sy) (Z.pos N `div` Z.pos P)).
Proof.
  intros HN HP.
  pose proof (digits2_pos_bounds N) as [HNlo HNhi].
  pose proof (digits2_pos_bounds P) as [HPlo HPhi].
  pose proof (digits2_pos_53 N HN) as HdN. pose proof (digits2_pos_53 P HP) as HdP.
  pose proof (canon_digits N HN) as HcN. pose proof (canon_digits P HP) as HcP.
  cbv zeta in HcN, HcP.
  unfold b64_div, canon, SFdiv.
  set (dN := Z.pos (digits2_pos N)) in *. set (dP := Z.pos (digits2_pos P)) in *.
  set (mx := Z.to_pos (Z.pos N * 2 ^ (53 - dN))).
  set (my := Z.to_pos (Z.pos P * 2 ^ (53 - dP))).
  assert (Hmx : Z.pos mx = Z.pos N * 2 ^ (53 - dN)) by (unfold mx; rewrite Z2Pos.id; lia).
  assert (Hmy : Z.pos my = Z.pos P * 2 ^ (53 - dP)) by (unfold my; rewrite Z2Pos.id; lia).
  rewrite div_core; [|apply digits2_pos_unique; lia..|lia|lia].
  set (q := (Z.pos mx * 2 ^ 53) `div` Z.pos my).
  set (t := 53 + dP - dN).
  assert (Hq : q = (Z.pos N * 2 ^ t) `div` Z.pos P).
  { unfold q. rewrite Hmx, Hmy.
    replace (Z.pos N * 2 ^ (53 - dN) * 2 ^ 53) with (Z.pos N * 2 ^ t * 2 ^ (53 - dP)).
    - rewrite Z.div_mul_cancel_r; [done|lia|apply Z.pow_nonzero; lia].
    - unfold t. rewrite <- !Z.mul_assoc, <- !Z.pow_add_r by lia. f_equal. f_equal. lia. }
  assert (Hqb : 2 ^ 52 ≤ q < 2 ^ 54).
  { unfold q. split.
    - apply Z.div_le_lower_bound; [lia|]. nia.
    - apply Z.div_lt_upper_bound; [lia|]. nia. }
  destruct (round_aux_spec (xorb sx sy) q (dN - 53 - (dP - 53) - 53)
              (new_location (Z.pos my) ((Z.pos mx * 2 ^ 53) `mod` Z.pos my)) Hqb)
    as (m & k & W & Hres & Hk & Hm & HW); [lia|].
  rewrite Hres. cbn [py_int_float]. f_equal.
  rewrite (b64_trunc_scale _ m _ k W Hm Hk) by lia. f_equal.
  replace (- (dN - 53 - (dP - 53) - 53)) with t by (unfold t; lia).
  apply (quotient_trunc _ _ t q W); [lia|lia|unfold t; lia| |done|done].
  apply Z.lt_le_trans with (2 ^ dP); [lia|].
  apply Z.pow_le_mono_r; unfold t; lia.
Qed.

Lemma cond_Zopp_quot (sx sy : bool) (n p : positive) :
  cond_Zopp (xorb sx sy) (Z.pos n `div` Z.pos p)
  = Z.quot (cond_Zopp sx (Z.pos n)) (cond_Zopp sy (Z.pos p)).
Proof.
  rewrite <- Z.quot_div_nonneg by lia.
  destruct sx, sy; cbn [xorb cond_Zopp].
  - by rewrite Z.quot_opp_opp.
  - by rewrite Z.quot_opp_l.
  - by rewrite Z.quot_opp_r.
  - done.
Qed.

Lemma py_float_truediv_canon (x : spec_float) (s : bool) (p : positive) :
  py_float_truediv x (canon s p) = Ok (b64_div x (canon s p)).
Proof. done. Qed.

(** On whole readings of magnitude below 2^53 whose difference and sum stay
    below 2^53, the binary64 computation of lines 391-398 returns the integer
    quotient truncated toward zero, and raises ZeroDivisionError exactly when
    the per-task peak is zero: it is what [py_int_truediv] computes. *)
Lemma estimate_capacity_whole (total all this : Z) :
  Z.abs total < 2 ^ 53 → Z.abs all < 2 ^ 53 → Z.abs this < 2 ^ 53 →
  Z.abs (total - all) < 2 ^ 53 → Z.abs (total - all + this) < 2 ^ 53 →
  estimate_capacity (b64_of_Z total) (b64_of_Z all) (b64_of_Z this)
  = py_int_truediv (total - all + this) this.
Proof.
  intros Ht Ha Hp Hd Hn. unfold estimate_capacity.
  rewrite !b64_of_Z_exact, b64_sub_exact, b64_add_exact by done.
  unfold py_int_truediv.
  destruct this as [|p|p]; [done| |].
  - change (Z.pos p =? 0) with false. cbv iota.
    destruct (total - all + Z.pos p) as [|n|n] eqn:HN; [done| |].
    + cbn [Z2SF]. rewrite py_float_truediv_canon, div_canon by lia.
      by rewrite (cond_Zopp_quot false false).
    + cbn [Z2SF]. rewrite py_float_truediv_canon, div_canon by lia.
      by rewrite (cond_Zopp_quot true false).
  - change (Z.neg p =? 0) with false. cbv iota.
    destruct (total - all + Z.neg p) as [|n|n] eqn:HN; [done| |].
    + cbn [Z2SF]. rewrite py_float_truediv_canon, div_canon by lia.
      by rewrite (cond_Zopp_quot false true).
    + cbn [Z2SF]. rewrite py_float_truediv_canon, div_canon by lia.
      by rewrite (cond_Zopp_quot true true).
Qed.
End binary64.

(** ** Round 1 of aggregate_fit, end to end *)

Section loops.
Context {W : Type}.

Lemma foldM_unit {A} (g : A → M (W := W) unit) (l : list A) (b : unit) :
  foldM (λ _ x, g x) b l = for_ l g.
Proof. by destruct b. Qed.

Lemma for__cons {A} (g : A → M (W := W) unit) x (l : list A) (w : W) :
  for_ (x :: l) g w = bind (g x) (λ _, for_ l g) w.
Proof.
  unfold for_ at 1. cbn [foldM]. unfold bind.
  destruct (g x w) as [[[]|e|] w1]; [|done..]. done.
Qed.

Lemma for__app {A} (g : A → M (W := W) unit) (l1 l2 : list A) (w : W) :
  for_ (l1 ++ l2) g w = bind (for_ l1 g) (λ _, for_ l2 g) w.
Proof.
  revert w. induction l1 as [|x l1 IH]; intros w; [done|].
  rewrite <- app_comm_cons, for__cons. unfold bind. rewrite for__cons. unfold bind.
  destruct (g x w) as [[[]|e|] w1]; [|done..]. by rewrite IH.
Qed.

Lemma for__ext {A} (g1 g2 : A → M (W := W) unit) (l : list A) (w : W) :
  (∀ x w, x ∈ l → g1 x w = g2 x w) → for_ l g1 w = for_ l g2 w.
Proof.
  revert w. induction l as [|x l IH]; intros w Hg; [done|].
  rewrite !for__cons. unfold bind. rewrite Hg by left.
  destruct (g2 x w) as [[[]|e|] w1]; [|done..].
  apply IH. intros y w0 Hy. apply Hg. by right.
Qed.

Lemma for__fmap {A B} (h : A → B) (g : B → M (W := W) unit) (l : list A) (w : W) :
  for_ (h <$> l) g w = for_ l (λ x, g (h x)) w.
Proof.
  revert w. induction l as [|x l IH]; intros w; [done|].
  rewrite fmap_cons, !for__cons. unfold bind.
  destruct (g (h x) w) as [[[]|e|] w1]; [|done..]. apply IH.
Qed.

(* nested loops visit the flattened list *)
Lemma for__bind {A B} (f : A → list B) (g : B → M (W := W) unit) (l : list A) (w : W) :
  for_ (l ≫= f) g w = for_ l (λ x, for_ (f x) g) w.
Proof.
  revert w. induction l as [|x l IH]; intros w; [done|].
  rewrite bind_cons, for__app, for__cons. unfold bind.
  destruct (for_ (f x) g w) as [[[]|e|] w1]; [|done..]. by rewrite IH.
Qed.
End loops.

Section round1.
Context {T Poly SimpleCPU TaskId Parameters Failures Aggregate : Type}.
Context `{Numeric T} `{PolyLib T Poly} `{EqDecision TaskId}.
Context (FedAvg_aggregate_fit :
  Z → list (string * FitRes TaskId) → Failures → Aggregate).

Abbreviation world := (World T Poly SimpleCPU).
Abbreviation models_of := (λ w : world, resources_model (self w)).
Abbreviation sample := (string * list (string * Z) * (string * Z))%type.

(* the three nested loops of round 1 visit the samples one by one *)
Lemma aggregate_rounds1_flat ids (monitors : list (Monitor SimpleCPU TaskId))
    (w : world) :
  for_ monitors (aggregate_round1 ids) w
  = for_ (round1_samples monitors ids)
         (λ s : sample, refine_capacity s.1.1 s.1.2 s.2) w.
Proof.
  unfold round1_samples. rewrite for__bind. apply for__ext. intros actor w0 _.
  unfold aggregate_round1. rewrite for__bind. apply for__ext. intros task w1 _.
  by rewrite for__fmap.
Qed.

Lemma refine_samples_spec (G0 : gmap string (gmap string SimpleGPU))
    (K0 : list Device) (samples : list sample) :
  NoDup (sample_device <$> samples) →
  (∀ s, s ∈ samples →
        s.2.2 ≠ 0%Z ∧
        is_Some (G0 !! s.1.1 ≫= (λ gpus, gpus !! s.2.1)) ∧
        is_Some (dict_get s.2.1 s.1.2) ∧
        sample_device s ∈ K0) →
  ∀ w1 : world,
    gpu_resources (self w1) = G0 → dict_keys (models_of w1) = K0 →
    ∃ w',
      for_ samples (λ s : sample, refine_capacity s.1.1 s.1.2 s.2) w1 = (Ok tt, w') ∧
      gpu_resources (self w') = G0 ∧
      dict_keys (models_of w') = K0 ∧
      (∀ d, d ∉ sample_device <$> samples →
            dict_get d (models_of w') = dict_get d (models_of w1)) ∧
      (∀ s gpu a, s ∈ samples →
         G0 !! s.1.1 ≫= (λ gpus, gpus !! s.2.1) = Some gpu →
         dict_get s.2.1 s.1.2 = Some a →
         ∃ poly t,
           dict_get (sample_device s) (models_of w1) = Some (poly, t) ∧
           dict_get (sample_device s) (models_of w')
           = Some (poly, Z.quot (total_mem_mb gpu - a + s.2.2) s.2.2)).
Proof.
  induction samples as [|s samples IH]; intros Hnd Hok w1 HG HK.
  - exists w1. repeat split; try done. by intros s gpu a ?%elem_of_nil.
  - rewrite fmap_cons in Hnd. apply NoDup_cons in Hnd as [Hnin Hnd].
    pose proof (λ s0 Hs0, Hok s0 (proj2 (elem_of_cons _ _ _) (or_intror Hs0))) as Hok'.
    destruct (Hok s) as (Hmem & [gpu Hgpu] & [a Ha] & Hkey); [left|].
    clear Hok.
    destruct s as [[node_id all] [gpu_uuid mem]]. simpl in *.
    unfold sample_device in Hkey. simpl in Hkey.
    rewrite <- HK in Hkey. apply dict_get_in_keys in Hkey as [[poly t] Hget].
    rewrite <- HG in Hgpu.
    pose proof (refine_capacity_ok node_id all gpu_uuid mem w1 gpu a poly t
                  Hgpu Ha Hmem Hget) as Hstep. simpl in Hstep.
    set (n := Z.quot (total_mem_mb gpu - a + mem) mem) in *.
    set (w2 := print (PrintMaxClients node_id gpu_uuid n)
                 (with_self (set_resources_model
                    (dict_set (node_id, gpu_uuid) (poly, n))) w1)) in *.
    destruct (IH Hnd Hok' w2)
      as (w' & Hrun & HG' & HK' & Hout & Hin).
    { done. }
    { rewrite <- HK. simpl. by eapply dict_keys_set_in. }
    exists w'. split; [|split; [done|split; [done|split]]].
    + rewrite for__cons. by rewrite (bind_ok _ _ _ _ _ Hstep).
    + intros d Hd. apply not_elem_of_cons in Hd as [Hne Hd].
      rewrite (Hout d Hd). simpl. apply dict_get_set_ne.
      intros Heq. apply Hne. by rewrite <- Heq.
    + intros s gpu' a' [->|Hs]%elem_of_cons Hgpu' Ha'.
      * simpl in *. rewrite HG in Hgpu. rewrite Hgpu in Hgpu'. injection Hgpu' as <-.
        rewrite Ha in Ha'. injection Ha' as <-.
        exists poly, t. unfold sample_device. cbn [fst snd]. split; [done|].
        rewrite (Hout (node_id, gpu_uuid) Hnin). simpl. apply dict_get_set_eq.
      * destruct (Hin s gpu' a' Hs Hgpu' Ha') as (poly' & t' & Hget2 & Hget').
        exists poly', t'. split; [|done].
        rewrite <- Hget2. simpl. symmetry. apply dict_get_set_ne.
        intros Heq. apply Hnin.
        apply list_elem_of_fmap. exists s. split; [exact Heq|done].
Qed.

(** X18: round 1 of aggregate_fit, end to end, on whole readings.  When every
    result carries a task id, no two memory samples are about the same device
    (one probe per device), and every sample names a GPU of the inventory
    that has a model, with whole readings 0 <= all <= total, 0 < this and
    total + this < 2^53, the call returns the aggregate of FedAvg; the
    capacity of every sampled device becomes what the binary64 expression
    int((total - all + this) / this) evaluates to, which on such readings is
    floor((total - all + this) / this), and its polynomial is kept; the
    models of the other devices and the device order are unchanged. *)
Theorem round1_capacities (w : world) (results : list (string * FitRes TaskId))
    (failures : Failures) (monitors : list (Monitor SimpleCPU TaskId)) :
  Forall (λ r, is_Some (task_id r.2)) results →
  let samples := round1_samples monitors (dict_keys (task_map results)) in
  NoDup (sample_device <$> samples) →
  (∀ s, s ∈ samples →
        sample_device s ∈ dict_keys (models_of w) ∧
        ∃ gpu a,
          gpu_lookup s.1.1 s.2.1 (self w) = Some gpu ∧
          dict_get s.2.1 s.1.2 = Some a ∧
          (0 ≤ a ≤ total_mem_mb gpu)%Z ∧ (0 < s.2.2)%Z ∧
          (total_mem_mb gpu + s.2.2 < 2 ^ 53)%Z) →
  ∃ w',
    aggregate_fit FedAvg_aggregate_fit 1 results failures monitors w
    = (Ok (FedAvg_aggregate_fit 1 results failures), w') ∧
    (∀ s gpu a, s ∈ samples →
       gpu_lookup s.1.1 s.2.1 (self w) = Some gpu →
       dict_get s.2.1 s.1.2 = Some a →
       ∃ poly t n,
         estimate_capacity (b64_of_Z (total_mem_mb gpu)) (b64_of_Z a) (b64_of_Z s.2.2)
         = Ok n ∧
         n = ((total_mem_mb gpu - a + s.2.2) `div` s.2.2)%Z ∧
         dict_get (sample_device s) (models_of w) = Some (poly, t) ∧
         dict_get (sample_device s) (models_of w') = Some (poly, n)) ∧
    (∀ d, d ∉ sample_device <$> samples →
          dict_get d (models_of w') = dict_get d (models_of w)) ∧
    dict_keys (models_of w') = dict_keys (models_of w).
Proof.
  intros Hids samples Hnd Hok.
  destruct (refine_samples_spec (gpu_resources (self w)) (dict_keys (models_of w))
              samples Hnd) with (w1 := w)
    as (w' & Hrun & _ & HK & Hout & Hin); [|done|done|].
  { intros s Hs. destruct (Hok s Hs) as (Hkey & gpu & a & Hgpu & Ha & ? & ? & ?).
    split; [lia|]. split; [by exists gpu|]. split; [by exists a|done]. }
  exists w'. split; [|split; [|done]].
  - unfold aggregate_fit.
    rewrite (bind_ok _ _ w w _ (tasks_to_cid_spec results w Hids)).
    change (1 =? 1)%Z with true. cbv iota.
    rewrite (bind_ok _ _ w w' tt); [done|].
    by rewrite aggregate_rounds1_flat.
  - intros s gpu a Hs Hgpu Ha.
    destruct (Hok s Hs) as (_ & gpu' & a' & Hgpu' & Ha' & Hrange & Hpos & Hbound).
    rewrite Hgpu in Hgpu'. injection Hgpu' as <-.
    rewrite Ha in Ha'. injection Ha' as <-.
    destruct (Hin s gpu a Hs Hgpu Ha) as (poly & t & Hget & Hget').
    exists poly, t, ((total_mem_mb gpu - a + s.2.2) `div` s.2.2)%Z.
    split; [|split; [done|split; [done|]]].
    + rewrite estimate_capacity_whole by lia. unfold py_int_truediv.
      destruct (s.2.2 =? 0)%Z eqn:Hz; [lia|].
      by rewrite Z.quot_div_nonneg by lia.
    + by rewrite <- Z.quot_div_nonneg by lia.
Qed.
End round1.

Lemma round1_capacities_witness :
  let samples := round1_samples [ex_monitor 200 400 []] (dict_keys (task_map ex_results)) in
  Forall (λ r : string * FitRes nat, is_Some (task_id r.2)) ex_results ∧
  NoDup (sample_device <$> samples) ∧
  (∀ s, s ∈ samples →
        sample_device s ∈ dict_keys (resources_model (self ex_world1)) ∧
        ∃ gpu a,
          gpu_lookup s.1.1 s.2.1 (self ex_world1) = Some gpu ∧
          dict_get s.2.1 s.1.2 = Some a ∧
          (0 ≤ a ≤ total_mem_mb gpu)%Z ∧ (0 < s.2.2)%Z ∧
          (total_mem_mb gpu + s.2.2 < 2 ^ 53)%Z) ∧
  ∃ w',
    aggregate_fit ex_aggregate 1 ex_results tt [ex_monitor 200 400 []] ex_world1
    = (Ok (ex_aggregate 1 ex_results tt), w') ∧
    (∀ s gpu a, s ∈ samples →
       gpu_lookup s.1.1 s.2.1 (self ex_world1) = Some gpu →
       dict_get s.2.1 s.1.2 = Some a →
       ∃ poly t n,
         estimate_capacity (b64_of_Z (total_mem_mb gpu)) (b64_of_Z a) (b64_of_Z s.2.2)
         = Ok n ∧
         n = ((total_mem_mb gpu - a + s.2.2) `div` s.2.2)%Z ∧
         dict_get (sample_device s) (resources_model (self ex_world1)) = Some (poly, t) ∧
         dict_get (sample_device s) (resources_model (self w')) = Some (poly, n)) ∧
    (∀ d, d ∉ sample_device <$> samples →
          dict_get d (resources_model (self w'))
          = dict_get d (resources_model (self ex_world1))) ∧
    dict_keys (resources_model (self w')) = dict_keys (resources_model (self ex_world1)).
Proof.
  intros samples.
  assert (Hs : samples = [("node-a", [("GPU-0", 400%Z)], ("GPU-0", 200%Z))])
    by reflexivity.
  assert (H1 : Forall (λ r : string * FitRes nat, is_Some (task_id r.2)) ex_results).
  { repeat (constructor; [by eexists|]). constructor. }
  assert (H2 : NoDup (sample_device <$> samples)).
  { rewrite Hs. simpl. apply NoDup_singleton. }
  assert (H3 : ∀ s, s ∈ samples →
             sample_device s ∈ dict_keys (resources_model (self ex_world1)) ∧
             ∃ gpu a,
               gpu_lookup s.1.1 s.2.1 (self ex_world1) = Some gpu ∧
               dict_get s.2.1 s.1.2 = Some a ∧
               (0 ≤ a ≤ total_mem_mb gpu)%Z ∧ (0 < s.2.2)%Z ∧
               (total_mem_mb gpu + s.2.2 < 2 ^ 53)%Z).
  { intros s Hin. rewrite Hs in Hin. apply list_elem_of_singleton in Hin as ->.
    split; [rewrite ex_world1_models; simpl; left|].
    exists ex_gpu, 400%Z. split; [by vm_compute|]. split; [by vm_compute|].
    simpl. lia. }
  repeat (split; [assumption|]).
  exact (round1_capacities ex_aggregate ex_world1 ex_results tt
           [ex_monitor 200 400 []] H1 H2 H3).
Defined.

(** * The capacity estimate *)

(** C3 (amended): for whole readings 0 <= total, all < 2^53 and
    0 < this < 2^53 with 0 <= total - all + this < 2^53, the capacity
    estimate of round 1, int((total - all + this) / this) on binary64
    numbers, is floor((total - all + this) / this): the subtraction and the
    addition are exact, and the rounded quotient truncates to the integer
    quotient. *)
Theorem capacity_estimate_whole (total all this : Z) :
  (0 ≤ total < 2 ^ 53)%Z → (0 ≤ all < 2 ^ 53)%Z → (0 < this < 2 ^ 53)%Z →
  (0 ≤ total - all + this < 2 ^ 53)%Z →
  estimate_capacity (b64_of_Z total) (b64_of_Z all) (b64_of_Z this)
  = Ok ((total - all + this) `div` this)%Z.
Proof.
  intros Ht Ha Hp Hn.
  rewrite estimate_capacity_whole by lia. unfold py_int_truediv.
  destruct (this =? 0)%Z eqn:Hz; [lia|].
  by rewrite Z.quot_div_nonneg by lia.
Qed.

(* total 1000, all-process peak 400, task peak 200: capacity 4 *)
Lemma capacity_estimate_whole_witness :
  (0 ≤ 1000 < 2 ^ 53)%Z ∧ (0 ≤ 400 < 2 ^ 53)%Z ∧ (0 < 200 < 2 ^ 53)%Z ∧
  (0 ≤ 1000 - 400 + 200 < 2 ^ 53)%Z ∧
  estimate_capacity (b64_of_Z 1000) (b64_of_Z 400) (b64_of_Z 200) = Ok 4%Z.
Proof.
  assert (H1 : (0 ≤ 1000 < 2 ^ 53)%Z) by lia.
  assert (H2 : (0 ≤ 400 < 2 ^ 53)%Z) by lia.
  assert (H3 : (0 < 200 < 2 ^ 53)%Z) by lia.
  assert (H4 : (0 ≤ 1000 - 400 + 200 < 2 ^ 53)%Z) by lia.
  repeat (split; [assumption|]).
  exact (capacity_estimate_whole 1000 400 200 H1 H2 H3 H4).
Defined.

(** C3, as stated, fails on readings with a fractional part: with total
    1000.0, all-process peak 485.2 and task peak 85.8 (the doubles
    0x1.e533333333333p+8 and 0x1.5733333333333p+6) the subtraction and the
    addition round to 600.5999999999999, the quotient to 6.999999999999999,
    and the estimate is 6; floor((1000 - 485.2 + 85.8) / 85.8) is 7, on the
    decimal readings and on the exact values of the three doubles alike. *)
Lemma capacity_estimate_rounded :
  let total := b64_of_Z 1000 in
  let all := b64_div (b64_of_Z 4852) (b64_of_Z 10) in
  let this := b64_div (b64_of_Z 858) (b64_of_Z 10) in
  all = S754_finite false 8535728668750643 (-44) ∧
  this = S754_finite false 6037638250443571 (-46) ∧
  b64_add (b64_sub total all) this = S754_finite false 5282933469138124 (-43) ∧
  estimate_capacity total all this = Ok 6%Z ∧
  Qfloor ((1000 - (4852 # 10) + (858 # 10)) / (858 # 10)) = 7%Z ∧
  ∃ t a p,
    b64_value total = Some t ∧ b64_value all = Some a ∧ b64_value this = Some p ∧
    (0 < p)%Q ∧ (0 <= a)%Q ∧ (a <= t)%Q ∧
    Qfloor ((t - a + p) / p) = 7%Z.
Proof.
  intros total all this.
  split; [vm_compute; reflexivity|]. split; [vm_compute; reflexivity|].
  split; [vm_compute; reflexivity|]. split; [vm_compute; reflexivity|].
  split; [vm_compute; reflexivity|].
  eexists _, _, _.
  split; [vm_compute; reflexivity|]. split; [vm_compute; reflexivity|].
  split; [vm_compute; reflexivity|].
  split; [vm_compute; reflexivity|]. split; [vm_compute; discriminate|].
  split; [vm_compute; discriminate|]. vm_compute. reflexivity.
Qed.

(** * The writes to the model map, round by round *)

Section mutations.
Context {T Poly SimpleCPU TaskId Parameters Failures Aggregate : Type}.
Context `{Numeric T} `{PolyLib T Poly} `{EqDecision TaskId}.
Context (FedAvg_aggregate_fit :
  Z → list (string * FitRes TaskId) → Failures → Aggregate).

Abbreviation world := (World T Poly SimpleCPU).
Abbreviation models_of := (λ w : world, resources_model (self w)).
Abbreviation sample := (string * list (string * Z) * (string * Z))%type.



End mutations.


